(** * Docker Hub MCP server: registry-client access layer

    A shallow embedding of the rate limiter, the cache-key generator, the
    error normaliser with its retry wrapper, the auth manager and the
    registry client of the TypeScript sources, followed by the properties
    proved about them.

    Conventions of the embedding.
    - JavaScript numbers are exact integers ([Z]) wherever the program only
      produces integers from integers, and [number] (an integer or [NaN])
      wherever a value comes out of [parseInt]; rounding beyond 2^53 is not
      modelled.
    - Strings are Rocq strings, compared bytewise.
    - [Date.now()] is the [now] component of the world, or an explicit
      argument of the pure functions.
    - Asynchronous code is a state-and-exception monad over the world;
      synchronous code takes no time, a request takes the time the remote
      side says, and an awaited timer advances the clock by exactly its
      delay. *)

From Stdlib Require Import ZArith Lia Bool List String Ascii.
From stdpp Require Import gmap strings list sorting pretty.

Local Open Scope string_scope.
Local Open Scope Z_scope.

(* ===================================================================== *)
(** ** JavaScript primitives used by the sources *)
(* ===================================================================== *)

Module JS.

(** A number that may be [NaN] (the results of [parseInt] and what is
    computed from them). *)
Inductive number : Type :=
| NaN
| Num (z : Z).

Definition sub (a b : number) : number :=
  match a, b with
  | Num x, Num y => Num (x - y)
  | _, _ => NaN
  end.

Definition mul (a b : number) : number :=
  match a, b with
  | Num x, Num y => Num (x * y)
  | _, _ => NaN
  end.

(** [a > b]: false as soon as one side is [NaN]. *)
Definition gtb (a b : number) : bool :=
  match a, b with
  | Num x, Num y => y <? x
  | _, _ => false
  end.

(** [a >= b]. *)
Definition geb (a b : number) : bool :=
  match a, b with
  | Num x, Num y => y <=? x
  | _, _ => false
  end.

(** [x++] / [x + 1]. *)
Definition incr (a : number) : number :=
  match a with
  | Num x => Num (x + 1)
  | NaN => NaN
  end.

(** [Math.max(0, a)]. *)
Definition max0 (a : number) : number :=
  match a with
  | Num x => Num (Z.max 0 x)
  | NaN => NaN
  end.

(** Truthiness of a string, and of an optional (possibly [undefined])
    string. *)
Definition truthy (s : string) : bool :=
  match s with
  | EmptyString => false
  | String _ _ => true
  end.

Definition truthy_opt (o : option string) : bool :=
  match o with
  | Some s => truthy s
  | None => false
  end.

(** [a || b] on optional strings. *)
Definition or_else (a b : option string) : option string :=
  if truthy_opt a then a else b.

(** [a || d] where [d] is a string literal. *)
Definition or_default (a : option string) (d : string) : string :=
  match a with
  | Some s => if truthy s then s else d
  | None => d
  end.

(** [x || d] on an optional number: [undefined] and [0] give [d]. *)
Definition num_or (x : option Z) (d : Z) : Z :=
  match x with
  | Some v => if v =? 0 then d else v
  | None => d
  end.

(** *** [parseInt(s, 10)] *)

Definition isWhiteSpace (c : ascii) : bool :=
  let n := Z.of_N (N_of_ascii c) in
  ((9 <=? n) && (n <=? 13)) || (n =? 32).

Fixpoint trimStart (s : string) : string :=
  match s with
  | String c s' => if isWhiteSpace c then trimStart s' else s
  | EmptyString => EmptyString
  end.

Definition digitValue (c : ascii) : option Z :=
  let n := Z.of_N (N_of_ascii c) in
  if (48 <=? n) && (n <=? 57) then Some (n - 48) else None.

(** Value of the longest prefix of decimal digits, [acc] being the value
    read so far. *)
Fixpoint parseDigits (acc : Z) (s : string) : Z :=
  match s with
  | String c s' =>
      match digitValue c with
      | Some d => parseDigits (10 * acc + d) s'
      | None => acc
      end
  | EmptyString => acc
  end.

Definition parseUnsigned (s : string) : number :=
  match s with
  | String c s' =>
      match digitValue c with
      | Some d => Num (parseDigits d s')
      | None => NaN
      end
  | EmptyString => NaN
  end.

Definition parseInt (s : string) : number :=
  match trimStart s with
  | String "-" r => mul (Num (-1)) (parseUnsigned r)
  | String "+" r => parseUnsigned r
  | r => parseUnsigned r
  end.

(** *** [encodeURIComponent] on the bytes of a string *)

Definition isUnreserved (c : ascii) : bool :=
  let n := Z.of_N (N_of_ascii c) in
  ((65 <=? n) && (n <=? 90)) || ((97 <=? n) && (n <=? 122))
  || ((48 <=? n) && (n <=? 57))
  || (n =? 45) || (n =? 95) || (n =? 46) || (n =? 33) || (n =? 126)
  || (n =? 42) || (n =? 39) || (n =? 40) || (n =? 41).

Definition hexDigit (n : N) : ascii :=
  if (n <? 10)%N then ascii_of_N (48 + n) else ascii_of_N (55 + n).

(** The escape of one byte. *)
Definition encodeByte (c : ascii) : string :=
  if isUnreserved c then String c EmptyString
  else
    let n := N_of_ascii c in
    String "%" (String (hexDigit (n / 16)) (String (hexDigit (n mod 16)) EmptyString)).

Fixpoint encodeURIComponent (s : string) : string :=
  match s with
  | EmptyString => EmptyString
  | String c s' => encodeByte c ++ encodeURIComponent s'
  end.

(** *** Values of type [any] stored in a parameter map *)

Inductive value : Type :=
| VUndefined
| VNull
| VBool (b : bool)
| VNum (z : Z)
| VStr (s : string).

(** [String(v)]. *)
Definition toStr (v : value) : string :=
  match v with
  | VUndefined => "undefined"
  | VNull => "null"
  | VBool true => "true"
  | VBool false => "false"
  | VNum z => pretty z
  | VStr s => s
  end.

(** [Array.prototype.join]. *)
Fixpoint join (sep : string) (l : list string) : string :=
  match l with
  | [] => ""
  | [x] => x
  | x :: rest => x ++ sep ++ join sep rest
  end.

End JS.

(* ===================================================================== *)
(** ** Configuration ([config.ts]) *)
(* ===================================================================== *)

Record DockerHubConfig : Type := {
  username : option string;
  password : option string;
  accessToken : option string;
  rateLimit : Z;
  rateLimitWindow : Z
}.

(* ===================================================================== *)
(** ** Rate limiter ([utils/rate-limiter.ts]) *)
(* ===================================================================== *)

Module RateLimiter.
Import JS.

Record RateLimitEntry : Type := {
  count : number;
  resetTime : Z
}.

Record RateLimitInfo : Type := {
  remaining : number;
  reset : Z;
  limit : Z
}.

(** The fields of a [RateLimiter] instance. *)
Record t : Type := {
  limits : gmap string RateLimitEntry;
  maxRequests : Z;
  windowMs : Z
}.

Definition defaultKey : string := "default".

Definition new (cfg : DockerHubConfig) (maxRequests_arg windowMs_arg : option Z) : t :=
  {| limits := ∅;
     maxRequests := num_or maxRequests_arg (rateLimit cfg);
     windowMs := num_or windowMs_arg (rateLimitWindow cfg) * 1000 |}.

Definition set_entry (key : string) (e : RateLimitEntry) (rl : t) : t :=
  {| limits := <[key := e]> (limits rl);
     maxRequests := maxRequests rl;
     windowMs := windowMs rl |}.

(** [isAllowed(key)], reading the clock as [now]. *)
Definition isAllowed (now : Z) (key : string) (rl : t) : bool * t :=
  match limits rl !! key with
  | Some entry =>
      if resetTime entry <=? now then
        (true, set_entry key {| count := Num 1; resetTime := now + windowMs rl |} rl)
      else if geb (count entry) (Num (maxRequests rl)) then
        (false, rl)
      else
        (true, set_entry key {| count := incr (count entry);
                                resetTime := resetTime entry |} rl)
  | None =>
      (true, set_entry key {| count := Num 1; resetTime := now + windowMs rl |} rl)
  end.

(** [getInfo(key)]. *)
Definition getInfo (now : Z) (key : string) (rl : t) : RateLimitInfo :=
  match limits rl !! key with
  | Some entry =>
      if resetTime entry <=? now then
        {| remaining := Num (maxRequests rl - 1);
           reset := now + windowMs rl;
           limit := maxRequests rl |}
      else
        {| remaining := max0 (sub (Num (maxRequests rl)) (count entry));
           reset := resetTime entry;
           limit := maxRequests rl |}
  | None =>
      {| remaining := Num (maxRequests rl - 1);
         reset := now + windowMs rl;
         limit := maxRequests rl |}
  end.

(** [headers[a] || headers[b] || '0']. *)
Definition headerOr0 (headers : gmap string string) (a b : string) : string :=
  or_default (or_else (headers !! a) (headers !! b)) "0".

(** [updateFromHeaders(headers, key)]. *)
Definition updateFromHeaders (headers : gmap string string) (key : string) (rl : t) : t :=
  let limit := parseInt (headerOr0 headers "x-ratelimit-limit" "ratelimit-limit") in
  let remaining := parseInt (headerOr0 headers "x-ratelimit-remaining" "ratelimit-remaining") in
  let reset := parseInt (headerOr0 headers "x-ratelimit-reset" "ratelimit-reset") in
  let rl1 :=
    match limit with
    | Num l => if 0 <? l
               then {| limits := limits rl; maxRequests := l; windowMs := windowMs rl |}
               else rl
    | NaN => rl
    end in
  match reset with
  | Num r =>
      if 0 <? r then
        set_entry key {| count := max0 (sub limit remaining);
                         resetTime := r * 1000 |} rl1
      else rl1
  | NaN => rl1
  end.

Definition clear (key : string) (rl : t) : t :=
  {| limits := delete key (limits rl);
     maxRequests := maxRequests rl;
     windowMs := windowMs rl |}.

Definition clearAll (rl : t) : t :=
  {| limits := ∅; maxRequests := maxRequests rl; windowMs := windowMs rl |}.

End RateLimiter.

(* ===================================================================== *)
(** ** Shared types ([types.ts]) and the HTTP layer *)
(* ===================================================================== *)

Module Types.
Import JS.

(** One element of an [errors] array in an error body. *)
Inductive ErrorItem : Type :=
| ItemObject (message : option string)
| ItemString (s : string).

(** The fields of a JSON error body that the normaliser reads. *)
Record ErrorBody : Type := {
  eb_message : option string;
  eb_detail : option string;
  eb_error : option string;
  eb_errors : option (list ErrorItem)
}.

Record ScanData : Type := {
  vulnerability_count : option Z;
  high_vulnerability_count : option Z;
  medium_vulnerability_count : option Z;
  low_vulnerability_count : option Z;
  unknown_vulnerability_count : option Z;
  sd_vulnerabilities : option (list string)
}.

(** [response.data]. *)
Inductive Payload : Type :=
| PNothing
| PText (s : string)
| PErrorBody (b : ErrorBody)
| PToken (token : option string) (expires_in : option Z)
| PScan (d : ScanData).

Record Response : Type := {
  status : Z;
  headers : gmap string string;
  data : Payload
}.

Inductive Method : Type := GET | POST.

Record Request : Type := {
  method : Method;
  url : string;
  req_headers : gmap string string;
  basic_auth : option (string * string);
  form : list (string * string)
}.

(** [AxiosError]: [request] tells whether the request object exists. *)
Record AxiosError : Type := {
  ax_response : option Response;
  ax_request : bool;
  ax_message : string
}.

(** The three error classes. [RateLimitError] passes 429 and
    [AuthenticationError] passes 401 to the base constructor. *)
Inductive DockerHubError : Type :=
| BaseError (message : string) (statusCode : option Z) (response : option Payload)
| RateLimitError (message : string) (resetTime : number)
| AuthenticationError (message : string).

Definition message (e : DockerHubError) : string :=
  match e with
  | BaseError m _ _ => m
  | RateLimitError m _ => m
  | AuthenticationError m => m
  end.

Definition statusCode (e : DockerHubError) : option Z :=
  match e with
  | BaseError _ c _ => c
  | RateLimitError _ _ => Some 429
  | AuthenticationError _ => Some 401
  end.

Definition name (e : DockerHubError) : string :=
  match e with
  | BaseError _ _ _ => "DockerHubError"
  | RateLimitError _ _ => "RateLimitError"
  | AuthenticationError _ => "AuthenticationError"
  end.

(** [e instanceof RateLimitError], [e instanceof AuthenticationError]. *)
Definition isRateLimitError (e : DockerHubError) : bool :=
  match e with
  | RateLimitError _ _ => true
  | _ => false
  end.

Definition isAuthenticationError (e : DockerHubError) : bool :=
  match e with
  | AuthenticationError _ => true
  | _ => false
  end.

(** What a [catch] clause can receive. *)
Inductive Thrown : Type :=
| ThrownDockerHub (e : DockerHubError)
| ThrownAxios (a : AxiosError)
| ThrownError (message : string)
| ThrownOther.

Record AuthCredentials : Type := {
  cred_username : option string;
  cred_password : option string;
  cred_accessToken : option string
}.

Record RegistryAuth : Type := {
  ra_url : string;
  ra_credentials : AuthCredentials
}.

Record VulnerabilitySummary : Type := {
  total : Z;
  high : Z;
  medium : Z;
  low : Z;
  unknown : Z
}.

Record VulnerabilityReport : Type := {
  vr_namespace : string;
  vr_repository : string;
  vr_tag : string;
  vr_summary : VulnerabilitySummary;
  vr_vulnerabilities : list string
}.

Inductive LogLevel : Type := LError | LWarn | LInfo | LDebug.

End Types.

(* ===================================================================== *)
(** ** Error normalisation ([utils/error-handler.ts]), pure part *)
(* ===================================================================== *)

Module ErrorHandler.
Import JS Types.

(** [e.message || e] followed by the string conversion of [join]. *)
Definition itemText (i : ErrorItem) : string :=
  match i with
  | ItemObject (Some m) => if truthy m then m else "[object Object]"
  | ItemObject None => "[object Object]"
  | ItemString s => s
  end.

(** The message extracted from the response body, [message] being the
    Axios message used when the body names none. *)
Definition extractMessage (message : string) (d : Payload) : string :=
  match d with
  | PErrorBody b =>
      if truthy_opt (eb_message b) then or_default (eb_message b) message
      else if truthy_opt (eb_detail b) then or_default (eb_detail b) message
      else if truthy_opt (eb_error b) then or_default (eb_error b) message
      else match eb_errors b with
           | Some l => join ", " (map itemText l)
           | None => message
           end
  | _ => message
  end.

(** [m || d] on strings. *)
Definition msg_or (m d : string) : string := if truthy m then m else d.

Definition handleAxiosError (now : Z) (error : AxiosError) : DockerHubError :=
  match ax_response error with
  | None =>
      if ax_request error
      then BaseError "Network error: Unable to reach Docker Hub API" None None
      else BaseError ("Request setup error: " ++ ax_message error) None None
  | Some r =>
      let errorMessage := extractMessage (ax_message error) (data r) in
      let st := status r in
      if st =? 401 then
        AuthenticationError (msg_or errorMessage "Authentication failed")
      else if st =? 403 then
        BaseError (msg_or errorMessage "Access forbidden. Check your permissions.")
                  (Some st) (Some (data r))
      else if st =? 404 then
        BaseError (msg_or errorMessage "Resource not found") (Some st) (Some (data r))
      else if st =? 429 then
        let resetHeader :=
          or_else (headers r !! "x-ratelimit-reset") (headers r !! "ratelimit-reset") in
        let resetTime :=
          match resetHeader with
          | Some h => if truthy h then mul (parseInt h) (Num 1000)
                      else Num (now + 3600000)
          | None => Num (now + 3600000)
          end in
        RateLimitError (msg_or errorMessage "Rate limit exceeded") resetTime
      else if st =? 500 then
        BaseError "Docker Hub internal server error" (Some st) (Some (data r))
      else if (st =? 502) || (st =? 503) || (st =? 504) then
        BaseError "Docker Hub service temporarily unavailable" (Some st) (Some (data r))
      else
        BaseError (msg_or errorMessage ("HTTP " ++ pretty st ++ " error"))
                  (Some st) (Some (data r))
  end.

Definition handleError (now : Z) (error : Thrown) : DockerHubError :=
  match error with
  | ThrownDockerHub e => e
  | ThrownAxios a => handleAxiosError now a
  | ThrownError m => BaseError m None None
  | ThrownOther => BaseError "Unknown error occurred" None None
  end.

(** [if (error.statusCode)]: a present, non-zero status. *)
Definition status_truthy (c : option Z) : option Z :=
  match c with
  | Some v => if v =? 0 then None else Some v
  | None => None
  end.

Definition getLogLevel (error : DockerHubError) : LogLevel :=
  if isRateLimitError error then LWarn
  else if isAuthenticationError error then LError
  else match status_truthy (statusCode error) with
       | Some c => if 500 <=? c then LError
                   else if 400 <=? c then LWarn
                   else LInfo
       | None => LError
       end.

Definition isRetryable (error : DockerHubError) : bool :=
  if isRateLimitError error then true
  else if isAuthenticationError error then false
  else match status_truthy (statusCode error) with
       | Some c => (500 <=? c) || (c =? 429)
       | None => false
       end.

(** [getRetryDelay(error, attempt)]; [NaN] when the reset time is. *)
Definition getRetryDelay (now : Z) (error : DockerHubError) (attempt : Z) : number :=
  match error with
  | RateLimitError _ resetTime => max0 (sub resetTime (Num now))
  | _ => Num (Z.min 30000 (1000 * 2 ^ (attempt - 1)))
  end.

End ErrorHandler.

(* ===================================================================== *)
(** ** Cache keys ([cache/cache-manager.ts]) *)
(* ===================================================================== *)

Module CacheManager.
Import JS.

(** A parameter object: its own properties in [Object.keys] order, the
    names pairwise distinct. *)
Definition Params : Type := list (string * value).

(** [params[key]]. *)
Fixpoint getParam (params : Params) (key : string) : value :=
  match params with
  | [] => VUndefined
  | (k, v) :: rest => if String.eqb k key then v else getParam rest key
  end.

(** [keys.sort()]: without a comparator the names are ordered as strings,
    here by [String.le]. *)
Definition sortKeys (keys : list string) : list string := merge_sort String.le keys.

Definition renderParam (params : Params) (key : string) : string :=
  key ++ "=" ++ encodeURIComponent (toStr (getParam params key)).

Definition generateKey (endpoint : string) (params : Params) : string :=
  let sortedParams :=
    join "&" (map (renderParam params) (sortKeys (map fst params))) in
  endpoint ++ (if truthy sortedParams then "?" ++ sortedParams else "").

End CacheManager.

(* ===================================================================== *)
(** ** Asynchronous code: the world and its monad *)
(* ===================================================================== *)

Module Async.
Import JS Types.

Record AuthTokenInfo : Type := {
  token : option string;
  expiresAt : Z
}.

Inductive Event : Type :=
| EvRequest (r : Request)
| EvSleep (ms : Z)
| EvConsole (level : LogLevel) (text : string) (info : option Thrown).

(** The process-wide singletons and what the process has done so far. *)
Record World : Type := {
  now : Z;
  tokenCache : gmap string AuthTokenInfo;
  limiter : RateLimiter.t;
  events : list Event
}.

Inductive NetOutcome : Type :=
| NoResponse (reason : string)
| Received (r : Response).

Record NetReply : Type := {
  elapsed : N;
  outcome : NetOutcome
}.

(** What the program is given: its configuration, the remote side (the
    reply to the [n]-th request sent), and the platform's [URL] and
    [Date] classes. *)
Record Env : Type := {
  config : DockerHubConfig;
  logLevel : LogLevel;
  userAgent : string;
  network : nat -> Request -> NetReply;
  parseURL : string -> option (string * string);
  toISOString : Z -> string
}.

Inductive Res (A : Type) : Type :=
| Ok (a : A)
| Throw (x : Thrown).
Arguments Ok {A} a.
Arguments Throw {A} x.

Definition M (A : Type) : Type := World -> Res A * World.

Definition ret {A} (a : A) : M A := fun w => (Ok a, w).

Definition throw {A} (x : Thrown) : M A := fun w => (Throw x, w).

Definition bind {A B} (c : M A) (k : A -> M B) : M B :=
  fun w =>
    match c w with
    | (Ok a, w') => k a w'
    | (Throw x, w') => (Throw x, w')
    end.

(** [try { c } catch (error) { h error }]. *)
Definition try_catch {A} (c : M A) (h : Thrown -> M A) : M A :=
  fun w =>
    match c w with
    | (Ok a, w') => (Ok a, w')
    | (Throw x, w') => h x w'
    end.

(** [Date.now()]. *)
Definition clock : M Z := fun w => (Ok (now w), w).

Definition emit (e : Event) (w : World) : World :=
  {| now := now w; tokenCache := tokenCache w; limiter := limiter w;
     events := events w ++ [e] |}.

Definition advance (d : Z) (w : World) : World :=
  {| now := now w + d; tokenCache := tokenCache w; limiter := limiter w;
     events := events w |}.

Definition console (level : LogLevel) (text : string) (info : option Thrown)
  : M unit :=
  fun w => (Ok tt, emit (EvConsole level text info) w).

(** The longest delay a timer of the platform takes, [2^31 - 1] ms. *)
Definition TIMEOUT_MAX : Z := 2147483647.

(** The delay [setTimeout] gives a timer: a delay below 1 or above
    [TIMEOUT_MAX] is replaced by 1. *)
Definition timerDelay (ms : Z) : Z :=
  if (1 <=? ms) && (ms <=? TIMEOUT_MAX) then ms else 1.

(** [await new Promise(resolve => setTimeout(resolve, ms))]: the event
    records the delay asked for, the clock moves by the timer's delay. *)
Definition sleep (ms : Z) : M unit :=
  fun w => (Ok tt, advance (timerDelay ms) (emit (EvSleep ms) w)).

Definition set_limiter (rl : RateLimiter.t) (w : World) : World :=
  {| now := now w; tokenCache := tokenCache w; limiter := rl; events := events w |}.

Definition set_tokenCache (c : gmap string AuthTokenInfo) (w : World) : World :=
  {| now := now w; tokenCache := c; limiter := limiter w; events := events w |}.

Definition isRequest (e : Event) : bool :=
  match e with
  | EvRequest _ => true
  | _ => false
  end.

Definition requests (w : World) : list Event := List.filter isRequest (events w).

(** One Axios request: it resolves when [validateStatus] accepts the
    status and rejects with an [AxiosError] otherwise. *)
Definition axios (env : Env) (validateStatus : Z -> bool) (req : Request) : M Response :=
  fun w =>
    let rep := network env (length (requests w)) req in
    let w' := advance (Z.of_N (elapsed rep)) (emit (EvRequest req) w) in
    match outcome rep with
    | NoResponse reason =>
        (Throw (ThrownAxios {| ax_response := None; ax_request := true;
                               ax_message := reason |}), w')
    | Received r =>
        if validateStatus (status r) then (Ok r, w')
        else (Throw (ThrownAxios
                       {| ax_response := Some r; ax_request := true;
                          ax_message := "Request failed with status code "
                                        ++ pretty (status r) |}), w')
    end.

(** Axios's default [validateStatus]. *)
Definition status2xx (st : Z) : bool := (200 <=? st) && (st <? 300).

End Async.

Declare Scope async_scope.
Delimit Scope async_scope with async.
Notation "x <- c ;; k" := (Async.bind c (fun x => k))
  (at level 20, c at level 99, k at level 200) : async_scope.
Notation "c ;;; k" := (Async.bind c (fun _ => k))
  (at level 100, k at level 200, right associativity) : async_scope.

(* ===================================================================== *)
(** ** Rate limiter, asynchronous part *)
(* ===================================================================== *)

Module RateLimiterOps.
Import JS Types Async.
Local Open Scope async_scope.

Definition isAllowed (key : string) : M bool :=
  fun w =>
    let '(allowed, rl) := RateLimiter.isAllowed (now w) key (limiter w) in
    (Ok allowed, set_limiter rl w).

Definition getInfo (key : string) : M RateLimiter.RateLimitInfo :=
  fun w => (Ok (RateLimiter.getInfo (now w) key (limiter w)), w).

Definition updateFromHeaders (headers : gmap string string) (key : string) : M unit :=
  fun w => (Ok tt, set_limiter (RateLimiter.updateFromHeaders headers key (limiter w)) w).

Definition waitForReset (key : string) : M unit :=
  info <- getInfo key ;;
  if gtb (RateLimiter.remaining info) (Num 0) then ret tt
  else
    t <- clock ;;
    let waitTime := RateLimiter.reset info - t in
    if 0 <? waitTime then sleep waitTime else ret tt.

Definition execute {T} (env : Env) (fn : M T) (key : string) (throwOnLimit : bool) : M T :=
  allowed <- isAllowed key ;;
  (if negb allowed then
     if throwOnLimit then
       info <- getInfo key ;;
       throw (ThrownDockerHub
                (RateLimitError
                   ("Rate limit exceeded. Try again at "
                    ++ toISOString env (RateLimiter.reset info))
                   (Num (RateLimiter.reset info))))
     else waitForReset key
   else ret tt) ;;;
  fn.

End RateLimiterOps.

(* ===================================================================== *)
(** ** Error handling, effectful part ([utils/error-handler.ts]) *)
(* ===================================================================== *)

Module Retry.
Import JS Types Async ErrorHandler.
Local Open Scope async_scope.

Definition logError (env : Env) (error : DockerHubError) (context : option string)
  : M unit :=
  let prefix := if truthy_opt context then "[" ++ or_default context "" ++ "]" else "" in
  match getLogLevel error with
  | LError => console LError (prefix ++ " Error:") (Some (ThrownDockerHub error))
  | LWarn => console LWarn (prefix ++ " Warning:") (Some (ThrownDockerHub error))
  | LInfo => console LInfo (prefix ++ " Info:") (Some (ThrownDockerHub error))
  | LDebug =>
      match logLevel env with
      | LDebug => console LDebug (prefix ++ " Debug:") (Some (ThrownDockerHub error))
      | _ => ret tt
      end
  end.

(** The logging done by the [catch] clause of [withErrorHandling]. *)
Definition logAttempt (env : Env) (context : option string) (maxRetries attempt : nat)
    (lastError : DockerHubError) : M unit :=
  if truthy_opt context then
    logError env lastError
      (Some (or_default context "" ++ " (attempt " ++ pretty attempt
             ++ "/" ++ pretty maxRetries ++ ")"))
  else ret tt.

(** The wait before the next attempt: [if (delay > 0) await ...]. *)
Definition waitBeforeRetry (lastError : DockerHubError) (attempt : nat) : M unit :=
  t <- clock ;;
  match getRetryDelay t lastError (Z.of_nat attempt) with
  | Num delay => if 0 <? delay then sleep delay else ret tt
  | NaN => ret tt
  end.

(** The [for] loop of [withErrorHandling]: [remaining] iterations are
    left, the next one being number [attempt]; when none is left the
    statement after the loop throws [lastError]. *)
Fixpoint attempts {T} (env : Env) (fn : M T) (context : option string)
    (maxRetries : nat) (lastError : option DockerHubError)
    (remaining : nat) (attempt : nat) : M T :=
  match remaining with
  | O =>
      match lastError with
      | Some e => throw (ThrownDockerHub e)
      | None => throw ThrownOther
      end
  | S remaining' =>
      try_catch fn (fun error =>
        t <- clock ;;
        let lastError := handleError t error in
        logAttempt env context maxRetries attempt lastError ;;;
        if (attempt =? maxRetries)%nat || negb (isRetryable lastError) then
          throw (ThrownDockerHub lastError)
        else
          waitBeforeRetry lastError attempt ;;;
          attempts env fn context maxRetries (Some lastError) remaining' (S attempt))
  end.

Definition withErrorHandling {T} (env : Env) (fn : M T) (context : option string)
    (maxRetries : nat) : M T :=
  attempts env fn context maxRetries None maxRetries 1.

(** The default value of [maxRetries]. *)
Definition defaultMaxRetries : nat := 3.

End Retry.

(* ===================================================================== *)
(** ** Auth manager ([auth/auth-manager.ts]) *)
(* ===================================================================== *)

Module AuthManager.
Import JS Types Async ErrorHandler Retry.
Local Open Scope async_scope.

(** The headers given to [axios.create]. *)
Definition defaultHeaders (env : Env) : gmap string string :=
  {[ "User-Agent" := userAgent env ]}.

Definition dockerHubTokenURL : string := "https://auth.docker.io/token".

(** [new URLSearchParams({ service, ...(scope && { scope }) })]. *)
Definition tokenForm (service : string) (scope : option string) : list (string * string) :=
  ("service", service)
    :: (if truthy_opt scope then [("scope", or_default scope "")] else []).

Definition tokenRequest (env : Env) (authUrl service : string) (scope : option string)
    (user pass : string) : Request :=
  {| method := POST;
     url := authUrl;
     req_headers := {[ "Content-Type" := "application/x-www-form-urlencoded" ]}
                      ∪ defaultHeaders env;
     basic_auth := Some (user, pass);
     form := tokenForm service scope |}.

(** [const { token, expires_in } = response.data]: [None] when the
    destructuring itself throws. *)
Definition tokenFields (d : Payload) : option (option string * option Z) :=
  match d with
  | PNothing => None
  | PToken t e => Some (t, e)
  | _ => Some (None, None)
  end.

(** The cache lookup [cached && cached.expiresAt > Date.now()]. *)
Definition validCached (cacheKey : string) : M (option AuthTokenInfo) :=
  fun w =>
    (Ok match tokenCache w !! cacheKey with
        | Some cached => if now w <? expiresAt cached then Some cached else None
        | None => None
        end, w).

(** The statements after the token request: destructure, stamp, cache. *)
Definition storeToken (cacheKey : string) (d : Payload) : M (option string) :=
  match tokenFields d with
  | None => throw (ThrownError "Cannot destructure property 'token'")
  | Some (tok, expires_in) =>
      fun w =>
        let expiresAt := now w + num_or expires_in 3600 * 1000 in
        (Ok tok,
         set_tokenCache
           (<[cacheKey := {| token := tok; expiresAt := expiresAt |}]> (tokenCache w)) w)
  end.

(** [`dockerhub:${scope || 'default'}`]. *)
Definition dockerHubCacheKey (scope : option string) : string :=
  "dockerhub:" ++ or_default scope "default".

(** The token request for the default registry. *)
Definition dockerHubTokenRequest (env : Env) (scope : option string) : Request :=
  tokenRequest env dockerHubTokenURL "registry.docker.io" scope
    (or_default (username (config env)) "")
    (or_default (password (config env)) "").

(** The [catch] clause of [getDockerHubToken]. *)
Definition onDockerHubFailure (env : Env) (error : Thrown) : M (option string) :=
  t <- clock ;;
  let dockerHubError := handleError t error in
  logError env dockerHubError (Some "DockerHub Authentication") ;;;
  if isAuthenticationError dockerHubError then
    throw (ThrownDockerHub dockerHubError)
  else
    console LWarn
      "Failed to authenticate with Docker Hub, falling back to anonymous access"
      None ;;;
    ret None.

Definition getDockerHubToken (env : Env) (scope : option string) : M (option string) :=
  let credentials := config env in
  if truthy_opt (accessToken credentials) then ret (accessToken credentials)
  else if negb (truthy_opt (username credentials))
          || negb (truthy_opt (password credentials)) then ret None
  else
    let cacheKey := dockerHubCacheKey scope in
    cached <- validCached cacheKey ;;
    match cached with
    | Some c => ret (token c)
    | None =>
        try_catch
          (response <- axios env status2xx (dockerHubTokenRequest env scope) ;;
           storeToken cacheKey (data response))
          (onDockerHubFailure env)
    end.

(** *** The regular expression applied to [WWW-Authenticate]: the text
    [realm=], a quote, one or more characters other than a quote
    (captured), a quote. *)

Definition quote : ascii := "034"%char.

Fixpoint stripPrefix (p s : string) : option string :=
  match p, s with
  | EmptyString, _ => Some s
  | String a p', String b s' => if Ascii.eqb a b then stripPrefix p' s' else None
  | String _ _, EmptyString => None
  end.

(** The characters before the first quote, when there is a quote. *)
Fixpoint untilQuote (s : string) : option string :=
  match s with
  | EmptyString => None
  | String c s' =>
      if Ascii.eqb c quote then Some EmptyString
      else match untilQuote s' with
           | Some run => Some (String c run)
           | None => None
           end
  end.

(** A match starting exactly at the head of [s]. *)
Definition realmHere (s : string) : option string :=
  match stripPrefix ("realm=" ++ String quote EmptyString) s with
  | Some rest =>
      match untilQuote rest with
      | Some run => if truthy run then Some run else None
      | None => None
      end
  | None => None
  end.

(** The first capture group of the leftmost match. *)
Fixpoint matchRealm (s : string) : option string :=
  match realmHere s with
  | Some run => Some run
  | None =>
      match s with
      | EmptyString => None
      | String _ s' => matchRealm s'
      end
  end.

Definition probeRequest (env : Env) (registryUrl : string) : Request :=
  {| method := GET;
     url := registryUrl ++ "/v2/";
     req_headers := defaultHeaders env;
     basic_auth := None;
     form := [] |}.

Definition discoverAuthEndpoint (env : Env) (registryUrl : string) : M (option string) :=
  try_catch
    (response <- axios env (fun st => st =? 401) (probeRequest env registryUrl) ;;
     let wwwAuth := headers response !! "www-authenticate" in
     match (if truthy_opt wwwAuth then matchRealm (or_default wwwAuth "") else None) with
     | Some realm => ret (Some realm)
     | None =>
         match parseURL env registryUrl with
         | Some (protocol, hostname) =>
             ret (Some (protocol ++ "//auth." ++ hostname ++ "/token"))
         | None => throw (ThrownError "Invalid URL")
         end
     end)
    (fun error =>
       console LWarn ("Failed to discover auth endpoint for " ++ registryUrl ++ ":")
               (Some error) ;;;
       ret None).

(** [`registry:${url}:${scope || 'default'}`]. *)
Definition registryCacheKey (url : string) (scope : option string) : string :=
  "registry:" ++ url ++ ":" ++ or_default scope "default".

Definition getPrivateRegistryToken (env : Env) (registryAuth : RegistryAuth)
    (scope : option string) : M (option string) :=
  let url := ra_url registryAuth in
  let credentials := ra_credentials registryAuth in
  if negb (truthy_opt (cred_username credentials))
     || negb (truthy_opt (cred_password credentials)) then ret None
  else
    authUrl <- discoverAuthEndpoint env url ;;
    if negb (truthy_opt authUrl) then
      throw (ThrownDockerHub
               (AuthenticationError
                  ("Could not discover authentication endpoint for " ++ url)))
    else
      let cacheKey := registryCacheKey url scope in
      cached <- validCached cacheKey ;;
      match cached with
      | Some c => ret (token c)
      | None =>
          try_catch
            (match parseURL env url with
             | None => throw (ThrownError "Invalid URL")
             | Some (_, hostname) =>
                 response <- axios env status2xx
                               (tokenRequest env (or_default authUrl "") hostname scope
                                  (or_default (cred_username credentials) "")
                                  (or_default (cred_password credentials) "")) ;;
                 storeToken cacheKey (data response)
             end)
            (fun error =>
               t <- clock ;;
               let dockerHubError := handleError t error in
               logError env dockerHubError (Some "Private Registry Authentication") ;;;
               throw (ThrownDockerHub dockerHubError))
      end.

Definition createAuthHeaders (env : Env) (registryAuth : option RegistryAuth)
    (scope : option string) : M (gmap string string) :=
  token <- match registryAuth with
           | Some ra => getPrivateRegistryToken env ra scope
           | None => getDockerHubToken env scope
           end ;;
  ret (if truthy_opt token
       then {[ "Authorization" := "Bearer " ++ or_default token "" ]}
       else ∅).

End AuthManager.

(* ===================================================================== *)
(** ** Registry client ([clients/dockerhub.ts]) *)
(* ===================================================================== *)

Module DockerHubClient.
Import JS Types Async ErrorHandler Retry.
Local Open Scope async_scope.

Definition baseURL : string := "https://hub.docker.com/v2".
Definition registryURL : string := "https://registry-1.docker.io/v2".

Definition defaultHeaders (env : Env) : gmap string string :=
  {[ "User-Agent" := userAgent env; "Accept" := "application/json" ]}.

(** [String.prototype.split] on a one-character separator. *)
Fixpoint split (sep : ascii) (s : string) : list string :=
  match s with
  | EmptyString => [EmptyString]
  | String c s' =>
      if Ascii.eqb c sep then EmptyString :: split sep s'
      else match split sep s' with
           | part :: parts => String c part :: parts
           | [] => [String c EmptyString]
           end
  end.

Definition parseRepository (repository : string) : Res (string * string) :=
  match split "/" repository with
  | [part0] => Ok ("library", part0)
  | [part0; part1] => Ok (part0, part1)
  | _ => Throw (ThrownError ("Invalid repository format: " ++ repository))
  end.

(** [this.httpClient.get(url, { headers })] with the two response
    interceptors installed by the constructor. *)
Definition get (env : Env) (target : string) (hdrs : gmap string string) : M Response :=
  fun w =>
    let req := {| method := GET; url := target;
                  req_headers := hdrs ∪ defaultHeaders env;
                  basic_auth := None; form := [] |} in
    match axios env status2xx req w with
    | (Ok response, w') =>
        (RateLimiterOps.updateFromHeaders (headers response) RateLimiter.defaultKey ;;;
         ret response) w'
    | (Throw error, w') =>
        ((match error with
          | ThrownAxios a =>
              match ax_response a with
              | Some r => RateLimiterOps.updateFromHeaders (headers r) RateLimiter.defaultKey
              | None => ret tt
              end
          | _ => ret tt
          end) ;;;
         throw error) w'
    end.

(** [scanData.f || 0]. *)
Definition count_or0 (f : option Z) : Z := num_or f 0.

Definition emptyScan : ScanData :=
  {| vulnerability_count := None; high_vulnerability_count := None;
     medium_vulnerability_count := None; low_vulnerability_count := None;
     unknown_vulnerability_count := None; sd_vulnerabilities := None |}.

(** The fields read from the scan payload: [None] when reading a
    property of it throws. *)
Definition scanFields (d : Payload) : option ScanData :=
  match d with
  | PNothing => None
  | PScan sd => Some sd
  | _ => Some emptyScan
  end.

Definition transformScanResults (scanData : Payload) (namespace repository tag : string)
  : Res VulnerabilityReport :=
  match scanFields scanData with
  | None => Throw (ThrownError "Cannot read properties of null")
  | Some sd =>
      Ok {| vr_namespace := namespace;
            vr_repository := repository;
            vr_tag := tag;
            vr_summary :=
              {| total := count_or0 (vulnerability_count sd);
                 high := count_or0 (high_vulnerability_count sd);
                 medium := count_or0 (medium_vulnerability_count sd);
                 low := count_or0 (low_vulnerability_count sd);
                 unknown := count_or0 (unknown_vulnerability_count sd) |};
            vr_vulnerabilities := default [] (sd_vulnerabilities sd) |}
  end.

(** [error.statusCode === 404]. *)
Definition is404 (e : DockerHubError) : bool :=
  match statusCode e with
  | Some c => c =? 404
  | None => false
  end.

Definition scanURL (namespace name tag : string) : string :=
  baseURL ++ "/" ++ ("repositories/" ++ namespace ++ "/" ++ name ++ "/tags/" ++ tag ++ "/scan")
          ++ "/".

(** The rate-limited request issued by [getVulnerabilities]. *)
Definition scanRequest (env : Env) (namespace name tag : string) : M Response :=
  RateLimiterOps.execute env
    (authHeaders <- AuthManager.createAuthHeaders env None None ;;
     get env (scanURL namespace name tag) authHeaders)
    RateLimiter.defaultKey false.

(** The function passed to the retry wrapper by [getVulnerabilities]. *)
Definition getVulnerabilities_body (env : Env) (repository tag : string)
  : M (option VulnerabilityReport) :=
  match parseRepository repository with
  | Throw x => throw x
  | Ok (namespace, name) =>
      try_catch
        (response <- scanRequest env namespace name tag ;;
         match transformScanResults (data response) namespace name tag with
         | Ok report => ret (Some report)
         | Throw x => throw x
         end)
        (fun error =>
           t <- clock ;;
           let dockerHubError := handleError t error in
           if is404 dockerHubError then ret None
           else throw (ThrownDockerHub dockerHubError))
  end.

Definition getVulnerabilities (env : Env) (repository : string) (tag : option string)
  : M (option VulnerabilityReport) :=
  withErrorHandling env
    (getVulnerabilities_body env repository (default "latest" tag))
    (Some "DockerHub.getVulnerabilities") defaultMaxRetries.

End DockerHubClient.

(* ===================================================================== *)
(** ** Concrete configurations and worlds used as instances *)
(* ===================================================================== *)

Module Samples.
Import JS Types Async.

Definition anonymousConfig : DockerHubConfig :=
  {| username := None; password := None; accessToken := None;
     rateLimit := 100; rateLimitWindow := 3600 |}.

(** [new RateLimiter(2, 1)]: two requests per window of 1000 ms. *)
Definition limiter_2_1000 : RateLimiter.t :=
  RateLimiter.new anonymousConfig (Some 2) (Some 1).

(** [new RateLimiter()] under the default configuration. *)
Definition defaultLimiter : RateLimiter.t :=
  RateLimiter.new anonymousConfig None None.

Definition syncHeaders : gmap string string :=
  {[ "x-ratelimit-limit" := "10";
     "x-ratelimit-remaining" := "3";
     "x-ratelimit-reset" := "2000000000" ]}.

Definition worldWith (t : Z) (rl : RateLimiter.t) : World :=
  {| now := t; tokenCache := ∅; limiter := rl; events := [] |}.

(** A stand-in for the platform's [URL] class, good for
    [scheme://host], [scheme://host:port] and [scheme://host/path]. *)
Fixpoint schemeAndRest (s : string) : option (string * string) :=
  match AuthManager.stripPrefix "://" s with
  | Some rest => Some (":", rest)
  | None =>
      match s with
      | EmptyString => None
      | String c s' =>
          match schemeAndRest s' with
          | Some (scheme, rest) => Some (String c scheme, rest)
          | None => None
          end
      end
  end.

Fixpoint hostOf (s : string) : string :=
  match s with
  | EmptyString => EmptyString
  | String c s' =>
      if Ascii.eqb c "/" || Ascii.eqb c ":" || Ascii.eqb c "?" || Ascii.eqb c "#"
      then EmptyString
      else String c (hostOf s')
  end.

Definition simpleURL (s : string) : option (string * string) :=
  match schemeAndRest s with
  | Some (protocol, rest) => Some (protocol, hostOf rest)
  | None => None
  end.

Definition envOf (cfg : DockerHubConfig) (net : nat -> Request -> NetReply) : Env :=
  {| config := cfg;
     logLevel := LInfo;
     userAgent := "dockerhub-mcp-server/1.0.0";
     network := net;
     parseURL := simpleURL;
     toISOString := fun t => pretty t |}.

Definition answer (st : Z) (hdrs : gmap string string) (d : Payload) : NetReply :=
  {| elapsed := 0; outcome := Received {| status := st; headers := hdrs; data := d |} |}.

Definition unreachable : NetReply :=
  {| elapsed := 0; outcome := NoResponse "connect ECONNREFUSED" |}.

(** An upstream that answers every request with the same status. *)
Definition always (st : Z) : nat -> Request -> NetReply :=
  fun _ _ => answer st ∅ PNothing.

Definition registryUrl : string := "https://registry.example.com".

(** [Bearer realm=<q>https://auth.example.com/token<q>,service=...], [<q>]
    being the quote character. *)
Definition challenge : string :=
  "Bearer realm=" ++ String AuthManager.quote
    ("https://auth.example.com/token"
       ++ String AuthManager.quote ",service=registry.example.com").

(** A registry that answers every request with a 401 challenge. *)
Definition challenging : nat -> Request -> NetReply :=
  fun _ _ => answer 401 {[ "www-authenticate" := challenge ]} PNothing.

(** Credentials for the default registry, without an access token. *)
Definition passwordConfig : DockerHubConfig :=
  {| username := Some "alice"; password := Some "wrong-password"; accessToken := None;
     rateLimit := 100; rateLimitWindow := 3600 |}.

Definition registryAuth : RegistryAuth :=
  {| ra_url := registryUrl;
     ra_credentials := {| cred_username := Some "alice";
                          cred_password := Some "secret";
                          cred_accessToken := None |} |}.

(** A world whose token cache holds a token for the sample registry that
    is valid until time 3600000. *)
Definition worldWithRegistryToken : World :=
  {| now := 1000;
     tokenCache := {[ "registry:https://registry.example.com:default"
                      := {| token := Some "cached-token"; expiresAt := 3600000 |} ]};
     limiter := defaultLimiter;
     events := [] |}.

(** A limiter whose default key has used both requests of a window that
    ends at time 1000. *)
Definition exhaustedLimiter : RateLimiter.t :=
  {| RateLimiter.limits :=
       {[ "default" := {| RateLimiter.count := Num 2; RateLimiter.resetTime := 1000 |} ]};
     RateLimiter.maxRequests := 2;
     RateLimiter.windowMs := 1000 |}.

(** An operation that fails with an upstream 503 each time. *)
Definition failing503 : M unit :=
  throw (ThrownAxios
           {| ax_response := Some {| status := 503; headers := ∅; data := PNothing |};
              ax_request := true;
              ax_message := "Request failed with status code 503" |}).

End Samples.

(* ===================================================================== *)
(** ** Vocabulary of the statements *)
(* ===================================================================== *)

Module Notions.
Import JS Types Async.

(** Number of occurrences of a character in a string. *)
Fixpoint occurrences (c : ascii) (s : string) : nat :=
  match s with
  | EmptyString => O
  | String a s' => if Ascii.eqb a c then S (occurrences c s') else occurrences c s'
  end.

Definition slashes (s : string) : nat := occurrences "/" s.

(** The configuration has a username and a password and no access token. *)
Definition passwordOnly (cfg : DockerHubConfig) : Prop :=
  truthy_opt (accessToken cfg) = false
  /\ truthy_opt (username cfg) = true
  /\ truthy_opt (password cfg) = true.

(** No token that is still valid is cached under [cacheKey]. *)
Definition noValidToken (cacheKey : string) (w : World) : Prop :=
  match tokenCache w !! cacheKey with
  | Some cached => expiresAt cached <= now w
  | None => True
  end.

(** The part of the request of [getVulnerabilities] that comes before the
    scan endpoint is asked: the limiter's check (and its wait) and the
    making of the headers. Its result is the headers the scan request is
    sent with. *)
Definition beforeScan (env : Env) : M (gmap string string) :=
  RateLimiterOps.execute env (AuthManager.createAuthHeaders env None None)
    RateLimiter.defaultKey false.

End Notions.

(* ===================================================================== *)
(** ** The retry policy as the specification words it *)
(* ===================================================================== *)

Module RetryPolicy.
Import JS Types Async ErrorHandler.

(** The retryable kinds: rate limiting (status 429) and errors with a
    status of 500 or more. *)
Definition rate_limited (e : DockerHubError) : Prop := statusCode e = Some 429.

Definition upstream_server_error (e : DockerHubError) : Prop :=
  exists c, statusCode e = Some c /\ 500 <= c.

Definition retryable_kind (e : DockerHubError) : Prop :=
  rate_limited e \/ upstream_server_error e.

(** The narrower kind of upstream 5xx server errors: a status from 500 to
    599. *)
Definition upstream_5xx (e : DockerHubError) : Prop :=
  exists c, statusCode e = Some c /\ 500 <= c <= 599.

(** The reset time a 429 answer stands for, the failure being handled at
    time [failedAt]: the number of seconds read from the first non-empty
    one of its two reset headers, in milliseconds, and one hour after the
    failure when it has none. *)
Definition reportedReset (failedAt : Z) (hdrs : gmap string string) : number :=
  match List.filter truthy
          (option_list (hdrs !! "x-ratelimit-reset")
             ++ option_list (hdrs !! "ratelimit-reset"))%list with
  | seconds :: _ => mul (parseInt seconds) (Num 1000)
  | [] => Num (failedAt + 3600000)
  end.

(** A pause of [d] ms: a timer of [d] ms is set and the clock moves on by
    [d]. *)
Definition pause (d : Z) (w : World) : World := advance d (emit (EvSleep d) w).

(** Nothing but the clock and the record of timers differs between [w]
    and [w'], and the clock has not gone back. *)
Definition undisturbed (w w' : World) : Prop :=
  tokenCache w' = tokenCache w /\ limiter w' = limiter w
  /\ requests w' = requests w /\ now w <= now w'.

(** [Wait attempt e w w']: the wait before the attempt that follows the
    failed attempt number [attempt], whose normalised error is [e]. After
    a [RateLimitError] it lasts until the error's reset time (no wait when
    that time has passed), provided the reset time is a number and at most
    [TIMEOUT_MAX] ms ahead; how long it lasts otherwise is left open. After
    any other error it lasts [1000 * 2^(attempt-1)] ms, at most 30000 ms. *)
Inductive Wait (attempt : nat) (w : World) : DockerHubError -> World -> Prop :=
| Wait_backoff e :
    isRateLimitError e = false ->
    Wait attempt w e (pause (Z.min 30000 (1000 * 2 ^ (Z.of_nat attempt - 1))) w)
| Wait_reset_passed m resetAt :
    resetAt <= now w ->
    Wait attempt w (RateLimitError m (Num resetAt)) w
| Wait_until_reset m resetAt :
    now w < resetAt <= now w + TIMEOUT_MAX ->
    Wait attempt w (RateLimitError m (Num resetAt)) (pause (resetAt - now w) w)
| Wait_open m resetTime w' :
    (resetTime = NaN \/ exists resetAt, resetTime = Num resetAt
                                        /\ now w + TIMEOUT_MAX < resetAt) ->
    undisturbed w w' ->
    Wait attempt w (RateLimitError m resetTime) w'.

(** [Run budget attempt w n r]: started at attempt number [attempt] in
    world [w], the policy calls [fn] exactly [n] times and ends with [r].
    A success is returned; a failure is normalised and reported, then
    surfaced when the budget is used up or its kind is not retryable, and
    otherwise followed by the wait and the next attempt. *)
Inductive Run {T : Type} (env : Env) (fn : M T) (context : option string) (budget : nat)
  : nat -> World -> nat -> Res T * World -> Prop :=
| Run_success attempt w v w' :
    fn w = (Ok v, w') ->
    Run env fn context budget attempt w 1 (Ok v, w')
| Run_surface attempt w x w' e :
    fn w = (Throw x, w') ->
    e = handleError (now w') x ->
    attempt = budget \/ ~ retryable_kind e ->
    Run env fn context budget attempt w 1
        (Throw (ThrownDockerHub e),
         (Retry.logAttempt env context budget attempt e w').2)
| Run_retry attempt w x w' e w1 n r :
    fn w = (Throw x, w') ->
    e = handleError (now w') x ->
    (attempt < budget)%nat ->
    retryable_kind e ->
    isAuthenticationError e = false ->
    Wait attempt (Retry.logAttempt env context budget attempt e w').2 e w1 ->
    Run env fn context budget (S attempt) w1 n r ->
    Run env fn context budget attempt w (S n) r.

End RetryPolicy.

(* ===================================================================== *)
(** ** Further operations of the same source files *)
(* ===================================================================== *)

(** *** [auth/auth-manager.ts]: cache invalidation and credential checks *)

Module AuthManagerOps.
Import JS Types Async ErrorHandler Retry AuthManager.
Local Open Scope async_scope.

(** [s.startsWith(p)]. *)
Definition startsWith (p s : string) : bool :=
  match stripPrefix p s with
  | Some _ => true
  | None => false
  end.

Definition clearTokenCache : M unit :=
  fun w => (Ok tt, set_tokenCache ∅ w).

(** The prefix whose keys [clearRegistryTokens] deletes. *)
Definition clearedPrefix (registryUrl : option string) : string :=
  if truthy_opt registryUrl
  then "registry:" ++ or_default registryUrl "" ++ ":"
  else "dockerhub:".

(** [clearRegistryTokens(registryUrl)]: the loop deletes every key that
    starts with the prefix. *)
Definition clearRegistryTokens (registryUrl : option string) : M unit :=
  fun w =>
    (Ok tt,
     set_tokenCache
       (filter (fun kv => startsWith (clearedPrefix registryUrl) kv.1 = false)
               (tokenCache w)) w).

Definition userProbeRequest (env : Env) (accessToken : string) : Request :=
  {| method := GET;
     url := "https://hub.docker.com/v2/user/";
     req_headers := {[ "Authorization" := "JWT " ++ accessToken ]} ∪ defaultHeaders env;
     basic_auth := None;
     form := [] |}.

Definition validateCredentials (env : Env) (credentials : AuthCredentials) : M bool :=
  if truthy_opt (cred_accessToken credentials) then
    try_catch
      (axios env status2xx
         (userProbeRequest env (or_default (cred_accessToken credentials) "")) ;;;
       ret true)
      (fun _ => ret false)
  else if truthy_opt (cred_username credentials)
          && truthy_opt (cred_password credentials) then
    try_catch (getDockerHubToken env None ;;; ret true) (fun _ => ret false)
  else ret false.

End AuthManagerOps.

(** *** [utils/error-handler.ts]: the message shown to the client *)

Module ErrorMessages.
Import JS Types ErrorHandler.

(** [error.statusCode === c]. *)
Definition statusIs (error : DockerHubError) (c : Z) : bool :=
  match statusCode error with
  | Some v => v =? c
  | None => false
  end.

(** [createUserFriendlyMessage(error)]; [toLocaleTimeString] stands for
    [new Date(t).toLocaleTimeString()] of the platform. *)
Definition createUserFriendlyMessage (toLocaleTimeString : number -> string)
    (error : DockerHubError) : string :=
  if isAuthenticationError error then
    "Authentication failed. Please check your Docker Hub credentials."
  else
    match error with
    | RateLimitError _ resetTime =>
        "Rate limit exceeded. Please try again after "
        ++ toLocaleTimeString resetTime ++ "."
    | _ =>
        if statusIs error 404 then
          "The requested Docker image or repository was not found."
        else if statusIs error 403 then
          "Access denied. You may not have permission to access this resource."
        else
          match status_truthy (statusCode error) with
          | Some v =>
              if 500 <=? v
              then "Docker Hub service is temporarily unavailable. Please try again later."
              else msg_or (message error) "An unexpected error occurred."
          | None => msg_or (message error) "An unexpected error occurred."
          end
    end.

End ErrorMessages.

(** *** [cache/cache-manager.ts]: entries with a time to live *)

Module CacheOps.
Import JS.

Record CacheEntry (T : Type) : Type := {
  data : T;
  timestamp : Z;
  ttl : Z
}.
Arguments data {T} _.
Arguments timestamp {T} _.
Arguments ttl {T} _.

(** The [node-cache] instance behind the manager, as far as the manager
    uses it: [get(key)] at a given time, [set(key, entry, ttl)] (which may
    throw, result [None]) and [del(key)]. Its behaviour is not fixed here. *)
Record NodeCache (T : Type) : Type := {
  nc_state : Type;
  nc_get : string -> Z -> nc_state -> option (CacheEntry T) * nc_state;
  nc_set : string -> CacheEntry T -> Z -> Z -> nc_state -> option nc_state;
  nc_del : string -> nc_state -> nc_state
}.
Arguments nc_state {T} _.
Arguments nc_get {T} _.
Arguments nc_set {T} _.
Arguments nc_del {T} _.

(** [get(key)]: [None] is [null]. *)
Definition get {T} (nc : NodeCache T) (now : Z) (key : string) (s : nc_state nc)
  : option T * nc_state nc :=
  match nc_get nc key now s with
  | (Some entry, s1) =>
      if ttl entry * 1000 <? now - timestamp entry
      then (None, nc_del nc key s1)
      else (Some (data entry), s1)
  | (None, s1) => (None, s1)
  end.

(** [set(key, data, ttl)]: [None] when the store throws. *)
Definition set {T} (nc : NodeCache T) (defaultTTL : Z) (now : Z) (key : string) (d : T)
    (ttl_arg : option Z) (s : nc_state nc) : option (nc_state nc) :=
  let actualTTL := num_or ttl_arg defaultTTL in
  nc_set nc key {| data := d; timestamp := now; ttl := actualTTL |} actualTTL now s.

Definition cacheApiResponse {T} (nc : NodeCache T) (defaultTTL : Z) (now : Z)
    (endpoint : string) (params : CacheManager.Params) (d : T) (ttl_arg : option Z)
    (s : nc_state nc) : option (nc_state nc) :=
  set nc defaultTTL now (CacheManager.generateKey endpoint params) d ttl_arg s.

Definition getCachedApiResponse {T} (nc : NodeCache T) (now : Z)
    (endpoint : string) (params : CacheManager.Params) (s : nc_state nc)
  : option T * nc_state nc :=
  get nc now (CacheManager.generateKey endpoint params) s.

End CacheOps.

(** *** Vocabulary and instances for the properties of these operations *)

Module Scenarios.
Import JS Types Async.

(** The results of [isAllowed(key)] called at the given times, in order,
    and the limiter afterwards. *)
Fixpoint callsAt (times : list Z) (key : string) (rl : RateLimiter.t)
  : list bool * RateLimiter.t :=
  match times with
  | [] => ([], rl)
  | t :: rest =>
      let '(allowed, rl1) := RateLimiter.isAllowed t key rl in
      let '(results, rl2) := callsAt rest key rl1 in
      (allowed :: results, rl2)
  end.

(** [new RateLimiter(2, 2592000)], a window of thirty days, after two
    calls of [isAllowed()] at time 0: the window ends at 2592000000. *)
Definition monthLimiter : RateLimiter.t :=
  (callsAt [0; 0] "default"
     (RateLimiter.new Samples.anonymousConfig (Some 2) (Some 2592000))).2.

(** Number of calls that were allowed. *)
Definition allowedCount (results : list bool) : nat :=
  length (List.filter (fun b => b) results).

(** A store that keeps every entry until it is deleted. *)
Definition keepingStore (T : Type) : CacheOps.NodeCache T :=
  {| CacheOps.nc_state := gmap string (CacheOps.CacheEntry T);
     CacheOps.nc_get := fun key _ s => (s !! key, s);
     CacheOps.nc_set := fun key entry _ _ s => Some (<[key := entry]> s);
     CacheOps.nc_del := fun key s => delete key s |}.

(** A store that hands an entry back, unchanged, as long as the lifetime
    (in seconds) it was stored with has not elapsed. *)
Definition keepsWhileLive {T} (nc : CacheOps.NodeCache T) : Prop :=
  forall key entry lifetime t0 s s1 t1,
    CacheOps.nc_set nc key entry lifetime t0 s = Some s1 ->
    t1 - t0 <= lifetime * 1000 ->
    exists s2, CacheOps.nc_get nc key t1 s1 = (Some entry, s2).

(** A [toLocaleTimeString] that prints the number of milliseconds. *)
Definition millis (t : number) : string :=
  match t with
  | Num z => pretty z
  | NaN => "Invalid Date"
  end.

(** A limiter whose default key is in an open window with count 1 of 2. *)
Definition halfUsedLimiter : RateLimiter.t :=
  {| RateLimiter.limits :=
       {[ "default" := {| RateLimiter.count := Num 1; RateLimiter.resetTime := 1000 |} ]};
     RateLimiter.maxRequests := 2;
     RateLimiter.windowMs := 1000 |}.

(** Headers with a reset time but an unreadable remaining count. *)
Definition brokenRemainingHeaders : gmap string string :=
  {[ "x-ratelimit-limit" := "10";
     "x-ratelimit-remaining" := "n/a";
     "x-ratelimit-reset" := "2000000000" ]}.

(** A configuration with an access token. *)
Definition tokenConfig : DockerHubConfig :=
  {| username := None; password := None; accessToken := Some "dckr_pat_123";
     rateLimit := 100; rateLimitWindow := 3600 |}.

(** A token cache with one default-registry token and two registry
    tokens, the second registry's URL extending the first one's. *)
Definition mixedTokenCache : gmap string AuthTokenInfo :=
  {[ "dockerhub:default" := {| token := Some "hub"; expiresAt := 5000 |};
     "registry:https://reg.example.com:default" := {| token := Some "a"; expiresAt := 5000 |};
     "registry:https://reg.example.com:5000:default"
       := {| token := Some "b"; expiresAt := 5000 |} ]}.

(** A registry that answers the first request (the probe) with a 401
    challenge and every later request with status [st]. *)
Definition challengeThen (st : Z) : nat -> Request -> NetReply :=
  fun n _ =>
    match n with
    | O => Samples.answer 401 {[ "www-authenticate" := Samples.challenge ]} PNothing
    | S _ => Samples.answer st ∅ PNothing
    end.

Definition passwordCredentials (user pass : string) : AuthCredentials :=
  {| cred_username := Some user; cred_password := Some pass; cred_accessToken := None |}.

Definition worldWithTokens (cache : gmap string AuthTokenInfo) : World :=
  {| now := 0; tokenCache := cache; limiter := Samples.defaultLimiter; events := [] |}.

End Scenarios.

(* ===================================================================== *)
(** ** Properties *)
(* ===================================================================== *)

Section RateLimiterWindow.
Import JS RateLimiter.

Lemma isAllowed_fresh now key rl :
  limits rl !! key = None ->
  isAllowed now key rl
  = (true, set_entry key {| count := Num 1; resetTime := now + windowMs rl |} rl).
Proof. intros H. unfold isAllowed. by rewrite H. Qed.

Lemma isAllowed_elapsed now key rl e :
  limits rl !! key = Some e -> resetTime e <= now ->
  isAllowed now key rl
  = (true, set_entry key {| count := Num 1; resetTime := now + windowMs rl |} rl).
Proof.
  intros H Hle. unfold isAllowed. rewrite H.
  destruct (Z.leb_spec (resetTime e) now); [done | lia].
Qed.

Lemma isAllowed_denied now key rl e c :
  limits rl !! key = Some e -> now < resetTime e ->
  count e = Num c -> maxRequests rl <= c ->
  isAllowed now key rl = (false, rl).
Proof.
  intros H Hlt Hc Hmax. unfold isAllowed. rewrite H.
  destruct (Z.leb_spec (resetTime e) now); [lia |].
  rewrite Hc. simpl. destruct (Z.leb_spec (maxRequests rl) c); [done | lia].
Qed.

Lemma isAllowed_counted now key rl e c :
  limits rl !! key = Some e -> now < resetTime e ->
  count e = Num c -> c < maxRequests rl ->
  isAllowed now key rl
  = (true, set_entry key {| count := Num (c + 1); resetTime := resetTime e |} rl).
Proof.
  intros H Hlt Hc Hmax. unfold isAllowed. rewrite H.
  destruct (Z.leb_spec (resetTime e) now); [lia |].
  rewrite Hc. simpl. destruct (Z.leb_spec (maxRequests rl) c); [lia | done].
Qed.

Lemma set_entry_lookup key e rl : limits (set_entry key e rl) !! key = Some e.
Proof. simpl. apply lookup_insert_eq. Qed.

End RateLimiterWindow.

Section RateLimiterScenario.
Import JS RateLimiter.

(** C2. With [maxRequests = 2] and no header updates, for every key whose
    window starts at the first call (no entry yet, or an elapsed one): the
    first and second calls inside the window are allowed, the third call
    inside the same window is denied and leaves the limiter unchanged
    (count still 2), and the first call once the window has elapsed is
    allowed and resets the entry to count 1 with reset time
    [now + windowMs]. *)
Theorem isAllowed_fixed_window :
  forall (key : string) (rl : RateLimiter.t) (t1 t2 t3 t4 : Z),
    maxRequests rl = 2 ->
    (limits rl !! key = None
     \/ exists e, limits rl !! key = Some e /\ resetTime e <= t1) ->
    t1 <= t2 -> t2 <= t3 -> t3 < t1 + windowMs rl -> t1 + windowMs rl <= t4 ->
    let r1 := isAllowed t1 key rl in
    let r2 := isAllowed t2 key r1.2 in
    let r3 := isAllowed t3 key r2.2 in
    let r4 := isAllowed t4 key r3.2 in
    r1.1 = true
    /\ limits r1.2 !! key = Some {| count := Num 1; resetTime := t1 + windowMs rl |}
    /\ r2.1 = true
    /\ limits r2.2 !! key = Some {| count := Num 2; resetTime := t1 + windowMs rl |}
    /\ r3.1 = false
    /\ r3.2 = r2.2
    /\ r4.1 = true
    /\ limits r4.2 !! key = Some {| count := Num 1; resetTime := t4 + windowMs rl |}.
Proof.
  intros key rl t1 t2 t3 t4 Hmax Hstart H12 H23 H3 H4.
  set (w := windowMs rl).
  set (e1 := {| count := Num 1; resetTime := t1 + w |}).
  set (e2 := {| count := Num 2; resetTime := t1 + w |}).
  assert (E1 : isAllowed t1 key rl = (true, set_entry key e1 rl)).
  { destruct Hstart as [Hnone | (e & He & Hle)].
    - by apply isAllowed_fresh.
    - by eapply isAllowed_elapsed. }
  assert (E2 : isAllowed t2 key (set_entry key e1 rl)
               = (true, set_entry key e2 (set_entry key e1 rl))).
  { eapply (isAllowed_counted t2 key _ e1 1).
    - apply set_entry_lookup.
    - simpl. lia.
    - reflexivity.
    - simpl. lia. }
  assert (E3 : isAllowed t3 key (set_entry key e2 (set_entry key e1 rl))
               = (false, set_entry key e2 (set_entry key e1 rl))).
  { eapply (isAllowed_denied t3 key _ e2 2).
    - apply set_entry_lookup.
    - simpl. lia.
    - reflexivity.
    - simpl. lia. }
  assert (E4 : isAllowed t4 key (set_entry key e2 (set_entry key e1 rl))
               = (true, set_entry key {| count := Num 1; resetTime := t4 + w |}
                          (set_entry key e2 (set_entry key e1 rl)))).
  { rewrite (isAllowed_elapsed t4 key _ e2).
    - reflexivity.
    - apply set_entry_lookup.
    - simpl. lia. }
  cbv zeta. rewrite E1. cbn [fst snd]. rewrite E2. cbn [fst snd].
  rewrite E3. cbn [fst snd]. rewrite E4. cbn [fst snd].
  repeat split; try reflexivity; apply set_entry_lookup.
Qed.

Lemma isAllowed_fixed_window_witness :
  let rl := Samples.limiter_2_1000 in
  let r1 := isAllowed 0 "k" rl in
  let r2 := isAllowed 10 "k" r1.2 in
  let r3 := isAllowed 20 "k" r2.2 in
  let r4 := isAllowed 1000 "k" r3.2 in
  r1.1 = true
  /\ limits r1.2 !! "k" = Some {| count := Num 1; resetTime := 0 + windowMs rl |}
  /\ r2.1 = true
  /\ limits r2.2 !! "k" = Some {| count := Num 2; resetTime := 0 + windowMs rl |}
  /\ r3.1 = false
  /\ r3.2 = r2.2
  /\ r4.1 = true
  /\ limits r4.2 !! "k" = Some {| count := Num 1; resetTime := 1000 + windowMs rl |}.
Proof.
  apply (isAllowed_fixed_window "k" Samples.limiter_2_1000 0 10 20 1000).
  - reflexivity.
  - left. reflexivity.
  - lia.
  - lia.
  - simpl. lia.
  - simpl. lia.
Defined.

End RateLimiterScenario.

Section RateLimiterHeaders.
Import JS RateLimiter.



Lemma updateFromHeaders_entry headers key rl r :
  parseInt (headerOr0 headers "x-ratelimit-reset" "ratelimit-reset") = Num r ->
  0 < r ->
  limits (updateFromHeaders headers key rl) !! key
  = Some {| count :=
              max0 (sub (parseInt (headerOr0 headers "x-ratelimit-limit" "ratelimit-limit"))
                        (parseInt (headerOr0 headers "x-ratelimit-remaining"
                                             "ratelimit-remaining")));
            resetTime := r * 1000 |}.
Proof.
  intros Hr Hpos. unfold updateFromHeaders. rewrite Hr.
  destruct (Z.ltb_spec 0 r); [| lia].
  apply set_entry_lookup.
Qed.



End RateLimiterHeaders.

Section RateLimiterExecute.
Import JS Types Async.

(** A denied check means: an entry exists, its window is still open and
    its count has reached the maximum; the limiter is returned as it was. *)
Lemma isAllowed_false_inv now key rl :
  (RateLimiter.isAllowed now key rl).1 = false ->
  (RateLimiter.isAllowed now key rl).2 = rl
  /\ exists e c,
       RateLimiter.limits rl !! key = Some e
       /\ now < RateLimiter.resetTime e
       /\ RateLimiter.count e = Num c
       /\ RateLimiter.maxRequests rl <= c.
Proof.
  unfold RateLimiter.isAllowed.
  destruct (RateLimiter.limits rl !! key) as [e |] eqn:He; [| discriminate].
  destruct (Z.leb_spec (RateLimiter.resetTime e) now); [discriminate |].
  destruct (RateLimiter.count e) as [| c] eqn:Hc; simpl; [discriminate |].
  destruct (Z.leb_spec (RateLimiter.maxRequests rl) c); [| discriminate].
  intros _. split; [reflexivity |]. exists e, c. by rewrite Hc.
Qed.

Lemma set_limiter_same w : set_limiter (limiter w) w = w.
Proof. by destruct w. Qed.

Lemma timerDelay_in_range ms : 1 <= ms <= TIMEOUT_MAX -> timerDelay ms = ms.
Proof.
  intros [H1 H2]. unfold timerDelay.
  destruct (Z.leb_spec 1 ms); [| lia]. destruct (Z.leb_spec ms TIMEOUT_MAX); [| lia].
  reflexivity.
Qed.

Lemma timerDelay_ge_1 ms : 1 <= timerDelay ms.
Proof.
  unfold timerDelay.
  destruct (Z.leb_spec 1 ms), (Z.leb_spec ms TIMEOUT_MAX); simpl; lia.
Qed.

Lemma timerDelay_too_long ms : TIMEOUT_MAX < ms -> timerDelay ms = 1.
Proof.
  intros H. unfold timerDelay.
  destruct (Z.leb_spec ms TIMEOUT_MAX); [lia |]. by rewrite andb_false_r.
Qed.

(** For a key that is denied, [waitForReset] is one timer set to the time
    left until the reset. *)
Lemma waitForReset_denied key w e c :
  RateLimiter.limits (limiter w) !! key = Some e ->
  now w < RateLimiter.resetTime e ->
  RateLimiter.count e = Num c ->
  RateLimiter.maxRequests (limiter w) <= c ->
  RateLimiterOps.waitForReset key w = sleep (RateLimiter.resetTime e - now w) w.
Proof.
  intros He Hlt Hc Hmax.
  unfold RateLimiterOps.waitForReset, bind at 1, RateLimiterOps.getInfo.
  unfold RateLimiter.getInfo. rewrite He.
  destruct (Z.leb_spec (RateLimiter.resetTime e) (now w)); [lia |].
  cbn [RateLimiter.remaining RateLimiter.reset]. rewrite Hc.
  assert (Hz : Z.max 0 (RateLimiter.maxRequests (limiter w) - c) = 0) by lia.
  cbn [sub max0]. rewrite Hz. cbn [gtb]. rewrite Z.ltb_irrefl.
  unfold bind at 1, clock.
  destruct (Z.ltb_spec 0 (RateLimiter.resetTime e - now w)); [| lia].
  reflexivity.
Qed.

(** When [execute(fn, key, false)] finds the key rate-limited, it sets one
    timer to the time left until the window's reset and then runs [fn]
    once, from a world in which the limiter (hence the key's entry and its
    count) is exactly what it was at the denied check. When the time left
    is at most [TIMEOUT_MAX], [fn] starts at the reset time; when it is
    longer, the timer fires after 1 ms and [fn] starts before the reset. *)
Lemma execute_waits_without_counting :
  forall (T : Type) (env : Env) (fn : M T) (key : string) (w : World),
    (RateLimiter.isAllowed (now w) key (limiter w)).1 = false ->
    exists (e : RateLimiter.RateLimitEntry) (w' : World),
      RateLimiter.limits (limiter w) !! key = Some e
      /\ RateLimiterOps.execute env fn key false w = fn w'
      /\ limiter w' = limiter w
      /\ RateLimiter.limits (limiter w') !! key = Some e
      /\ tokenCache w' = tokenCache w
      /\ events w' = (events w ++ [EvSleep (RateLimiter.resetTime e - now w)])%list
      /\ (RateLimiter.resetTime e - now w <= TIMEOUT_MAX ->
          now w' = RateLimiter.resetTime e)
      /\ (TIMEOUT_MAX < RateLimiter.resetTime e - now w ->
          now w' = now w + 1 /\ now w' < RateLimiter.resetTime e).
Proof.
  intros T env fn key w Hdenied.
  destruct (isAllowed_false_inv _ _ _ Hdenied) as (Hsame & e & c & He & Hlt & Hc & Hmax).
  set (d := RateLimiter.resetTime e - now w).
  exists e, (advance (timerDelay d) (emit (EvSleep d) w)).
  split; [exact He |]. split.
  - unfold RateLimiterOps.execute, bind at 1, RateLimiterOps.isAllowed.
    destruct (RateLimiter.isAllowed (now w) key (limiter w)) as [allowed rl] eqn:E.
    simpl in Hdenied, Hsame. subst allowed rl. rewrite set_limiter_same.
    cbn [negb]. unfold bind at 1.
    by rewrite (waitForReset_denied key w e c He Hlt Hc Hmax).
  - simpl. repeat split; try reflexivity; try assumption.
    + intros Hin. rewrite timerDelay_in_range by (unfold d; lia). unfold d. lia.
    + rewrite timerDelay_too_long by assumption. reflexivity.
    + rewrite timerDelay_too_long by assumption. unfold d in *.
      unfold TIMEOUT_MAX in *. lia.
Qed.

(** A wait within the timer's range, evaluated: the operation runs at the
    reset time 1000 and the entry still counts 2. *)
Example execute_exhausted_run :
  let env := Samples.envOf Samples.anonymousConfig (Samples.always 200) in
  let r := RateLimiterOps.execute env clock "default" false
             (Samples.worldWith 400 Samples.exhaustedLimiter) in
  r.1 = Ok 1000
  /\ limiter r.2 = Samples.exhaustedLimiter
  /\ events r.2 = [EvSleep 600].
Proof. vm_compute. repeat split. Qed.

(** C10 at a failing input. The limiter has a window of thirty days,
    [new RateLimiter(2, 2592000)], and both requests of the window that
    started at time 0 are used, so the window resets at 2592000000. At time
    400 [execute(fn)] finds the key rate-limited and sets a timer of
    2591999600 ms, more than the platform's timers take: the timer fires
    after 1 ms, [fn] runs at time 401, long before the reset, while the key
    is still rate-limited. The entry is left as it was. *)
Theorem execute_runs_before_reset :
  let env := Samples.envOf Samples.anonymousConfig (Samples.always 200) in
  let w := Samples.worldWith 400 Scenarios.monthLimiter in
  let r := RateLimiterOps.execute env clock "default" false w in
  (RateLimiter.isAllowed (now w) "default" (limiter w)).1 = false
  /\ RateLimiter.limits (limiter w) !! "default"
     = Some {| RateLimiter.count := Num 2; RateLimiter.resetTime := 2592000000 |}
  /\ r.1 = Ok 401
  /\ events r.2 = [EvSleep 2591999600]
  /\ limiter r.2 = limiter w
  /\ (RateLimiter.isAllowed (now r.2) "default" (limiter r.2)).1 = false.
Proof. vm_compute. repeat split. Qed.

End RateLimiterExecute.

Section RepositoryParsing.
Import JS Types Async Notions DockerHubClient.

Lemma split_length sep s : length (split sep s) = S (occurrences sep s).
Proof.
  induction s as [| a s IH]; simpl; [reflexivity |].
  destruct (Ascii.eqb a sep); simpl; [by rewrite IH |].
  destruct (split sep s) as [| part parts]; simpl in *; [discriminate | exact IH].
Qed.

Lemma split_without sep s : occurrences sep s = O -> split sep s = [s].
Proof.
  induction s as [| a s IH]; simpl; [reflexivity |].
  destruct (Ascii.eqb a sep); [discriminate |].
  intros H. by rewrite (IH H).
Qed.

Lemma split_first sep a b :
  occurrences sep a = O ->
  split sep (a ++ String sep b) = a :: split sep b.
Proof.
  induction a as [| c a IH]; simpl.
  - intros _. by rewrite Ascii.eqb_refl.
  - destruct (Ascii.eqb c sep); [discriminate |].
    intros H. by rewrite (IH H).
Qed.

(** A string with a separator splits at its first occurrence. *)
Lemma first_occurrence sep s :
  (0 < occurrences sep s)%nat ->
  exists a b, s = a ++ String sep b
              /\ occurrences sep a = O
              /\ occurrences sep s = S (occurrences sep b).
Proof.
  induction s as [| c s IH]; simpl; [lia |].
  destruct (Ascii.eqb_spec c sep) as [-> | Hne].
  - intros _. exists EmptyString, s. repeat split.
  - intros H. destruct (IH H) as (a & b & -> & Ha & Hb).
    exists (String c a), b. simpl.
    destruct (Ascii.eqb_spec c sep); [contradiction |]. by repeat split.
Qed.

Lemma parseRepository_official s :
  slashes s = O -> parseRepository s = Ok ("library", s).
Proof. intros H. unfold parseRepository. by rewrite (split_without _ _ H). Qed.

Lemma parseRepository_namespaced a b :
  slashes a = O -> slashes b = O ->
  parseRepository (a ++ "/" ++ b) = Ok (a, b).
Proof.
  intros Ha Hb. unfold parseRepository.
  change (a ++ "/" ++ b) with (a ++ String "/" b).
  by rewrite (split_first _ _ _ Ha), (split_without _ _ Hb).
Qed.

Lemma parseRepository_rejects s :
  (2 <= slashes s)%nat ->
  parseRepository s = Throw (ThrownError ("Invalid repository format: " ++ s)).
Proof.
  intros H. unfold parseRepository.
  pose proof (split_length "/" s) as Hlen. fold (slashes s) in Hlen.
  destruct (split "/" s) as [| p0 [| p1 [| p2 rest]]]; simpl in Hlen; try lia.
  reflexivity.
Qed.

End RepositoryParsing.

Section RetryWrapper.
Import JS Types Async ErrorHandler Retry RetryPolicy.

Lemma isRetryable_sound e :
  isRetryable e = true -> retryable_kind e /\ isAuthenticationError e = false.
Proof.
  destruct e as [m c resp | m r | m]; simpl.
  - unfold isRetryable. simpl. destruct c as [c |]; simpl; [| discriminate].
    destruct (Z.eqb_spec c 0); [discriminate |].
    intros H. apply orb_true_iff in H. split; [| reflexivity].
    destruct H as [H | H].
    + right. exists c. split; [reflexivity |]. by apply Z.leb_le in H.
    + left. apply Z.eqb_eq in H. by subst c.
  - intros _. split; [by left | reflexivity].
  - discriminate.
Qed.

Lemma isRetryable_complete e :
  isRetryable e = false -> ~ retryable_kind e.
Proof.
  destruct e as [m c resp | m r | m]; simpl.
  - unfold isRetryable. simpl. intros H [Hr | (c' & Hc & Hrange)]; simpl in *.
    + unfold rate_limited in Hr. simpl in Hr. subst c. simpl in H. discriminate.
    + subst c. simpl in H. destruct (Z.eqb_spec c' 0); [lia |].
      apply orb_false_iff in H. destruct H as [H _]. apply Z.leb_gt in H. lia.
  - discriminate.
  - intros _ [Hr | (c' & Hc & Hrange)].
    + discriminate Hr.
    + simpl in Hc. injection Hc as <-. lia.
Qed.

Lemma logError_ok env e ctx w :
  logError env e ctx w = (Ok tt, (logError env e ctx w).2).
Proof.
  unfold logError. destruct (getLogLevel e); try reflexivity.
  destruct (logLevel env); reflexivity.
Qed.

Lemma logError_frame env e ctx w :
  let w' := (logError env e ctx w).2 in
  now w' = now w /\ tokenCache w' = tokenCache w /\ limiter w' = limiter w
  /\ requests w' = requests w.
Proof.
  assert (Hemit : forall lv txt info,
             requests (emit (EvConsole lv txt info) w) = requests w).
  { intros. unfold requests, emit. simpl. rewrite List.filter_app. simpl.
    apply app_nil_r. }
  unfold logError. destruct (getLogLevel e); simpl; try by rewrite ?Hemit.
  destruct (logLevel env); simpl; by rewrite ?Hemit.
Qed.

Lemma logAttempt_ok env ctx m a e w :
  logAttempt env ctx m a e w = (Ok tt, (logAttempt env ctx m a e w).2).
Proof.
  unfold logAttempt. destruct (truthy_opt ctx); [apply logError_ok | reflexivity].
Qed.

Lemma logAttempt_frame env ctx m a e w :
  let w' := (logAttempt env ctx m a e w).2 in
  now w' = now w /\ tokenCache w' = tokenCache w /\ limiter w' = limiter w
  /\ requests w' = requests w.
Proof.
  unfold logAttempt. destruct (truthy_opt ctx); [apply logError_frame | by simpl].
Qed.

Lemma pow2_pos n : 0 <= n -> 0 < 2 ^ n.
Proof. intros H. apply Z.pow_pos_nonneg; lia. Qed.

Lemma waitBeforeRetry_ok e attempt w :
  waitBeforeRetry e attempt w = (Ok tt, (waitBeforeRetry e attempt w).2).
Proof.
  unfold waitBeforeRetry, bind, clock.
  destruct (getRetryDelay (now w) e (Z.of_nat attempt)) as [| delay]; [reflexivity |].
  by destruct (0 <? delay).
Qed.

(** After an error that is not a [RateLimitError] the wrapper sleeps
    [min(30000, 1000 * 2^(attempt-1))] ms. *)
Lemma waitBeforeRetry_backoff e attempt w :
  (1 <= attempt)%nat ->
  isRateLimitError e = false ->
  waitBeforeRetry e attempt w
  = (Ok tt, pause (Z.min 30000 (1000 * 2 ^ (Z.of_nat attempt - 1))) w).
Proof.
  intros Ha Hne. unfold waitBeforeRetry, bind, clock.
  assert (Hd : getRetryDelay (now w) e (Z.of_nat attempt)
               = Num (Z.min 30000 (1000 * 2 ^ (Z.of_nat attempt - 1)))).
  { by destruct e. }
  rewrite Hd.
  pose proof (pow2_pos (Z.of_nat attempt - 1) ltac:(lia)) as Hpos.
  destruct (Z.ltb_spec 0 (Z.min 30000 (1000 * 2 ^ (Z.of_nat attempt - 1)))); [| lia].
  unfold sleep, pause. rewrite timerDelay_in_range; [reflexivity |].
  unfold TIMEOUT_MAX. lia.
Qed.

(** After a [RateLimitError] with a numeric reset time the wrapper sets a
    timer to the time left, when some is left. *)
Lemma waitBeforeRetry_reset m r attempt w :
  waitBeforeRetry (RateLimitError m (Num r)) attempt w
  = if now w <? r then sleep (r - now w) w else (Ok tt, w).
Proof.
  unfold waitBeforeRetry, bind, clock. simpl.
  destruct (Z.ltb_spec (now w) r), (Z.ltb_spec 0 (Z.max 0 (r - now w))); try lia.
  - by replace (Z.max 0 (r - now w)) with (r - now w) by lia.
  - reflexivity.
Qed.

(** The two cases the policy leaves open. A reset time that is not a
    number gives no wait at all; one that is more than [TIMEOUT_MAX] ms
    ahead gives a timer that fires after 1 ms. *)
Lemma waitBeforeRetry_unreadable_reset m attempt w :
  waitBeforeRetry (RateLimitError m NaN) attempt w = (Ok tt, w).
Proof. reflexivity. Qed.

Lemma waitBeforeRetry_far_reset m r attempt w :
  now w + TIMEOUT_MAX < r ->
  waitBeforeRetry (RateLimitError m (Num r)) attempt w
  = (Ok tt, advance 1 (emit (EvSleep (r - now w)) w)).
Proof.
  intros Hfar. rewrite waitBeforeRetry_reset.
  destruct (Z.ltb_spec (now w) r); [| unfold TIMEOUT_MAX in *; lia].
  unfold sleep. rewrite timerDelay_too_long by lia. reflexivity.
Qed.

(** The code's wait is a wait of the policy. *)
Lemma waitBeforeRetry_wait e attempt w :
  (1 <= attempt)%nat ->
  Wait attempt w e (waitBeforeRetry e attempt w).2.
Proof.
  intros Ha. destruct e as [m c resp | m [| r] | m].
  - rewrite waitBeforeRetry_backoff by done. by constructor.
  - rewrite waitBeforeRetry_unreadable_reset.
    apply Wait_open; [by left |]. unfold undisturbed. simpl. repeat split. lia.
  - destruct (Z.le_gt_cases r (now w)) as [Hpast | Hahead].
    + rewrite waitBeforeRetry_reset.
      destruct (Z.ltb_spec (now w) r); [lia |]. by constructor.
    + destruct (Z.le_gt_cases r (now w + TIMEOUT_MAX)) as [Hnear | Hfar].
      * rewrite waitBeforeRetry_reset.
        destruct (Z.ltb_spec (now w) r); [| lia].
        unfold sleep. rewrite timerDelay_in_range by lia.
        apply Wait_until_reset. lia.
      * rewrite waitBeforeRetry_far_reset by lia.
        apply Wait_open; [right; exists r; split; [reflexivity | lia] |].
        unfold undisturbed, requests. simpl. rewrite List.filter_app. simpl.
        rewrite app_nil_r. repeat split. lia.
  - rewrite waitBeforeRetry_backoff by done. by constructor.
Qed.

(** A rate-limit wait within the timers' range ends at the reset time. *)
Lemma pause_reaches_reset r w : now (pause (r - now w) w) = r.
Proof. simpl. lia. Qed.

(** A 429 answer is normalised to a [RateLimitError] with the reset time
    it stands for. *)
Lemma handleAxiosError_429 t a r :
  ax_response a = Some r -> status r = 429 ->
  exists m, handleAxiosError t a = RateLimitError m (reportedReset t (headers r)).
Proof.
  intros Hr Hst. unfold handleAxiosError. rewrite Hr, Hst. cbn [Z.eqb Pos.eqb].
  eexists. f_equal. unfold reportedReset, or_else.
  destruct (headers r !! "x-ratelimit-reset") as [h1 |]; simpl.
  - destruct (truthy h1) eqn:H1; simpl; [by rewrite H1 |].
    destruct (headers r !! "ratelimit-reset") as [h2 |]; simpl; [| reflexivity].
    by destruct (truthy h2).
  - destruct (headers r !! "ratelimit-reset") as [h2 |]; simpl; [| reflexivity].
    by destruct (truthy h2).
Qed.

Context {T : Type} (env : Env) (fn : M T) (context : option string).

(** One iteration of the loop. *)
Lemma attempts_step maxRetries lastError remaining attempt w :
  attempts env fn context maxRetries lastError (S remaining) attempt w
  = match fn w with
    | (Ok v, w') => (Ok v, w')
    | (Throw x, w') =>
        let e := handleError (now w') x in
        let w1 := (logAttempt env context maxRetries attempt e w').2 in
        if (attempt =? maxRetries)%nat || negb (isRetryable e)
        then (Throw (ThrownDockerHub e), w1)
        else attempts env fn context maxRetries (Some e) remaining (S attempt)
                      (waitBeforeRetry e attempt w1).2
    end.
Proof.
  cbn [attempts]. unfold try_catch.
  destruct (fn w) as [[v | x] w']; [reflexivity |].
  unfold bind at 1, clock. unfold bind at 1.
  rewrite logAttempt_ok.
  destruct ((attempt =? maxRetries)%nat || negb (isRetryable (handleError (now w') x)));
    [reflexivity |].
  unfold bind at 1. by rewrite waitBeforeRetry_ok.
Qed.

Lemma attempts_run maxRetries :
  forall remaining attempt lastError w,
    (1 <= attempt)%nat -> (1 <= remaining)%nat ->
    (attempt + remaining = S maxRetries)%nat ->
    exists n, (n <= remaining)%nat
              /\ Run env fn context maxRetries attempt w n
                     (attempts env fn context maxRetries lastError remaining attempt w).
Proof.
  induction remaining as [| k IH]; intros attempt lastError w Ha Hk Hsum; [lia |].
  rewrite attempts_step.
  destruct (fn w) as [[v | x] w'] eqn:Hfn.
  - exists 1%nat. split; [lia |]. by constructor.
  - cbv zeta.
    destruct ((attempt =? maxRetries)%nat || negb (isRetryable (handleError (now w') x)))
      eqn:Hstop.
    + exists 1%nat. split; [lia |].
      eapply Run_surface; [exact Hfn | reflexivity |].
      apply orb_true_iff in Hstop. destruct Hstop as [Heq | Hno].
      * left. by apply Nat.eqb_eq.
      * right. apply isRetryable_complete. by apply negb_true_iff.
    + apply orb_false_iff in Hstop. destruct Hstop as [Hne Hyes].
      apply Nat.eqb_neq in Hne. apply negb_false_iff in Hyes.
      destruct (isRetryable_sound _ Hyes) as [Hkind Hauth].
      destruct (IH (S attempt) (Some (handleError (now w') x))
                  (waitBeforeRetry (handleError (now w') x) attempt
                     (logAttempt env context maxRetries attempt
                        (handleError (now w') x) w').2).2)
        as (n & Hn & Hrun); [lia | lia | lia |].
      exists (S n). split; [lia |].
      eapply Run_retry; [exact Hfn | reflexivity | lia | exact Hkind | exact Hauth | |].
      * by apply waitBeforeRetry_wait.
      * exact Hrun.
Qed.

End RetryWrapper.

Section RetryPolicyTheorem.
Import JS Types Async ErrorHandler Retry RetryPolicy.

(** C4, as the code has it. The retry wrapper with its default budget
    calls the operation at most 3 times. It goes on to another attempt
    only after an error that is rate limiting (429) or carries a status of
    500 or more, and never after an [AuthenticationError]; every other
    normalised error is thrown at once, and the error of the last attempt
    is thrown when the budget is used up. Before the next attempt it waits
    until the reset time of a [RateLimitError], as far as that time is a
    number and at most [TIMEOUT_MAX] ms ahead, and
    [min 30000 (1000 * 2^(attempt-1))] ms after any other error. The reset
    time of an upstream 429 answer is the one its reset header reports, and
    one hour after the failure when it reports none. *)
Theorem withErrorHandling_policy :
  forall (T : Type) (env : Env) (fn : M T) (context : option string) (w : World),
    (exists n,
        (n <= 3)%nat
        /\ Run env fn context 3 1 w n
               (withErrorHandling env fn context defaultMaxRetries w))
    /\ (forall t a r,
          ax_response a = Some r -> status r = 429 ->
          exists m,
            handleError t (ThrownAxios a) = RateLimitError m (reportedReset t (headers r))).
Proof.
  intros T env fn context w. split.
  - unfold withErrorHandling, defaultMaxRetries.
    apply (attempts_run env fn context 3 3 1 None w); lia.
  - intros t a r. apply handleAxiosError_429.
Qed.

Lemma withErrorHandling_policy_witness :
  let env := Samples.envOf Samples.anonymousConfig (Samples.always 503) in
  let w := Samples.worldWith 0 Samples.defaultLimiter in
  (exists n,
      (n <= 3)%nat
      /\ Run env Samples.failing503 (Some "DockerHub.searchImages") 3 1 w n
             (withErrorHandling env Samples.failing503 (Some "DockerHub.searchImages")
                defaultMaxRetries w))
  /\ (exists m,
        handleError 5000
          (ThrownAxios {| ax_response := Some {| status := 429; headers := ∅;
                                                 data := PNothing |};
                          ax_request := true;
                          ax_message := "Request failed with status code 429" |})
        = RateLimitError m (Num 3605000)).
Proof.
  intros env w. split.
  - apply (proj1 (withErrorHandling_policy unit env Samples.failing503
                    (Some "DockerHub.searchImages") w)).
  - exact (proj2 (withErrorHandling_policy unit env Samples.failing503
                    (Some "DockerHub.searchImages") w)
             5000
             {| ax_response := Some {| status := 429; headers := ∅; data := PNothing |};
                ax_request := true;
                ax_message := "Request failed with status code 429" |}
             {| status := 429; headers := ∅; data := PNothing |}
             eq_refl eq_refl).
Defined.

(** The claim as worded fails: an upstream answer with status 600 is
    neither a rate-limit error nor a 5xx server error, and the wrapper
    retries it all the same: the request is sent three times, with waits
    of 1000 and 2000 ms in between. *)
Lemma withErrorHandling_retries_status_600 :
  let env := Samples.envOf Samples.anonymousConfig (Samples.always 600) in
  let fn := DockerHubClient.get env "https://hub.docker.com/v2/repositories/library/nginx/" ∅ in
  let r := withErrorHandling env fn None defaultMaxRetries
             (Samples.worldWith 0 Samples.defaultLimiter) in
  exists e,
    r.1 = Throw (ThrownDockerHub e)
    /\ statusCode e = Some 600
    /\ ~ rate_limited e
    /\ ~ upstream_5xx e
    /\ isAuthenticationError e = false
    /\ length (requests r.2) = 3%nat
    /\ List.filter (fun ev => negb (isRequest ev)) (events r.2)
       = [EvSleep 1000; EvSleep 2000].
Proof.
  eexists. split; [vm_compute; reflexivity |].
  split; [reflexivity |].
  split; [intros H; discriminate H |].
  split; [intros (c & Hc & Hrange); injection Hc as <-; lia |].
  split; [reflexivity |].
  split; vm_compute; reflexivity.
Qed.

(** A 429 answer whose reset header cannot be read is retried at once,
    without any wait: the three requests follow each other. *)
Example withErrorHandling_unreadable_reset_run :
  let env := Samples.envOf Samples.anonymousConfig
               (fun _ _ => Samples.answer 429 {[ "x-ratelimit-reset" := "soon" ]} PNothing) in
  let fn := DockerHubClient.get env "https://hub.docker.com/v2/repositories/library/nginx/" ∅ in
  let r := withErrorHandling env fn None defaultMaxRetries
             (Samples.worldWith 0 Samples.defaultLimiter) in
  length (requests r.2) = 3%nat
  /\ List.filter (fun ev => negb (isRequest ev)) (events r.2) = []
  /\ now r.2 = 0.
Proof. vm_compute. repeat split. Qed.

(** The same run, spelled out: three attempts, waits of 1000 and 2000 ms,
    and the last normalised error thrown. *)
Example withErrorHandling_503_run :
  let env := Samples.envOf Samples.anonymousConfig (Samples.always 503) in
  let e := BaseError "Docker Hub service temporarily unavailable" (Some 503)
                     (Some PNothing) in
  let r := withErrorHandling env Samples.failing503 (Some "op") defaultMaxRetries
             (Samples.worldWith 0 Samples.defaultLimiter) in
  r.1 = Throw (ThrownDockerHub e)
  /\ events r.2
     = [EvConsole LError "[op (attempt 1/3)] Error:" (Some (ThrownDockerHub e));
        EvSleep 1000;
        EvConsole LError "[op (attempt 2/3)] Error:" (Some (ThrownDockerHub e));
        EvSleep 2000;
        EvConsole LError "[op (attempt 3/3)] Error:" (Some (ThrownDockerHub e))]
  /\ now r.2 = 3000.
Proof. vm_compute. repeat split. Qed.

End RetryPolicyTheorem.

Section RepositoryRule.
Import JS Types Async ErrorHandler Retry Notions DockerHubClient.

(** A malformed reference stops [getVulnerabilities] at its first
    attempt, with the normalised error and without any request. *)
Lemma getVulnerabilities_rejects env repository tag w :
  (2 <= slashes repository)%nat ->
  exists w',
    getVulnerabilities env repository tag w
    = (Throw (ThrownDockerHub
                (BaseError ("Invalid repository format: " ++ repository) None None)), w')
    /\ requests w' = requests w.
Proof.
  intros H. unfold getVulnerabilities, withErrorHandling, defaultMaxRetries.
  rewrite attempts_step by lia.
  unfold getVulnerabilities_body. rewrite (parseRepository_rejects _ H).
  unfold throw. cbv zeta. cbn [handleError isRetryable isRateLimitError
    isAuthenticationError statusCode status_truthy negb orb Nat.eqb].
  eexists. split; [reflexivity |].
  apply (logAttempt_frame env _ _ _ _ w).
Qed.

(** C5. Repository references are parsed by one total, deterministic
    rule on the segments between slashes: no slash gives
    [("library", s)]; exactly one slash gives the two segments; two or
    more slashes are rejected with the error
    [Invalid repository format], which an operation surfaces without
    having sent any request. *)
Theorem parseRepository_rule :
  forall repository : string,
    (slashes repository = 0%nat ->
     parseRepository repository = Ok ("library", repository))
    /\ (slashes repository = 1%nat ->
        exists a b,
          repository = a ++ "/" ++ b /\ slashes a = 0%nat /\ slashes b = 0%nat
          /\ parseRepository repository = Ok (a, b))
    /\ (forall a b,
          slashes a = 0%nat -> slashes b = 0%nat -> repository = a ++ "/" ++ b ->
          parseRepository repository = Ok (a, b))
    /\ ((2 <= slashes repository)%nat ->
        parseRepository repository
        = Throw (ThrownError ("Invalid repository format: " ++ repository))
        /\ forall env tag w,
             exists w',
               getVulnerabilities env repository tag w
               = (Throw (ThrownDockerHub
                           (BaseError ("Invalid repository format: " ++ repository)
                                      None None)), w')
               /\ requests w' = requests w).
Proof.
  intros repository. split; [| split; [| split]].
  - apply parseRepository_official.
  - intros H1.
    destruct (first_occurrence "/" repository) as (a & b & Heq & Ha & Hb).
    { unfold slashes in H1. lia. }
    assert (Hb0 : slashes b = 0%nat) by (unfold slashes in *; lia).
    exists a, b. repeat split; try assumption.
    rewrite Heq. by apply parseRepository_namespaced.
  - intros a b Ha Hb ->. by apply parseRepository_namespaced.
  - intros H2. split; [by apply parseRepository_rejects |].
    intros env tag w. by apply getVulnerabilities_rejects.
Qed.

Lemma parseRepository_rule_witness :
  parseRepository "nginx" = Ok ("library", "nginx")
  /\ parseRepository "user/repo" = Ok ("user", "repo")
  /\ parseRepository "a/b/c" = Throw (ThrownError "Invalid repository format: a/b/c").
Proof.
  split; [| split].
  - apply (proj1 (parseRepository_rule "nginx")). reflexivity.
  - apply (proj1 (proj2 (proj2 (parseRepository_rule "user/repo"))) "user" "repo");
      reflexivity.
  - refine (proj1 (proj2 (proj2 (proj2 (parseRepository_rule "a/b/c"))) _)).
    unfold slashes. simpl. lia.
Defined.

End RepositoryRule.

Section CacheKeys.
Import JS CacheManager Notions.

Lemma app_cons x (a b : string) : String x a ++ b = String x (a ++ b).
Proof. reflexivity. Qed.

Lemma app_empty (b : string) : EmptyString ++ b = b.
Proof. reflexivity. Qed.

Lemma string_app_assoc (a b c : string) : (a ++ b) ++ c = a ++ (b ++ c).
Proof.
  induction a as [| x a IH]; [reflexivity |].
  by rewrite !app_cons, IH.
Qed.

Lemma truthy_app_l a b : truthy a = true -> truthy (a ++ b) = true.
Proof. by destruct a. Qed.

Lemma truthy_app_r a b : truthy b = true -> truthy (a ++ b) = true.
Proof. by destruct a. Qed.

Lemma truthy_renderParam params k : truthy (renderParam params k) = true.
Proof. unfold renderParam. apply truthy_app_r. reflexivity. Qed.

Lemma truthy_join sep x l : truthy x = true -> truthy (join sep (x :: l)) = true.
Proof. intros H. destruct l; simpl; [exact H | by apply truthy_app_l]. Qed.

(** *** Sorting forgets the order of enumeration *)

Lemma sortKeys_sorted l : Sorted String.le (sortKeys l).
Proof. apply Sorted_merge_sort, _. Qed.

Lemma sortKeys_perm l : sortKeys l ≡ₚ l.
Proof. apply merge_sort_Permutation. Qed.

Lemma sortKeys_order_independent l1 l2 : l1 ≡ₚ l2 -> sortKeys l1 = sortKeys l2.
Proof.
  intros Hp. apply (Sorted_unique String.le); try apply sortKeys_sorted.
  by rewrite !sortKeys_perm.
Qed.

Lemma getParam_in params k v :
  NoDup (map fst params) -> In (k, v) params -> getParam params k = v.
Proof.
  induction params as [| [k' v'] ps IH]; simpl; intros Hnd Hin; [contradiction |].
  apply NoDup_cons in Hnd as [Hfresh Hnd].
  destruct Hin as [Heq | Hin].
  - injection Heq as -> ->. by rewrite String.eqb_refl.
  - destruct (String.eqb_spec k' k) as [-> | Hne]; [| by apply IH].
    exfalso. apply Hfresh. apply list_elem_of_In.
    change k with (fst (k, v)). by apply in_map.
Qed.

Lemma getParam_agree (A B : Params) k :
  NoDup (map fst A) -> NoDup (map fst B) ->
  (forall kv, In kv A <-> In kv B) ->
  In k (map fst A) -> getParam A k = getParam B k.
Proof.
  intros HA HB Hsame Hk. apply in_map_iff in Hk as ([k' v] & Hfst & Hin).
  simpl in Hfst. subst k'.
  rewrite (getParam_in A k v HA Hin).
  symmetry. apply getParam_in; [exact HB | by apply Hsame].
Qed.

Lemma same_pairs_same_keys (A B : Params) :
  NoDup (map fst A) -> NoDup (map fst B) ->
  (forall kv, In kv A <-> In kv B) ->
  map fst A ≡ₚ map fst B.
Proof.
  intros HA HB Hsame.
  apply (NoDup_Permutation (map fst A) (map fst B) HA HB).
  intros k. rewrite !list_elem_of_In, !in_map_iff.
  split; intros (kv & Hk & Hin); exists kv; (split; [exact Hk | by apply Hsame]).
Qed.

(** *** The escape is injective and never produces an ampersand *)

Lemma occurrences_app c a b :
  occurrences c (a ++ b) = (occurrences c a + occurrences c b)%nat.
Proof.
  induction a as [| x a IH]; simpl; [reflexivity |].
  destruct (Ascii.eqb x c); simpl; by rewrite IH.
Qed.

Lemma encodeByte_no_amp c : occurrences "&" (encodeByte c) = O.
Proof. destruct c as [[] [] [] [] [] [] [] []]; reflexivity. Qed.

Lemma encodeURIComponent_no_amp s : occurrences "&" (encodeURIComponent s) = O.
Proof.
  induction s as [| c s IH]; simpl; [reflexivity |].
  by rewrite occurrences_app, encodeByte_no_amp, IH.
Qed.

Lemma hexDigit_inj a b :
  (a < 16)%N -> (b < 16)%N -> hexDigit a = hexDigit b -> a = b.
Proof.
  intros Ha Hb H. apply (f_equal N_of_ascii) in H. unfold hexDigit in H.
  destruct (N.ltb_spec a 10), (N.ltb_spec b 10);
    rewrite !N_ascii_embedding in H by lia; lia.
Qed.

Lemma encodeByte_cut c1 c2 r1 r2 :
  encodeByte c1 ++ r1 = encodeByte c2 ++ r2 -> c1 = c2 /\ r1 = r2.
Proof.
  unfold encodeByte.
  destruct (isUnreserved c1) eqn:U1, (isUnreserved c2) eqn:U2;
    rewrite ?app_cons, ?app_empty; intros H.
  - by injection H as -> ->.
  - injection H as -> _. discriminate U1.
  - injection H as <- _. discriminate U2.
  - injection H as Hhi Hlo ->. split; [| reflexivity].
    pose proof (N_ascii_bounded c1) as B1. pose proof (N_ascii_bounded c2) as B2.
    apply hexDigit_inj in Hhi;
      [| apply N.Div0.div_lt_upper_bound; lia | apply N.Div0.div_lt_upper_bound; lia].
    apply hexDigit_inj in Hlo; [| apply N.mod_lt; lia | apply N.mod_lt; lia].
    rewrite <- (ascii_N_embedding c1), <- (ascii_N_embedding c2). f_equal.
    rewrite (N.div_mod' (N_of_ascii c1) 16), (N.div_mod' (N_of_ascii c2) 16). lia.
Qed.

Lemma encodeByte_nonempty c r : encodeByte c ++ r <> EmptyString.
Proof. unfold encodeByte. by destruct (isUnreserved c). Qed.

Lemma encodeURIComponent_inj s1 s2 :
  encodeURIComponent s1 = encodeURIComponent s2 -> s1 = s2.
Proof.
  revert s2. induction s1 as [| c1 s1 IH]; intros [| c2 s2]; simpl; intros H.
  - reflexivity.
  - symmetry in H. by apply encodeByte_nonempty in H.
  - by apply encodeByte_nonempty in H.
  - apply encodeByte_cut in H as [-> H]. by rewrite (IH _ H).
Qed.

(** *** Reading the values back from a key *)

Lemma cut_at_amp a b r1 r2 :
  occurrences "&" a = O -> occurrences "&" b = O ->
  a ++ String "&" r1 = b ++ String "&" r2 -> a = b /\ r1 = r2.
Proof.
  revert b. induction a as [| x a IH]; intros [| y b]; simpl;
    rewrite ?app_cons, ?app_empty; intros Ha Hb H.
  - by injection H as ->.
  - injection H as <- _. discriminate Hb.
  - injection H as -> _. discriminate Ha.
  - injection H as -> H.
    destruct (Ascii.eqb y "&"); [discriminate |].
    destruct (IH b Ha Hb H) as [-> ->]. by split.
Qed.

Lemma join_pairs_cons (h : string -> string) k0 k1 ks :
  join "&" (map (fun k => k ++ "=" ++ h k) (k0 :: k1 :: ks))
  = k0 ++ String "=" (h k0 ++ String "&"
                        (join "&" (map (fun k => k ++ "=" ++ h k) (k1 :: ks)))).
Proof.
  set (J := join "&" (map (fun k => k ++ "=" ++ h k) (k1 :: ks))).
  change (join "&" (map (fun k => k ++ "=" ++ h k) (k0 :: k1 :: ks)))
    with ((k0 ++ "=" ++ h k0) ++ "&" ++ J).
  by rewrite !string_app_assoc.
Qed.

Lemma join_pairs_inj (f g : string -> string) ks :
  (forall k, occurrences "&" (f k) = O) ->
  (forall k, occurrences "&" (g k) = O) ->
  join "&" (map (fun k => k ++ "=" ++ f k) ks)
  = join "&" (map (fun k => k ++ "=" ++ g k) ks) ->
  forall k, In k ks -> f k = g k.
Proof.
  intros Hf Hg. induction ks as [| k0 ks IH]; intros H k Hin; [contradiction |].
  destruct ks as [| k1 ks].
  - destruct Hin as [<- | []]. simpl in H.
    apply (inj (String.app k0)) in H. by injection H.
  - rewrite !join_pairs_cons in H.
    apply (inj (String.app k0)) in H.
    injection H as H.
    apply cut_at_amp in H as [H0 Hrest]; [| apply Hf | apply Hg].
    destruct Hin as [<- | Hin]; [exact H0 |].
    apply IH; [exact Hrest | exact Hin].
Qed.

End CacheKeys.

Section CacheKeyTheorem.
Import JS CacheManager Notions.

Lemma sortKeys_nonempty (l : list string) : l <> [] -> sortKeys l <> [].
Proof.
  intros Hl Hnil. apply Hl. apply Permutation_nil.
  rewrite <- Hnil. apply sortKeys_perm.
Qed.

Lemma generateKey_nonempty endpoint (params : Params) :
  params <> [] ->
  generateKey endpoint params
  = endpoint ++ "?" ++ join "&" (map (renderParam params) (sortKeys (map fst params))).
Proof.
  intros Hne. unfold generateKey.
  destruct (sortKeys (map fst params)) as [| k ks] eqn:Hs.
  - exfalso. apply (sortKeys_nonempty (map fst params)); [| exact Hs].
    by destruct params.
  - cbn [map]. by rewrite truthy_join by apply truthy_renderParam.
Qed.

(** Two parameter objects with the same names render the same key only if
    every value has the same string conversion. *)
Lemma generateKey_reads_values endpoint (A B : Params) :
  map fst A ≡ₚ map fst B ->
  generateKey endpoint A = generateKey endpoint B ->
  forall k, In k (map fst A) -> toStr (getParam A k) = toStr (getParam B k).
Proof.
  intros Hkeys Heq k Hk.
  assert (HA : A <> []) by (intros ->; contradiction).
  assert (HB : B <> []).
  { intros ->. simpl in Hkeys. apply Permutation_nil_r in Hkeys.
    rewrite Hkeys in Hk. contradiction. }
  rewrite (generateKey_nonempty _ _ HA), (generateKey_nonempty _ _ HB) in Heq.
  rewrite <- (sortKeys_order_independent _ _ Hkeys) in Heq.
  apply (inj (String.app endpoint)) in Heq.
  apply (inj (String.app "?")) in Heq.
  apply encodeURIComponent_inj.
  apply (join_pairs_inj (fun k => encodeURIComponent (toStr (getParam A k)))
                        (fun k => encodeURIComponent (toStr (getParam B k)))
                        (sortKeys (map fst A))).
  - intros. apply encodeURIComponent_no_amp.
  - intros. apply encodeURIComponent_no_amp.
  - exact Heq.
  - apply list_elem_of_In. rewrite sortKeys_perm. by apply list_elem_of_In.
Qed.

(** C3, as the code has it. [generateKey] does not depend on the order in
    which the parameters are enumerated; it is the bare endpoint for no
    parameter and otherwise the endpoint, a question mark and the pairs
    [name=encodeURIComponent(String(value))] in sorted order of the names,
    joined by ampersands; and two objects with the same names get different
    keys as soon as some value differs in its string conversion. *)
Theorem generateKey_canonical :
  forall (endpoint : string) (A B : Params),
    NoDup (map fst A) -> NoDup (map fst B) ->
    ((forall kv, In kv A <-> In kv B) ->
     generateKey endpoint A = generateKey endpoint B)
    /\ generateKey endpoint [] = endpoint
    /\ (A <> [] ->
        exists names,
          Sorted String.le names /\ names ≡ₚ map fst A
          /\ generateKey endpoint A
             = endpoint ++ "?"
               ++ join "&" (map (fun name =>
                                   name ++ "="
                                   ++ encodeURIComponent (toStr (getParam A name)))
                                names))
    /\ (map fst A ≡ₚ map fst B ->
        (exists name, In name (map fst A)
                      /\ toStr (getParam A name) <> toStr (getParam B name)) ->
        generateKey endpoint A <> generateKey endpoint B).
Proof.
  intros endpoint A B HA HB. split; [| split; [| split]].
  - intros Hsame. unfold generateKey.
    pose proof (same_pairs_same_keys A B HA HB Hsame) as Hkeys.
    rewrite <- (sortKeys_order_independent _ _ Hkeys).
    replace (map (renderParam B) (sortKeys (map fst A)))
      with (map (renderParam A) (sortKeys (map fst A))); [reflexivity |].
    apply map_ext_in. intros k Hk. unfold renderParam.
    rewrite (getParam_agree A B k HA HB Hsame); [reflexivity |].
    apply list_elem_of_In. rewrite <- (sortKeys_perm (map fst A)).
    by apply list_elem_of_In.
  - unfold generateKey. simpl. clear. induction endpoint as [| c e IH]; [reflexivity |].
    by rewrite app_cons, IH.
  - intros Hne. exists (sortKeys (map fst A)).
    split; [apply sortKeys_sorted |]. split; [apply sortKeys_perm |].
    by apply generateKey_nonempty.
  - intros Hkeys (name & Hin & Hdiff) Heq. apply Hdiff.
    by apply (generateKey_reads_values endpoint A B).
Qed.

Lemma generateKey_canonical_witness :
  let A := [("q", VStr "nginx"); ("page", VNum 1)] in
  let B := [("page", VNum 1); ("q", VStr "nginx")] in
  let C := [("page", VNum 2); ("q", VStr "nginx")] in
  generateKey "search" A = generateKey "search" B
  /\ generateKey "search" A <> generateKey "search" C.
Proof.
  assert (Hnames : forall v w, NoDup (map fst [("q", VStr v); ("page", VNum w)])).
  { intros. apply NoDup_cons_2; [| apply NoDup_singleton].
    rewrite list_elem_of_In. simpl. intros [H | []]. discriminate H. }
  assert (Hnames' : forall v w, NoDup (map fst [("page", VNum w); ("q", VStr v)])).
  { intros. apply NoDup_cons_2; [| apply NoDup_singleton].
    rewrite list_elem_of_In. simpl. intros [H | []]. discriminate H. }
  split.
  - apply (proj1 (generateKey_canonical "search"
                    [("q", VStr "nginx"); ("page", VNum 1)]
                    [("page", VNum 1); ("q", VStr "nginx")]
                    (Hnames _ _) (Hnames' _ _))).
    intros kv. simpl. tauto.
  - apply (proj2 (proj2 (proj2 (generateKey_canonical "search"
                    [("q", VStr "nginx"); ("page", VNum 1)]
                    [("page", VNum 2); ("q", VStr "nginx")]
                    (Hnames _ _) (Hnames' _ _))))).
    + simpl. apply Permutation_swap.
    + exists "page". split; [simpl; tauto |]. vm_compute. discriminate.
Defined.

(** The claim as worded fails on values of different types with the same
    string conversion: the number [1] and the string ["1"] differ, yet the
    two objects get the same key. *)
Lemma generateKey_collision :
  let A := [("page", VNum 1)] in
  let B := [("page", VStr "1")] in
  getParam A "page" <> getParam B "page"
  /\ generateKey "search" A = generateKey "search" B.
Proof. split; [discriminate | reflexivity]. Qed.

End CacheKeyTheorem.

Section AuthEndpointDiscovery.
Import JS Types Async AuthManager Notions.

Lemma stripPrefix_sound p s rest : stripPrefix p s = Some rest -> s = p ++ rest.
Proof.
  revert s. induction p as [| a p IH]; intros s H; simpl in H.
  - by injection H as ->.
  - destruct s as [| b s]; [discriminate |].
    destruct (Ascii.eqb_spec a b) as [-> |]; [| discriminate].
    by rewrite (IH s H).
Qed.

Lemma untilQuote_sound s run :
  untilQuote s = Some run ->
  exists post, s = run ++ String quote post /\ occurrences quote run = O.
Proof.
  revert run. induction s as [| c s IH]; intros run H; simpl in H; [discriminate |].
  destruct (Ascii.eqb_spec c quote) as [-> | Hne].
  - injection H as <-. by exists s.
  - destruct (untilQuote s) as [run' |]; [| discriminate].
    injection H as <-. destruct (IH run' eq_refl) as (post & -> & Hocc).
    exists post. split; [reflexivity |]. simpl.
    destruct (Ascii.eqb_spec c quote); [contradiction | exact Hocc].
Qed.

Lemma realmHere_sound s realm :
  realmHere s = Some realm ->
  exists post,
    s = ("realm=" ++ String quote EmptyString) ++ realm ++ String quote post
    /\ truthy realm = true /\ occurrences quote realm = O.
Proof.
  unfold realmHere. intros H.
  destruct (stripPrefix _ s) as [rest |] eqn:Hp; [| discriminate].
  destruct (untilQuote rest) as [run |] eqn:Hq; [| discriminate].
  destruct (truthy run) eqn:Ht; [| discriminate]. injection H as <-.
  apply stripPrefix_sound in Hp. apply untilQuote_sound in Hq as (post & -> & Hocc).
  by exists post.
Qed.

(** What [matchRealm] returns is the text between [realm=] followed by a
    quote and the next quote, and it is not empty. *)
Lemma matchRealm_sound s realm :
  matchRealm s = Some realm ->
  exists pre post,
    s = pre ++ ("realm=" ++ String quote EmptyString) ++ realm ++ String quote post
    /\ truthy realm = true /\ occurrences quote realm = O.
Proof.
  induction s as [| c s IH]; intros H.
  - discriminate H.
  - cbn [matchRealm] in H.
    destruct (realmHere (String c s)) as [run |] eqn:Hhere.
    + injection H as <-. apply realmHere_sound in Hhere as (post & Heq & Ht & Hocc).
      exists EmptyString, post. by rewrite Heq.
    + destruct (IH H) as (pre & post & -> & Ht & Hocc).
      by exists (String c pre), post.
Qed.

Lemma matchRealm_truthy s realm : matchRealm s = Some realm -> truthy s = true.
Proof. by destruct s. Qed.

(** The world once the probe has been sent and answered. *)
Lemma probe_received env registryUrl w r :
  outcome (network env (length (requests w)) (probeRequest env registryUrl)) = Received r ->
  axios env (fun st => st =? 401) (probeRequest env registryUrl) w
  = (if status r =? 401 then Ok r
     else Throw (ThrownAxios {| ax_response := Some r; ax_request := true;
                                ax_message := "Request failed with status code "
                                              ++ pretty (status r) |}),
     advance (Z.of_N (elapsed (network env (length (requests w))
                                 (probeRequest env registryUrl))))
             (emit (EvRequest (probeRequest env registryUrl)) w)).
Proof.
  intros H. unfold axios. rewrite H. by destruct (status r =? 401).
Qed.

(** C9, as the code has it. The probe of [<registryUrl>/v2/] accepts only
    a 401 answer. On a 401 the result is the realm of [WWW-Authenticate]
    when the header has one, and otherwise
    [<protocol>//auth.<hostname>/token]. The result is null, after a
    warning, when no response is received, when a response with any other
    status is received, and when a 401 answer names no realm and the
    fallback cannot parse the registry URL; and a null result means one of
    these three. *)
Theorem discoverAuthEndpoint_outcomes :
  forall (env : Env) (registryUrl : string) (w : World),
    let reply := network env (length (requests w)) (probeRequest env registryUrl) in
    let sent := advance (Z.of_N (elapsed reply))
                        (emit (EvRequest (probeRequest env registryUrl)) w) in
    let warned error :=
      emit (EvConsole LWarn ("Failed to discover auth endpoint for " ++ registryUrl ++ ":")
              (Some error)) sent in
    let noRealm r :=
      headers r !! "www-authenticate" = None
      \/ exists h, headers r !! "www-authenticate" = Some h /\ matchRealm h = None in
    (forall r h realm,
        outcome reply = Received r -> status r = 401 ->
        headers r !! "www-authenticate" = Some h -> matchRealm h = Some realm ->
        discoverAuthEndpoint env registryUrl w = (Ok (Some realm), sent))
    /\ (forall r protocol hostname,
          outcome reply = Received r -> status r = 401 ->
          noRealm r ->
          parseURL env registryUrl = Some (protocol, hostname) ->
          discoverAuthEndpoint env registryUrl w
          = (Ok (Some (protocol ++ "//auth." ++ hostname ++ "/token")), sent))
    /\ (forall reason,
          outcome reply = NoResponse reason ->
          discoverAuthEndpoint env registryUrl w
          = (Ok None,
             warned (ThrownAxios {| ax_response := None; ax_request := true;
                                    ax_message := reason |})))
    /\ (forall r,
          outcome reply = Received r -> status r <> 401 ->
          discoverAuthEndpoint env registryUrl w
          = (Ok None,
             warned (ThrownAxios {| ax_response := Some r; ax_request := true;
                                    ax_message := "Request failed with status code "
                                                  ++ pretty (status r) |})))
    /\ (forall r,
          outcome reply = Received r -> status r = 401 ->
          noRealm r ->
          parseURL env registryUrl = None ->
          discoverAuthEndpoint env registryUrl w
          = (Ok None, warned (ThrownError "Invalid URL")))
    /\ (forall w',
          discoverAuthEndpoint env registryUrl w = (Ok None, w') ->
          (exists reason, outcome reply = NoResponse reason)
          \/ (exists r, outcome reply = Received r /\ status r <> 401)
          \/ (exists r, outcome reply = Received r /\ status r = 401 /\ noRealm r
                        /\ parseURL env registryUrl = None)).
Proof.
  intros env registryUrl w reply sent warned noRealm.
  assert (Hnone : forall r, noRealm r ->
            (if truthy_opt (headers r !! "www-authenticate")
             then matchRealm (or_default (headers r !! "www-authenticate") "")
             else None) = None).
  { intros r [-> | (h & -> & Hm)]; [reflexivity |].
    simpl. destruct (truthy h); [exact Hm | reflexivity]. }
  split; [| split; [| split; [| split; [| split]]]].
  - intros r h realm Hr Hst Hh Hm.
    unfold discoverAuthEndpoint, try_catch, bind at 1.
    rewrite (probe_received _ _ _ _ Hr). rewrite Hst. simpl. rewrite Hh.
    simpl. rewrite (matchRealm_truthy _ _ Hm). simpl.
    replace (if truthy h then h else "") with h
      by (by rewrite (matchRealm_truthy _ _ Hm)).
    by rewrite Hm.
  - intros r protocol hostname Hr Hst Hno Hurl.
    unfold discoverAuthEndpoint, try_catch, bind at 1.
    rewrite (probe_received _ _ _ _ Hr). rewrite Hst. simpl.
    rewrite (Hnone r Hno), Hurl. reflexivity.
  - intros reason Hr. unfold discoverAuthEndpoint, try_catch, bind at 1, axios.
    fold reply. rewrite Hr. reflexivity.
  - intros r Hr Hst.
    unfold discoverAuthEndpoint, try_catch, bind at 1.
    rewrite (probe_received _ _ _ _ Hr).
    destruct (Z.eqb_spec (status r) 401); [contradiction |].
    reflexivity.
  - intros r Hr Hst Hno Hurl.
    unfold discoverAuthEndpoint, try_catch, bind at 1.
    rewrite (probe_received _ _ _ _ Hr). rewrite Hst. simpl.
    rewrite (Hnone r Hno), Hurl. reflexivity.
  - intros w' H.
    destruct (outcome reply) as [reason | r] eqn:Hr; [left; by exists reason |].
    right. destruct (Z.eqb_spec (status r) 401) as [Hst | Hst];
      [| left; by exists r].
    right. exists r. split; [reflexivity |]. split; [exact Hst |].
    unfold discoverAuthEndpoint, try_catch, bind at 1 in H.
    rewrite (probe_received _ _ _ _ Hr) in H. rewrite Hst in H. simpl in H.
    assert (Hrealm : noRealm r
                     \/ exists realm,
                          (if truthy_opt (headers r !! "www-authenticate")
                           then matchRealm (or_default (headers r !! "www-authenticate") "")
                           else None) = Some realm).
    { unfold noRealm. destruct (headers r !! "www-authenticate") as [h |]; [| by left; left].
      simpl. destruct (truthy h) eqn:Ht.
      - destruct (matchRealm h) as [realm |] eqn:Hm; [right; by exists realm |].
        left. right. by exists h.
      - left. right. exists h. split; [reflexivity |].
        destruct h; [reflexivity | discriminate Ht]. }
    destruct Hrealm as [Hno | (realm & Hsome)].
    + split; [exact Hno |]. rewrite (Hnone r Hno) in H.
      destruct (parseURL env registryUrl) as [[protocol hostname] |]; [discriminate H |].
      reflexivity.
    + rewrite Hsome in H. discriminate H.
Qed.

End AuthEndpointDiscovery.

Section AuthEndpointDiscoveryInstances.
Import JS Types Async AuthManager.

Lemma discoverAuthEndpoint_outcomes_witness :
  let w := Samples.worldWith 0 Samples.defaultLimiter in
  (exists w',
      discoverAuthEndpoint (Samples.envOf Samples.anonymousConfig Samples.challenging)
        Samples.registryUrl w
      = (Ok (Some "https://auth.example.com/token"), w'))
  /\ (exists w',
        discoverAuthEndpoint (Samples.envOf Samples.anonymousConfig (Samples.always 401))
          Samples.registryUrl w
        = (Ok (Some "https://auth.registry.example.com/token"), w'))
  /\ (exists w',
        discoverAuthEndpoint
          (Samples.envOf Samples.anonymousConfig (fun _ _ => Samples.unreachable))
          Samples.registryUrl w
        = (Ok None, w'))
  /\ (exists w',
        discoverAuthEndpoint (Samples.envOf Samples.anonymousConfig (Samples.always 404))
          Samples.registryUrl w
        = (Ok None, w'))
  /\ (exists w',
        discoverAuthEndpoint (Samples.envOf Samples.anonymousConfig (Samples.always 401))
          "registry.example.com" w
        = (Ok None, w')).
Proof.
  intros w. split; [| split; [| split; [| split]]].
  - eexists.
    refine (proj1 (discoverAuthEndpoint_outcomes
                     (Samples.envOf Samples.anonymousConfig Samples.challenging)
                     Samples.registryUrl w) _ Samples.challenge _ _ _ _ _);
      [reflexivity | reflexivity | reflexivity | reflexivity].
  - eexists.
    refine (proj1 (proj2 (discoverAuthEndpoint_outcomes
                     (Samples.envOf Samples.anonymousConfig (Samples.always 401))
                     Samples.registryUrl w)) _ "https:" "registry.example.com" _ _ _ _);
      [reflexivity | reflexivity | left; reflexivity | reflexivity].
  - eexists.
    refine (proj1 (proj2 (proj2 (discoverAuthEndpoint_outcomes
                     (Samples.envOf Samples.anonymousConfig (fun _ _ => Samples.unreachable))
                     Samples.registryUrl w))) "connect ECONNREFUSED" _).
    reflexivity.
  - eexists.
    refine (proj1 (proj2 (proj2 (proj2 (discoverAuthEndpoint_outcomes
                     (Samples.envOf Samples.anonymousConfig (Samples.always 404))
                     Samples.registryUrl w)))) _ _ _);
      [reflexivity | simpl; lia].
  - eexists.
    refine (proj1 (proj2 (proj2 (proj2 (proj2 (discoverAuthEndpoint_outcomes
                     (Samples.envOf Samples.anonymousConfig (Samples.always 401))
                     "registry.example.com" w))))) _ _ _ _ _);
      [reflexivity | reflexivity | left; reflexivity | reflexivity].
Defined.

(** The claim as worded fails: a registry that answers the probe with
    200 (a response is received) also makes the result null. *)
Lemma discoverAuthEndpoint_null_with_response :
  let env := Samples.envOf Samples.anonymousConfig (Samples.always 200) in
  let w := Samples.worldWith 0 Samples.defaultLimiter in
  exists r w',
    outcome (network env (length (requests w)) (probeRequest env Samples.registryUrl))
    = Received r
    /\ status r = 200
    /\ discoverAuthEndpoint env Samples.registryUrl w = (Ok None, w').
Proof. do 2 eexists. repeat split. Qed.

End AuthEndpointDiscoveryInstances.

Section DefaultRegistryToken.
Import JS Types Async ErrorHandler Retry AuthManager Notions.

Lemma axios_unanswered env validate req w reason :
  outcome (network env (length (requests w)) req) = NoResponse reason ->
  axios env validate req w
  = (Throw (ThrownAxios {| ax_response := None; ax_request := true;
                           ax_message := reason |}),
     advance (Z.of_N (elapsed (network env (length (requests w)) req)))
             (emit (EvRequest req) w)).
Proof. intros H. unfold axios. by rewrite H. Qed.

Lemma axios_rejected env validate req w r :
  outcome (network env (length (requests w)) req) = Received r ->
  validate (status r) = false ->
  axios env validate req w
  = (Throw (ThrownAxios {| ax_response := Some r; ax_request := true;
                           ax_message := "Request failed with status code "
                                         ++ pretty (status r) |}),
     advance (Z.of_N (elapsed (network env (length (requests w)) req)))
             (emit (EvRequest req) w)).
Proof. intros H Hv. unfold axios. by rewrite H, Hv. Qed.

Lemma axios_resolved env validate req w r :
  outcome (network env (length (requests w)) req) = Received r ->
  validate (status r) = true ->
  axios env validate req w
  = (Ok r, advance (Z.of_N (elapsed (network env (length (requests w)) req)))
                   (emit (EvRequest req) w)).
Proof. intros H Hv. unfold axios. by rewrite H, Hv. Qed.

Lemma requests_emit_request req w :
  requests (emit (EvRequest req) w) = (requests w ++ [EvRequest req])%list.
Proof. unfold requests, emit. simpl. by rewrite List.filter_app. Qed.

Lemma requests_emit_console lv txt info w :
  requests (emit (EvConsole lv txt info) w) = requests w.
Proof.
  unfold requests, emit. simpl. rewrite List.filter_app. simpl. apply app_nil_r.
Qed.

(** A 401 answer, and only a 401 answer, is normalised to an
    [AuthenticationError]. *)
Lemma handleAxiosError_401 t r m :
  status r = 401 ->
  exists m', handleAxiosError t {| ax_response := Some r; ax_request := true;
                                   ax_message := m |}
             = AuthenticationError m'.
Proof. intros H. unfold handleAxiosError. simpl. rewrite H. simpl. by eexists. Qed.

Lemma handleAxiosError_other t r m :
  status r <> 401 ->
  isAuthenticationError
    (handleAxiosError t {| ax_response := Some r; ax_request := true; ax_message := m |})
  = false.
Proof.
  intros H. unfold handleAxiosError. simpl.
  destruct (Z.eqb_spec (status r) 401); [contradiction |].
  repeat match goal with
         | |- context [if ?b then _ else _] => destruct b
         end; reflexivity.
Qed.

Lemma validCached_none cacheKey w :
  noValidToken cacheKey w -> validCached cacheKey w = (Ok None, w).
Proof.
  unfold noValidToken, validCached. intros H.
  destruct (tokenCache w !! cacheKey) as [c |]; [| reflexivity].
  destruct (Z.ltb_spec (now w) (expiresAt c)); [lia | reflexivity].
Qed.

Lemma validCached_some cacheKey w c :
  tokenCache w !! cacheKey = Some c -> now w < expiresAt c ->
  validCached cacheKey w = (Ok (Some c), w).
Proof.
  unfold validCached. intros -> H.
  destruct (Z.ltb_spec (now w) (expiresAt c)); [reflexivity | lia].
Qed.

(** With password credentials and nothing valid in the cache, the call is
    the token request guarded by the [catch] clause. *)
Lemma getDockerHubToken_requests env scope w :
  passwordOnly (config env) -> noValidToken (dockerHubCacheKey scope) w ->
  getDockerHubToken env scope w
  = try_catch
      (response <- axios env status2xx (dockerHubTokenRequest env scope) ;;
       storeToken (dockerHubCacheKey scope) (data response))%async
      (onDockerHubFailure env) w.
Proof.
  intros (Hat & Hu & Hp) Hnone. unfold getDockerHubToken.
  rewrite Hat, Hu, Hp. cbn [negb orb]. unfold bind at 1.
  by rewrite (validCached_none _ _ Hnone).
Qed.

(** With a valid cached token the call returns it and touches nothing. *)
Lemma getDockerHubToken_reuses env scope w c :
  passwordOnly (config env) ->
  tokenCache w !! dockerHubCacheKey scope = Some c -> now w < expiresAt c ->
  getDockerHubToken env scope w = (Ok (token c), w).
Proof.
  intros (Hat & Hu & Hp) Hc Hlt. unfold getDockerHubToken.
  rewrite Hat, Hu, Hp. cbn [negb orb]. unfold bind at 1.
  by rewrite (validCached_some _ _ _ Hc Hlt).
Qed.

Lemma onDockerHubFailure_auth env x w m :
  handleError (now w) x = AuthenticationError m ->
  onDockerHubFailure env x w
  = (Throw (ThrownDockerHub (AuthenticationError m)),
     (logError env (AuthenticationError m) (Some "DockerHub Authentication") w).2).
Proof.
  intros H. unfold onDockerHubFailure, bind at 1, clock. rewrite H.
  unfold bind at 1. by rewrite logError_ok.
Qed.

Lemma onDockerHubFailure_other env x w :
  isAuthenticationError (handleError (now w) x) = false ->
  exists w', onDockerHubFailure env x w = (Ok None, w').
Proof.
  intros H. unfold onDockerHubFailure, bind at 1, clock. rewrite H.
  unfold bind at 1. rewrite logError_ok. by eexists.
Qed.

Lemma createAuthHeaders_default env scope w :
  createAuthHeaders env None scope w
  = match getDockerHubToken env scope w with
    | (Ok token, w') =>
        (Ok (if truthy_opt token
             then {[ "Authorization" := "Bearer " ++ or_default token "" ]}
             else ∅), w')
    | (Throw x, w') => (Throw x, w')
    end.
Proof.
  unfold createAuthHeaders, bind.
  by destruct (getDockerHubToken env scope w) as [[tok | x] w'].
Qed.

(** C1, as the code has it. With a username and password, no access token
    and no valid cached token: when the token endpoint answers 401,
    [getDockerHubToken] throws an [AuthenticationError] and
    [createAuthHeaders] throws it too; when the request fails in any other
    way (no response, or a rejected status other than 401),
    [getDockerHubToken] returns null and [createAuthHeaders] returns the
    empty header map. *)
Theorem getDockerHubToken_failure_modes :
  forall (env : Env) (scope : option string) (w : World),
    passwordOnly (config env) ->
    noValidToken (dockerHubCacheKey scope) w ->
    let reply := network env (length (requests w)) (dockerHubTokenRequest env scope) in
    (forall r,
        outcome reply = Received r -> status r = 401 ->
        exists m w',
          getDockerHubToken env scope w
          = (Throw (ThrownDockerHub (AuthenticationError m)), w')
          /\ createAuthHeaders env None scope w
             = (Throw (ThrownDockerHub (AuthenticationError m)), w'))
    /\ (forall reason,
          outcome reply = NoResponse reason ->
          exists w',
            getDockerHubToken env scope w = (Ok None, w')
            /\ createAuthHeaders env None scope w = (Ok ∅, w'))
    /\ (forall r,
          outcome reply = Received r ->
          status2xx (status r) = false -> status r <> 401 ->
          exists w',
            getDockerHubToken env scope w = (Ok None, w')
            /\ createAuthHeaders env None scope w = (Ok ∅, w')).
Proof.
  intros env scope w Hcfg Hnone reply.
  pose proof (getDockerHubToken_requests env scope w Hcfg Hnone) as Hcall.
  split; [| split].
  - intros r Hr Hst.
    assert (Hv : status2xx (status r) = false) by (by rewrite Hst).
    unfold try_catch, bind at 1 in Hcall.
    rewrite (axios_rejected _ _ _ _ _ Hr Hv) in Hcall.
    match type of Hcall with
    | _ = onDockerHubFailure _ (ThrownAxios ?a) ?w1 =>
        destruct (handleAxiosError_401 (now w1) r (ax_message a) Hst) as [m Hm];
        rewrite (onDockerHubFailure_auth env (ThrownAxios a) w1 m Hm) in Hcall
    end.
    do 2 eexists. split; [exact Hcall |].
    by rewrite createAuthHeaders_default, Hcall.
  - intros reason Hr.
    unfold try_catch, bind at 1 in Hcall.
    rewrite (axios_unanswered _ _ _ _ _ Hr) in Hcall.
    match type of Hcall with
    | _ = onDockerHubFailure _ ?x ?w1 =>
        destruct (onDockerHubFailure_other env x w1 eq_refl) as [w' Hw']
    end.
    rewrite Hw' in Hcall. exists w'. split; [exact Hcall |].
    by rewrite createAuthHeaders_default, Hcall.
  - intros r Hr Hv Hst.
    unfold try_catch, bind at 1 in Hcall.
    rewrite (axios_rejected _ _ _ _ _ Hr Hv) in Hcall.
    match type of Hcall with
    | _ = onDockerHubFailure _ (ThrownAxios ?a) ?w1 =>
        destruct (onDockerHubFailure_other env (ThrownAxios a) w1
                    (handleAxiosError_other (now w1) r _ Hst)) as [w' Hw']
    end.
    rewrite Hw' in Hcall. exists w'. split; [exact Hcall |].
    by rewrite createAuthHeaders_default, Hcall.
Qed.

End DefaultRegistryToken.

Section DefaultRegistryTokenInstances.
Import JS Types Async ErrorHandler Retry AuthManager Notions.

Lemma getDockerHubToken_failure_modes_witness :
  let w := Samples.worldWith 0 Samples.defaultLimiter in
  (exists m w',
      getDockerHubToken (Samples.envOf Samples.passwordConfig (Samples.always 401)) None w
      = (Throw (ThrownDockerHub (AuthenticationError m)), w')
      /\ createAuthHeaders (Samples.envOf Samples.passwordConfig (Samples.always 401))
           None None w
         = (Throw (ThrownDockerHub (AuthenticationError m)), w'))
  /\ (exists w',
        getDockerHubToken
          (Samples.envOf Samples.passwordConfig (fun _ _ => Samples.unreachable)) None w
        = (Ok None, w')
        /\ createAuthHeaders
             (Samples.envOf Samples.passwordConfig (fun _ _ => Samples.unreachable))
             None None w
           = (Ok ∅, w'))
  /\ (exists w',
        getDockerHubToken (Samples.envOf Samples.passwordConfig (Samples.always 503)) None w
        = (Ok None, w')
        /\ createAuthHeaders (Samples.envOf Samples.passwordConfig (Samples.always 503))
             None None w
           = (Ok ∅, w')).
Proof.
  intros w.
  assert (Hcfg : forall net, passwordOnly (config (Samples.envOf Samples.passwordConfig net)))
    by (intros; repeat split).
  assert (Hnone : noValidToken (dockerHubCacheKey None) w) by exact I.
  split; [| split].
  - refine (proj1 (getDockerHubToken_failure_modes _ None w (Hcfg _) Hnone) _ _ _);
      reflexivity.
  - refine (proj1 (proj2 (getDockerHubToken_failure_modes _ None w (Hcfg _) Hnone)) _ _).
    reflexivity.
  - refine (proj2 (proj2 (getDockerHubToken_failure_modes _ None w (Hcfg _) Hnone)) _ _ _ _);
      [reflexivity | reflexivity | simpl; lia].
Defined.

(** The claim as worded fails: with a rejected password (401 from the
    token endpoint) the token acquisition throws instead of returning
    null, and no header map is produced. *)
Lemma getDockerHubToken_throws_on_401 :
  let env := Samples.envOf Samples.passwordConfig (Samples.always 401) in
  let w := Samples.worldWith 0 Samples.defaultLimiter in
  (exists w',
      getDockerHubToken env None w
      = (Throw (ThrownDockerHub (AuthenticationError "Request failed with status code 401")),
         w'))
  /\ (forall w', getDockerHubToken env None w <> (Ok None, w'))
  /\ (forall hdrs w', createAuthHeaders env None None w <> (Ok hdrs, w')).
Proof.
  split; [| split].
  - eexists. vm_compute. reflexivity.
  - intros w' H. vm_compute in H. discriminate H.
  - intros hdrs w' H. vm_compute in H. discriminate H.
Qed.

End DefaultRegistryTokenInstances.

Section TokenReuse.
Import JS Types Async ErrorHandler Retry AuthManager Notions.

Lemma storeToken_token cacheKey tok exp w :
  storeToken cacheKey (PToken tok exp) w
  = (Ok tok,
     set_tokenCache
       (<[cacheKey := {| token := tok; expiresAt := now w + num_or exp 3600 * 1000 |}]>
          (tokenCache w)) w).
Proof. reflexivity. Qed.

(** The default registry: a first call that obtains a token sends exactly
    one request, and a second call made while the token is valid returns
    the cached token and leaves the world, hence the list of requests,
    untouched. *)
Lemma getDockerHubToken_two_calls env scope w r tok exp :
  passwordOnly (config env) ->
  noValidToken (dockerHubCacheKey scope) w ->
  outcome (network env (length (requests w)) (dockerHubTokenRequest env scope)) = Received r ->
  status2xx (status r) = true ->
  data r = PToken tok exp ->
  0 < num_or exp 3600 ->
  exists w1,
    getDockerHubToken env scope w = (Ok tok, w1)
    /\ requests w1 = (requests w ++ [EvRequest (dockerHubTokenRequest env scope)])%list
    /\ getDockerHubToken env scope w1 = (Ok tok, w1).
Proof.
  intros Hcfg Hnone Hr Hv Hd Hlife.
  rewrite (getDockerHubToken_requests env scope w Hcfg Hnone).
  unfold try_catch, bind at 1. rewrite (axios_resolved _ _ _ _ _ Hr Hv), Hd.
  rewrite storeToken_token.
  eexists. split; [reflexivity |]. split.
  - unfold set_tokenCache, requests. simpl. by rewrite List.filter_app.
  - match goal with
    | |- getDockerHubToken _ _ ?w1 = _ =>
        apply (getDockerHubToken_reuses env scope w1
                 {| token := tok;
                    expiresAt := now w + Z.of_N (elapsed (network env (length (requests w))
                                                 (dockerHubTokenRequest env scope)))
                                 + num_or exp 3600 * 1000 |} Hcfg)
    end.
    + simpl. apply lookup_insert_eq.
    + simpl. lia.
Qed.

(** Two consecutive acquisitions for one scope against a token endpoint
    that grants a token for 300 s: one request in all. *)
Example getDockerHubToken_two_calls_run :
  let env := Samples.envOf Samples.passwordConfig
               (fun _ _ => Samples.answer 200 ∅ (PToken (Some "fresh-token") (Some 300))) in
  let scope := Some "repository:library/alpine:pull" in
  let first := getDockerHubToken env scope (Samples.worldWith 0 Samples.defaultLimiter) in
  let second := getDockerHubToken env scope first.2 in
  first.1 = Ok (Some "fresh-token")
  /\ second.1 = Ok (Some "fresh-token")
  /\ requests second.2 = [EvRequest (dockerHubTokenRequest env scope)]
  /\ tokenCache second.2 !! dockerHubCacheKey scope
     = Some {| token := Some "fresh-token"; expiresAt := 300000 |}.
Proof. vm_compute. repeat split. Qed.

(** The probe leaves the token cache alone and records one request. *)
Lemma discoverAuthEndpoint_frame env registryUrl w :
  exists found w',
    discoverAuthEndpoint env registryUrl w = (Ok found, w')
    /\ tokenCache w' = tokenCache w
    /\ now w' = now w + Z.of_N (elapsed (network env (length (requests w))
                                           (probeRequest env registryUrl)))
    /\ requests w' = (requests w ++ [EvRequest (probeRequest env registryUrl)])%list.
Proof.
  unfold discoverAuthEndpoint, try_catch, bind at 1, axios.
  set (reply := network env (length (requests w)) (probeRequest env registryUrl)).
  set (sent := advance (Z.of_N (elapsed reply))
                       (emit (EvRequest (probeRequest env registryUrl)) w)).
  assert (Hsent : requests sent
                  = (requests w ++ [EvRequest (probeRequest env registryUrl)])%list).
  { unfold sent, requests. simpl. by rewrite List.filter_app. }
  assert (Hwarn : forall txt info,
             requests (emit (EvConsole LWarn txt info) sent)
             = (requests w ++ [EvRequest (probeRequest env registryUrl)])%list).
  { intros. by rewrite requests_emit_console. }
  destruct (outcome reply) as [reason | r].
  - do 2 eexists. split; [reflexivity |]. simpl. by rewrite Hwarn.
  - destruct (status r =? 401).
    + destruct (if truthy_opt (headers r !! "www-authenticate")
                then matchRealm (or_default (headers r !! "www-authenticate") "")
                else None) as [realm |].
      * do 2 eexists. split; [reflexivity |]. by rewrite Hsent.
      * destruct (parseURL env registryUrl) as [[protocol hostname] |].
        -- do 2 eexists. split; [reflexivity |]. by rewrite Hsent.
        -- do 2 eexists. split; [reflexivity |]. simpl. by rewrite Hwarn.
    + do 2 eexists. split; [reflexivity |]. simpl. by rewrite Hwarn.
Qed.

(** The private-registry path: even with a valid token in the cache, every
    call first sends the discovery probe; the cached token is returned only
    if the probe yields an endpoint, and the call throws otherwise. *)
Lemma getPrivateRegistryToken_always_probes env registryAuth scope w c :
  truthy_opt (cred_username (ra_credentials registryAuth)) = true ->
  truthy_opt (cred_password (ra_credentials registryAuth)) = true ->
  tokenCache w !! registryCacheKey (ra_url registryAuth) scope = Some c ->
  now w + Z.of_N (elapsed (network env (length (requests w))
                             (probeRequest env (ra_url registryAuth)))) < expiresAt c ->
  exists res w',
    getPrivateRegistryToken env registryAuth scope w = (res, w')
    /\ requests w'
       = (requests w ++ [EvRequest (probeRequest env (ra_url registryAuth))])%list
    /\ (res = Ok (token c)
        \/ res = Throw (ThrownDockerHub
                          (AuthenticationError
                             ("Could not discover authentication endpoint for "
                              ++ ra_url registryAuth)))).
Proof.
  intros Hu Hp Hc Hlt. unfold getPrivateRegistryToken. rewrite Hu, Hp.
  cbn [negb orb]. unfold bind at 1.
  destruct (discoverAuthEndpoint_frame env (ra_url registryAuth) w)
    as (found & w1 & -> & Hcache & Hnow & Hreq).
  destruct (truthy_opt found).
  - cbn [negb]. unfold bind at 1.
    rewrite (validCached_some _ w1 c); [| by rewrite Hcache | by rewrite Hnow].
    do 2 eexists. split; [reflexivity |]. split; [exact Hreq | by left].
  - cbn [negb]. do 2 eexists. split; [reflexivity |]. split; [exact Hreq | by right].
Qed.

(** C7 at a failing input. The cache holds a token for the sample
    registry that is valid for another hour. A call for that registry and
    scope nevertheless sends the probe request: when the registry answers
    the challenge, the cached token comes back after one network call; when
    the registry cannot be reached, the call throws although the valid
    token is still cached. *)
Theorem getPrivateRegistryToken_ignores_cache :
  let w := Samples.worldWithRegistryToken in
  let key := registryCacheKey Samples.registryUrl None in
  let online := Samples.envOf Samples.anonymousConfig Samples.challenging in
  let offline := Samples.envOf Samples.anonymousConfig (fun _ _ => Samples.unreachable) in
  validCached key w
  = (Ok (Some {| token := Some "cached-token"; expiresAt := 3600000 |}), w)
  /\ (exists w',
        getPrivateRegistryToken online Samples.registryAuth None w
        = (Ok (Some "cached-token"), w')
        /\ requests w' = [EvRequest (probeRequest online Samples.registryUrl)])
  /\ (exists w',
        getPrivateRegistryToken offline Samples.registryAuth None w
        = (Throw (ThrownDockerHub
                    (AuthenticationError
                       "Could not discover authentication endpoint for https://registry.example.com")),
           w')
        /\ requests w' = [EvRequest (probeRequest offline Samples.registryUrl)]).
Proof.
  split; [| split].
  - reflexivity.
  - eexists. split; [vm_compute; reflexivity | reflexivity].
  - eexists. split; [vm_compute; reflexivity | reflexivity].
Qed.

End TokenReuse.

Section VulnerabilityScan.
Import JS Types Async ErrorHandler Retry Notions DockerHubClient.

(** Whatever the wrapper throws is the normalised error of a failed call of
    the wrapped operation. *)
Lemma attempts_throw_inv {T} env (fn : M T) context maxRetries :
  forall remaining attempt lastError w x w',
    (1 <= attempt)%nat ->
    attempts env fn context maxRetries lastError remaining attempt w = (Throw x, w') ->
    (remaining = O
     /\ x = match lastError with
            | Some e => ThrownDockerHub e
            | None => ThrownOther
            end)
    \/ exists w0 x0 w1,
         fn w0 = (Throw x0, w1) /\ x = ThrownDockerHub (handleError (now w1) x0).
Proof.
  induction remaining as [| k IH]; intros attempt lastError w x w' Ha H.
  - left. split; [reflexivity |]. simpl in H.
    destruct lastError; unfold throw in H; by injection H as <- _.
  - right. rewrite attempts_step in H by exact Ha.
    destruct (fn w) as [[v | x0] w1] eqn:Hfn; [discriminate H |].
    cbv zeta in H.
    destruct ((attempt =? maxRetries)%nat || negb (isRetryable (handleError (now w1) x0))).
    + injection H as <- _. by exists w, x0, w1.
    + apply IH in H; [| lia].
      destruct H as [[_ ->] | H]; [by exists w, x0, w1 | exact H].
Qed.

Lemma withErrorHandling_returns {T} env (fn : M T) context k w v w' :
  fn w = (Ok v, w') ->
  withErrorHandling env fn context (S k) w = (Ok v, w').
Proof.
  intros H. unfold withErrorHandling. rewrite attempts_step by lia. by rewrite H.
Qed.

Lemma handleError_is_normal t e : handleError t (ThrownDockerHub e) = e.
Proof. reflexivity. Qed.

(** The [catch] clause of [getVulnerabilities]. *)
Lemma getVulnerabilities_body_caught env repository tag namespace name w x w1 :
  parseRepository repository = Ok (namespace, name) ->
  scanRequest env namespace name tag w = (Throw x, w1) ->
  getVulnerabilities_body env repository tag w
  = (if is404 (handleError (now w1) x) then Ok None
     else Throw (ThrownDockerHub (handleError (now w1) x)), w1).
Proof.
  intros Hp Hs. unfold getVulnerabilities_body. rewrite Hp.
  unfold try_catch, bind at 1. rewrite Hs. unfold bind, clock.
  by destruct (is404 (handleError (now w1) x)).
Qed.

(** The body throws normalised errors only, except for a malformed
    repository reference, which the wrapper normalises. *)
Lemma getVulnerabilities_body_normal env repository tag namespace name w x w1 :
  parseRepository repository = Ok (namespace, name) ->
  getVulnerabilities_body env repository tag w = (Throw x, w1) ->
  x = ThrownDockerHub (handleError (now w1) x).
Proof.
  intros Hp. unfold getVulnerabilities_body. rewrite Hp.
  unfold try_catch.
  destruct (bind _ _ w) as [[report | error] w2]; [discriminate |].
  unfold bind, clock.
  destruct (is404 (handleError (now w2) error)); [discriminate |].
  unfold throw. intros H. by injection H as <- <-.
Qed.

(** A failure of the body is never a 404. *)
Lemma getVulnerabilities_body_throws env repository tag w x w1 :
  getVulnerabilities_body env repository tag w = (Throw x, w1) ->
  is404 (handleError (now w1) x) = false.
Proof.
  unfold getVulnerabilities_body.
  destruct (parseRepository repository) as [[namespace name] | x0] eqn:Hp.
  - unfold try_catch, bind at 1.
    destruct (scanRequest env namespace name tag w) as [[response | error] w2].
    + destruct (transformScanResults (data response) namespace name tag) as [report | x1] eqn:Ht.
      * discriminate.
      * unfold transformScanResults in Ht.
        destruct (scanFields (data response)); [discriminate Ht |].
        injection Ht as <-. unfold throw, bind, clock. simpl.
        intros H. by injection H as <- <-.
    + unfold bind, clock.
      destruct (is404 (handleError (now w2) error)) eqn:E; [discriminate |].
      unfold throw. intros H. injection H as <- <-. exact E.
  - unfold parseRepository in Hp.
    destruct (split "/" repository) as [| p0 [| p1 [| p2 rest]]]; try discriminate Hp;
      injection Hp as <-; unfold throw; intros H; by injection H as <- <-.
Qed.

(** An upstream 404 is normalised to an error with status code 404. *)
Lemma upstream_404_is404 t r m :
  status r = 404 ->
  is404 (handleError t (ThrownAxios {| ax_response := Some r; ax_request := true;
                                       ax_message := m |})) = true.
Proof. intros H. unfold handleError, handleAxiosError. simpl. by rewrite H. Qed.

(** The client's GET rejects an upstream 404 answer with an error that is
    normalised to status code 404. *)
Lemma get_rejects_404 env target hdrs w r :
  outcome (network env (length (requests w))
             {| method := GET; url := target;
                req_headers := hdrs ∪ DockerHubClient.defaultHeaders env;
                basic_auth := None; form := [] |}) = Received r ->
  status r = 404 ->
  exists x w1,
    get env target hdrs w = (Throw x, w1) /\ is404 (handleError (now w1) x) = true.
Proof.
  intros Hr Hst. unfold get, axios. rewrite Hr, Hst. cbn [status2xx Z.leb Z.ltb andb].
  do 2 eexists. split; [reflexivity |].
  apply upstream_404_is404. exact Hst.
Qed.

Lemma handleAxiosError_status t a r :
  ax_response a = Some r -> statusCode (handleAxiosError t a) = Some (status r).
Proof.
  intros Hr. unfold handleAxiosError. rewrite Hr. cbv zeta.
  destruct (Z.eqb_spec (status r) 401) as [-> |]; [reflexivity |].
  destruct (Z.eqb_spec (status r) 403); [reflexivity |].
  destruct (Z.eqb_spec (status r) 404); [reflexivity |].
  destruct (Z.eqb_spec (status r) 429) as [-> |]; [reflexivity |].
  destruct (Z.eqb_spec (status r) 500); [reflexivity |].
  by destruct (_ || _).
Qed.

Lemma waitForReset_ok key w :
  RateLimiterOps.waitForReset key w = (Ok tt, (RateLimiterOps.waitForReset key w).2).
Proof.
  unfold RateLimiterOps.waitForReset, bind, RateLimiterOps.getInfo, clock.
  destruct (gtb _ _); [reflexivity |]. by destruct (0 <? _).
Qed.

(** [execute] runs what follows the operation after the operation. *)
Lemma execute_bind {A B} env (c : M A) (k : A -> M B) key throwOnLimit w :
  RateLimiterOps.execute env (bind c k) key throwOnLimit w
  = bind (RateLimiterOps.execute env c key throwOnLimit) k w.
Proof.
  unfold RateLimiterOps.execute, bind.
  destruct (RateLimiterOps.isAllowed key w) as [[allowed | x] w1]; [| reflexivity].
  destruct allowed; cbn [negb].
  - reflexivity.
  - destruct throwOnLimit.
    + by destruct (RateLimiterOps.getInfo key w1) as [[info | x] w2].
    + by destruct (RateLimiterOps.waitForReset key w1) as [[[] | x] w2].
Qed.

Lemma scanRequest_split env namespace name tag w :
  scanRequest env namespace name tag w
  = bind (beforeScan env) (get env (scanURL namespace name tag)) w.
Proof. unfold scanRequest, beforeScan. apply execute_bind. Qed.

Lemma get_records_request env target hdrs w :
  requests (get env target hdrs w).2
  = (requests w
       ++ [EvRequest {| method := GET; url := target;
                        req_headers := hdrs ∪ DockerHubClient.defaultHeaders env;
                        basic_auth := None; form := [] |}])%list.
Proof.
  unfold get, axios.
  destruct (outcome _) as [reason | r]; [| destruct (status2xx (status r))];
    unfold requests; simpl; by rewrite List.filter_app.
Qed.

Lemma get_unanswered env target hdrs w reason :
  outcome (network env (length (requests w))
             {| method := GET; url := target;
                req_headers := hdrs ∪ DockerHubClient.defaultHeaders env;
                basic_auth := None; form := [] |}) = NoResponse reason ->
  get env target hdrs w
  = (Throw (ThrownAxios {| ax_response := None; ax_request := true;
                           ax_message := reason |}),
     (get env target hdrs w).2).
Proof. intros Hr. unfold get, axios. rewrite Hr. reflexivity. Qed.

Lemma get_rejected env target hdrs w r :
  outcome (network env (length (requests w))
             {| method := GET; url := target;
                req_headers := hdrs ∪ DockerHubClient.defaultHeaders env;
                basic_auth := None; form := [] |}) = Received r ->
  status2xx (status r) = false ->
  get env target hdrs w
  = (Throw (ThrownAxios {| ax_response := Some r; ax_request := true;
                           ax_message := "Request failed with status code "
                                         ++ pretty (status r) |}),
     (get env target hdrs w).2).
Proof. intros Hr Hst. unfold get, axios. rewrite Hr, Hst. reflexivity. Qed.

(** The default registry's token is refused only with an
    [AuthenticationError]. *)
Lemma getDockerHubToken_throws_auth env scope w x w' :
  AuthManager.getDockerHubToken env scope w = (Throw x, w') ->
  exists m, x = ThrownDockerHub (AuthenticationError m).
Proof.
  unfold AuthManager.getDockerHubToken.
  destruct (truthy_opt (accessToken (config env))); [discriminate |].
  destruct (negb _ || negb _); [discriminate |].
  unfold bind at 1, AuthManager.validCached.
  destruct (match tokenCache w !! _ with Some _ => _ | None => _ end); [discriminate |].
  unfold try_catch.
  destruct (bind _ _ w) as [[tok | x0] w1]; [discriminate |].
  unfold AuthManager.onDockerHubFailure, bind at 1, clock. unfold bind at 1.
  rewrite logError_ok.
  destruct (handleError (now w1) x0) as [m c resp | m r | m] eqn:He; simpl;
    try discriminate.
  intros H. injection H as <- _. by exists m.
Qed.

Lemma beforeScan_throws_auth env w x w0 :
  beforeScan env w = (Throw x, w0) ->
  exists m, x = ThrownDockerHub (AuthenticationError m).
Proof.
  unfold beforeScan, RateLimiterOps.execute, bind at 1, RateLimiterOps.isAllowed.
  destruct (RateLimiter.isAllowed (now w) RateLimiter.defaultKey (limiter w))
    as [allowed rl].
  unfold bind at 1.
  assert (Hgate : exists w1,
             (if negb allowed
              then RateLimiterOps.waitForReset RateLimiter.defaultKey
              else ret tt) (set_limiter rl w) = (Ok tt, w1)).
  { destruct allowed; cbn [negb]; [by eexists |]. eexists. apply waitForReset_ok. }
  destruct Hgate as [w1 ->].
  rewrite createAuthHeaders_default.
  destruct (AuthManager.getDockerHubToken env None w1) as [[tok | x0] w2] eqn:Htok;
    [discriminate |].
  intros H. injection H as <- _. by eapply getDockerHubToken_throws_auth.
Qed.

(** An error of the body that is not retryable is thrown by the wrapper at
    once, after the report of the attempt. *)
Lemma getVulnerabilities_throws_at_once env repository tag w e w1 :
  getVulnerabilities_body env repository (default "latest" tag) w
  = (Throw (ThrownDockerHub e), w1) ->
  isRetryable e = false ->
  getVulnerabilities env repository tag w
  = (Throw (ThrownDockerHub e),
     (logAttempt env (Some "DockerHub.getVulnerabilities") 3 1 e w1).2).
Proof.
  intros Hbody Hno. unfold getVulnerabilities, withErrorHandling, defaultMaxRetries.
  rewrite attempts_step, Hbody. cbv zeta. cbn [handleError]. rewrite Hno.
  reflexivity.
Qed.

(** C8. For a well-formed repository reference, let the scan request be
    ready to be sent (the limiter's check and the headers are done). When
    the scan endpoint answers 404, the body and with it
    [getVulnerabilities] resolve to null at once, after that one request. When the endpoint does not answer, or
    answers with another status outside 2xx, the body throws the
    normalised error of that failure, and [getVulnerabilities] throws it at
    once unless it is retryable. When the headers cannot be made because
    the credentials are refused, that [AuthenticationError] is thrown at
    once. Whatever [getVulnerabilities] finally throws is a normalised
    error thrown by a run of its body, and never a 404. *)
Theorem getVulnerabilities_not_found :
  forall (env : Env) (repository : string) (tag : option string) (w : World)
         (namespace name : string),
    parseRepository repository = Ok (namespace, name) ->
    let target := scanURL namespace name (default "latest" tag) in
    let request hdrs :=
      {| method := GET; url := target;
         req_headers := hdrs ∪ DockerHubClient.defaultHeaders env;
         basic_auth := None; form := [] |} in
    let reported e w1 :=
      (logAttempt env (Some "DockerHub.getVulnerabilities") 3 1 e w1).2 in
    let surfaced sent a :=
      let e := handleAxiosError (now sent) a in
      getVulnerabilities_body env repository (default "latest" tag) w
      = (Throw (ThrownDockerHub e), sent)
      /\ (isRetryable e = false ->
          getVulnerabilities env repository tag w
          = (Throw (ThrownDockerHub e), reported e sent)) in
    (forall hdrs w0 r,
        beforeScan env w = (Ok hdrs, w0) ->
        outcome (network env (length (requests w0)) (request hdrs)) = Received r ->
        status r = 404 ->
        getVulnerabilities_body env repository (default "latest" tag) w
        = (Ok None, (get env target hdrs w0).2)
        /\ getVulnerabilities env repository tag w = (Ok None, (get env target hdrs w0).2)
        /\ requests (get env target hdrs w0).2
           = (requests w0 ++ [EvRequest (request hdrs)])%list)
    /\ (forall hdrs w0 reason,
          beforeScan env w = (Ok hdrs, w0) ->
          outcome (network env (length (requests w0)) (request hdrs)) = NoResponse reason ->
          surfaced (get env target hdrs w0).2
            {| ax_response := None; ax_request := true; ax_message := reason |})
    /\ (forall hdrs w0 r,
          beforeScan env w = (Ok hdrs, w0) ->
          outcome (network env (length (requests w0)) (request hdrs)) = Received r ->
          status2xx (status r) = false ->
          status r <> 404 ->
          surfaced (get env target hdrs w0).2
            {| ax_response := Some r; ax_request := true;
               ax_message := "Request failed with status code " ++ pretty (status r) |})
    /\ (forall x w0,
          beforeScan env w = (Throw x, w0) ->
          exists m,
            x = ThrownDockerHub (AuthenticationError m)
            /\ getVulnerabilities env repository tag w
               = (Throw x, reported (AuthenticationError m) w0))
    /\ (forall x w',
          getVulnerabilities env repository tag w = (Throw x, w') ->
          exists e wa wb,
            x = ThrownDockerHub e
            /\ is404 e = false
            /\ getVulnerabilities_body env repository (default "latest" tag) wa
               = (Throw x, wb)).
Proof.
  intros env repository tag w namespace name Hp target request reported surfaced.
  assert (Hfailed : forall hdrs w0 a,
            beforeScan env w = (Ok hdrs, w0) ->
            get env target hdrs w0 = (Throw (ThrownAxios a), (get env target hdrs w0).2) ->
            is404 (handleAxiosError (now (get env target hdrs w0).2) a) = false ->
            surfaced (get env target hdrs w0).2 a).
  { intros hdrs w0 a Hready Hget Hnot.
    assert (Hbody : getVulnerabilities_body env repository (default "latest" tag) w
                    = (Throw (ThrownDockerHub
                                (handleAxiosError (now (get env target hdrs w0).2) a)),
                       (get env target hdrs w0).2)).
    { rewrite (getVulnerabilities_body_caught env repository (default "latest" tag)
                 namespace name w (ThrownAxios a) (get env target hdrs w0).2 Hp).
      - cbn [handleError]. by rewrite Hnot.
      - rewrite scanRequest_split. unfold bind. rewrite Hready. exact Hget. }
    split; [exact Hbody |]. intros Hno.
    by apply getVulnerabilities_throws_at_once. }
  split; [| split; [| split; [| split]]].
  - intros hdrs w0 r Hready Hr Hst.
    assert (Hbody : getVulnerabilities_body env repository (default "latest" tag) w
                    = (Ok None, (get env target hdrs w0).2));
      [| split; [exact Hbody | split; [| apply get_records_request]];
         unfold getVulnerabilities, defaultMaxRetries;
         by apply withErrorHandling_returns].
    assert (H2xx : status2xx (status r) = false) by (by rewrite Hst).
    rewrite (getVulnerabilities_body_caught env repository (default "latest" tag)
               namespace name w
               (ThrownAxios {| ax_response := Some r; ax_request := true;
                               ax_message := "Request failed with status code "
                                             ++ pretty (status r) |})
               (get env target hdrs w0).2 Hp).
    + by rewrite (upstream_404_is404 _ r _ Hst).
    + rewrite scanRequest_split. unfold bind. rewrite Hready.
      by apply get_rejected.
  - intros hdrs w0 reason Hready Hr. apply Hfailed; [exact Hready | | reflexivity].
    by apply get_unanswered.
  - intros hdrs w0 r Hready Hr H2xx Hst. apply Hfailed; [exact Hready | |].
    + by apply get_rejected.
    + unfold is404. erewrite handleAxiosError_status by reflexivity.
      by apply Z.eqb_neq.
  - intros x w0 Hready.
    destruct (beforeScan_throws_auth env w x w0 Hready) as [m ->].
    exists m. split; [reflexivity |].
    apply getVulnerabilities_throws_at_once; [| reflexivity].
    rewrite (getVulnerabilities_body_caught env repository (default "latest" tag)
               namespace name w (ThrownDockerHub (AuthenticationError m)) w0 Hp).
    + reflexivity.
    + rewrite scanRequest_split. unfold bind. by rewrite Hready.
  - intros x w' H. unfold getVulnerabilities, withErrorHandling, defaultMaxRetries in H.
    apply attempts_throw_inv in H; [| lia].
    destruct H as [[H _] | (wa & x0 & wb & Hfn & ->)]; [discriminate H |].
    pose proof (getVulnerabilities_body_throws _ _ _ _ _ _ Hfn) as Hnot.
    assert (Hnormal : x0 = ThrownDockerHub (handleError (now wb) x0)).
    { by eapply getVulnerabilities_body_normal. }
    exists (handleError (now wb) x0), wa, wb.
    split; [reflexivity |]. split; [exact Hnot |]. by rewrite <- Hnormal.
Qed.

Lemma getVulnerabilities_not_found_witness :
  let w := Samples.worldWith 0 Samples.defaultLimiter in
  (exists w1,
      getVulnerabilities (Samples.envOf Samples.anonymousConfig (Samples.always 404))
        "some/repo" (Some "latest") w = (Ok None, w1)
      /\ length (requests w1) = 1%nat)
  /\ (exists e w1,
        getVulnerabilities (Samples.envOf Samples.anonymousConfig (Samples.always 403))
          "some/repo" (Some "latest") w = (Throw (ThrownDockerHub e), w1)
        /\ statusCode e = Some 403
        /\ length (requests w1) = 1%nat).
Proof.
  intros w. split.
  - eexists.
    destruct (proj1 (getVulnerabilities_not_found
                       (Samples.envOf Samples.anonymousConfig (Samples.always 404))
                       "some/repo" (Some "latest") w "some" "repo" eq_refl)
                ∅ (set_limiter (RateLimiter.isAllowed 0 "default" Samples.defaultLimiter).2 w)
                {| status := 404; headers := ∅; data := PNothing |}
                eq_refl eq_refl eq_refl) as (_ & Hnull & Hreq).
    split; [exact Hnull | by rewrite Hreq].
  - do 2 eexists.
    destruct (proj1 (proj2 (proj2 (getVulnerabilities_not_found
                       (Samples.envOf Samples.anonymousConfig (Samples.always 403))
                       "some/repo" (Some "latest") w "some" "repo" eq_refl)))
                ∅ (set_limiter (RateLimiter.isAllowed 0 "default" Samples.defaultLimiter).2 w)
                {| status := 403; headers := ∅; data := PNothing |}
                eq_refl eq_refl eq_refl ltac:(discriminate)) as [_ Hthrown].
    split; [apply Hthrown; reflexivity |]. split; [reflexivity |].
    vm_compute. reflexivity.
Defined.

End VulnerabilityScan.

(* ===================================================================== *)
(** ** Further properties: the rate limiter *)
(* ===================================================================== *)

Section RateLimiterFurther.
Import JS Types Async Scenarios.

Lemma set_entry_same key e rl :
  RateLimiter.limits rl !! key = Some e -> RateLimiter.set_entry key e rl = rl.
Proof.
  intros H. destruct rl as [lim mx win]. unfold RateLimiter.set_entry. simpl in *.
  f_equal. by apply insert_id.
Qed.

Lemma allowedCount_cons b results :
  allowedCount (b :: results)
  = ((if b then 1 else 0) + allowedCount results)%nat.
Proof. unfold allowedCount. by destruct b. Qed.

Lemma callsAt_cons t rest key rl :
  callsAt (t :: rest) key rl
  = ((RateLimiter.isAllowed t key rl).1
       :: (callsAt rest key (RateLimiter.isAllowed t key rl).2).1,
     (callsAt rest key (RateLimiter.isAllowed t key rl).2).2).
Proof.
  simpl. destruct (RateLimiter.isAllowed t key rl) as [b rl1]. simpl.
  by destruct (callsAt rest key rl1).
Qed.

(** Inside an open window the calls are allowed until the count reaches the
    maximum and denied from then on. *)
Lemma callsAt_open_window key :
  forall rest rl c resetAt,
    RateLimiter.limits rl !! key
    = Some {| RateLimiter.count := Num c; RateLimiter.resetTime := resetAt |} ->
    c <= RateLimiter.maxRequests rl ->
    Forall (fun t => t < resetAt) rest ->
    allowedCount (callsAt rest key rl).1
    = Nat.min (length rest) (Z.to_nat (RateLimiter.maxRequests rl - c)).
Proof.
  induction rest as [| t rest IH]; intros rl c resetAt He Hc Hrest; [reflexivity |].
  apply Forall_cons in Hrest as [Ht Hrest].
  rewrite callsAt_cons. cbn [fst]. rewrite allowedCount_cons.
  destruct (Z.lt_ge_cases c (RateLimiter.maxRequests rl)) as [Hlt | Hge].
  - rewrite (isAllowed_counted t key rl _ c He Ht eq_refl Hlt). cbn [fst snd].
    rewrite (IH _ (c + 1) resetAt); [| apply set_entry_lookup | simpl; lia | exact Hrest].
    simpl RateLimiter.maxRequests. simpl length. lia.
  - rewrite (isAllowed_denied t key rl _ c He Ht eq_refl Hge). cbn [fst snd].
    rewrite (IH _ c resetAt He Hc Hrest). simpl length. lia.
Qed.

(** X1. Starting from a key without entry, with a maximum of at least 1,
    any number of calls made before the first window ends are allowed
    exactly up to the maximum: the number of allowed calls is the smaller of
    the number of calls and [maxRequests]. *)
Theorem isAllowed_window_bound :
  forall (key : string) (rl : RateLimiter.t) (t1 : Z) (rest : list Z),
    RateLimiter.limits rl !! key = None ->
    1 <= RateLimiter.maxRequests rl ->
    Forall (fun t => t < t1 + RateLimiter.windowMs rl) rest ->
    allowedCount (callsAt (t1 :: rest) key rl).1
    = Nat.min (S (length rest)) (Z.to_nat (RateLimiter.maxRequests rl)).
Proof.
  intros key rl t1 rest Hnone Hmax Hrest.
  rewrite callsAt_cons. cbn [fst]. rewrite allowedCount_cons.
  rewrite (isAllowed_fresh t1 key rl Hnone). cbn [fst snd].
  rewrite (callsAt_open_window key rest _ 1 (t1 + RateLimiter.windowMs rl));
    [| apply set_entry_lookup | simpl; lia | exact Hrest].
  simpl RateLimiter.maxRequests. lia.
Qed.

Lemma isAllowed_window_bound_witness :
  allowedCount (callsAt [0; 10; 20; 30; 999] "k" Samples.limiter_2_1000).1 = 2%nat.
Proof.
  apply (isAllowed_window_bound "k" Samples.limiter_2_1000 0 [10; 20; 30; 999]).
  - reflexivity.
  - simpl. lia.
  - repeat constructor; simpl; lia.
Defined.

(** X2. Operations on one key never change the entry of another key:
    [isAllowed], [updateFromHeaders] and [clear] leave every other key's
    entry as it was. *)
Theorem limiter_keys_isolated :
  forall (key other : string) (now : Z) (headers : gmap string string)
         (rl : RateLimiter.t),
    key <> other ->
    RateLimiter.limits (RateLimiter.isAllowed now key rl).2 !! other
    = RateLimiter.limits rl !! other
    /\ RateLimiter.limits (RateLimiter.updateFromHeaders headers key rl) !! other
       = RateLimiter.limits rl !! other
    /\ RateLimiter.limits (RateLimiter.clear key rl) !! other
       = RateLimiter.limits rl !! other.
Proof.
  intros key other now headers rl Hne. split; [| split].
  - unfold RateLimiter.isAllowed.
    destruct (RateLimiter.limits rl !! key) as [e |].
    + destruct (RateLimiter.resetTime e <=? now);
        [simpl; by rewrite lookup_insert_ne |].
      destruct (geb (RateLimiter.count e) (Num (RateLimiter.maxRequests rl)));
        [reflexivity | simpl; by rewrite lookup_insert_ne].
    + simpl. by rewrite lookup_insert_ne.
  - unfold RateLimiter.updateFromHeaders.
    destruct (parseInt (RateLimiter.headerOr0 headers "x-ratelimit-limit" "ratelimit-limit"))
      as [| l];
      destruct (parseInt (RateLimiter.headerOr0 headers "x-ratelimit-reset" "ratelimit-reset"))
      as [| r]; try destruct (0 <? l); try destruct (0 <? r); simpl;
      rewrite ?lookup_insert_ne by exact Hne; reflexivity.
  - simpl. by rewrite lookup_delete_ne.
Qed.

Lemma limiter_keys_isolated_witness :
  RateLimiter.limits (RateLimiter.isAllowed 500 "other" Samples.exhaustedLimiter).2
    !! "default"
  = RateLimiter.limits Samples.exhaustedLimiter !! "default"
  /\ RateLimiter.limits
       (RateLimiter.updateFromHeaders Samples.syncHeaders "other" Samples.exhaustedLimiter)
       !! "default"
     = RateLimiter.limits Samples.exhaustedLimiter !! "default"
  /\ RateLimiter.limits (RateLimiter.clear "other" Samples.exhaustedLimiter) !! "default"
     = RateLimiter.limits Samples.exhaustedLimiter !! "default".
Proof.
  apply (limiter_keys_isolated "other" "default" 500 Samples.syncHeaders
           Samples.exhaustedLimiter).
  discriminate.
Defined.

(** X3. [getInfo] agrees with [isAllowed]: for a key that [isAllowed]
    would deny, [getInfo] reports no remaining request and the reset time of
    the open window; and whenever [getInfo] reports a positive number of
    remaining requests, [isAllowed] allows the call. *)
Theorem getInfo_agrees_with_isAllowed :
  forall (key : string) (now : Z) (rl : RateLimiter.t),
    ((RateLimiter.isAllowed now key rl).1 = false ->
     exists e,
       RateLimiter.limits rl !! key = Some e
       /\ RateLimiter.getInfo now key rl
          = {| RateLimiter.remaining := Num 0;
               RateLimiter.reset := RateLimiter.resetTime e;
               RateLimiter.limit := RateLimiter.maxRequests rl |})
    /\ (forall r,
          RateLimiter.remaining (RateLimiter.getInfo now key rl) = Num r -> 0 < r ->
          (RateLimiter.isAllowed now key rl).1 = true).
Proof.
  intros key now rl. split.
  - intros H. destruct (isAllowed_false_inv _ _ _ H) as (_ & e & c & He & Hlt & Hc & Hmax).
    exists e. split; [exact He |]. unfold RateLimiter.getInfo. rewrite He.
    destruct (Z.leb_spec (RateLimiter.resetTime e) now); [lia |].
    rewrite Hc. simpl. do 2 f_equal. lia.
  - intros r Hr Hpos.
    destruct (RateLimiter.isAllowed now key rl).1 eqn:E; [reflexivity |].
    destruct (isAllowed_false_inv _ _ _ E) as (_ & e & c & He & Hlt & Hc & Hmax).
    unfold RateLimiter.getInfo in Hr. rewrite He in Hr.
    destruct (Z.leb_spec (RateLimiter.resetTime e) now); [lia |].
    simpl in Hr. rewrite Hc in Hr. simpl in Hr. injection Hr as Hr. lia.
Qed.

Lemma getInfo_agrees_with_isAllowed_witness :
  (exists e,
      RateLimiter.limits Samples.exhaustedLimiter !! "default" = Some e
      /\ RateLimiter.getInfo 400 "default" Samples.exhaustedLimiter
         = {| RateLimiter.remaining := Num 0;
              RateLimiter.reset := RateLimiter.resetTime e;
              RateLimiter.limit := 2 |})
  /\ (RateLimiter.isAllowed 400 "default" halfUsedLimiter).1 = true.
Proof.
  split.
  - apply (proj1 (getInfo_agrees_with_isAllowed "default" 400 Samples.exhaustedLimiter)).
    reflexivity.
  - apply (proj2 (getInfo_agrees_with_isAllowed "default" 400 halfUsedLimiter) 1);
      [reflexivity | lia].
Defined.

(** X4. Clearing makes a key fresh: after [clear(key)], and for every key
    after [clearAll()], the next [isAllowed] is allowed whatever the entry
    was, and starts a new window with count 1. *)
Theorem clear_makes_fresh :
  forall (key : string) (now : Z) (rl : RateLimiter.t),
    let fresh := {| RateLimiter.count := Num 1;
                    RateLimiter.resetTime := now + RateLimiter.windowMs rl |} in
    (RateLimiter.isAllowed now key (RateLimiter.clear key rl)).1 = true
    /\ RateLimiter.limits (RateLimiter.isAllowed now key (RateLimiter.clear key rl)).2 !! key
       = Some fresh
    /\ (RateLimiter.isAllowed now key (RateLimiter.clearAll rl)).1 = true
    /\ RateLimiter.limits (RateLimiter.isAllowed now key (RateLimiter.clearAll rl)).2 !! key
       = Some fresh
    /\ RateLimiter.maxRequests (RateLimiter.clear key rl) = RateLimiter.maxRequests rl
    /\ RateLimiter.maxRequests (RateLimiter.clearAll rl) = RateLimiter.maxRequests rl.
Proof.
  intros key now rl fresh.
  assert (H1 : RateLimiter.limits (RateLimiter.clear key rl) !! key = None)
    by (simpl; apply lookup_delete_eq).
  assert (H2 : RateLimiter.limits (RateLimiter.clearAll rl) !! key = None)
    by (simpl; apply lookup_empty).
  rewrite (isAllowed_fresh now key _ H1), (isAllowed_fresh now key _ H2).
  cbn [fst snd]. repeat split; apply set_entry_lookup.
Qed.

End RateLimiterFurther.

Section RateLimiterHeadersFurther.
Import JS Types Async Scenarios.

Lemma headerOr0_absent (headers : gmap string string) a b :
  headers !! a = None -> headers !! b = None -> RateLimiter.headerOr0 headers a b = "0".
Proof. intros Ha Hb. unfold RateLimiter.headerOr0, or_else. by rewrite Ha, Hb. Qed.

(** X5. A response without any of the six rate-limit headers teaches the
    limiter nothing: [updateFromHeaders] returns it unchanged (maximum,
    window and every entry). *)
Theorem updateFromHeaders_without_headers :
  forall (headers : gmap string string) (key : string) (rl : RateLimiter.t),
    headers !! "x-ratelimit-limit" = None -> headers !! "ratelimit-limit" = None ->
    headers !! "x-ratelimit-remaining" = None -> headers !! "ratelimit-remaining" = None ->
    headers !! "x-ratelimit-reset" = None -> headers !! "ratelimit-reset" = None ->
    RateLimiter.updateFromHeaders headers key rl = rl.
Proof.
  intros headers key rl H1 H2 H3 H4 H5 H6. unfold RateLimiter.updateFromHeaders.
  rewrite (headerOr0_absent _ _ _ H1 H2), (headerOr0_absent _ _ _ H5 H6).
  reflexivity.
Qed.

Lemma updateFromHeaders_without_headers_witness :
  RateLimiter.updateFromHeaders {[ "content-type" := "application/json" ]} "default"
    Samples.exhaustedLimiter
  = Samples.exhaustedLimiter.
Proof.
  apply (updateFromHeaders_without_headers {[ "content-type" := "application/json" ]});
    reflexivity.
Defined.

(** X6. An unreadable count switches the limit off. When the reset header
    is a positive number but the limit or the remaining header does not
    start with a number, the key's count becomes [NaN]; until the reported
    reset time every [isAllowed] is then allowed and leaves the limiter as
    it is, however many calls are made. *)
Theorem updateFromHeaders_unreadable_count :
  forall (headers : gmap string string) (key : string) (rl : RateLimiter.t) (r : Z),
    parseInt (RateLimiter.headerOr0 headers "x-ratelimit-reset" "ratelimit-reset") = Num r ->
    0 < r ->
    (parseInt (RateLimiter.headerOr0 headers "x-ratelimit-remaining" "ratelimit-remaining")
     = NaN
     \/ parseInt (RateLimiter.headerOr0 headers "x-ratelimit-limit" "ratelimit-limit") = NaN) ->
    let rl' := RateLimiter.updateFromHeaders headers key rl in
    RateLimiter.limits rl' !! key
    = Some {| RateLimiter.count := NaN; RateLimiter.resetTime := r * 1000 |}
    /\ forall times,
         Forall (fun t => t < r * 1000) times ->
         callsAt times key rl' = (map (fun _ => true) times, rl').
Proof.
  intros headers key rl r Hr Hpos Hnan rl'.
  assert (He : RateLimiter.limits rl' !! key
               = Some {| RateLimiter.count := NaN; RateLimiter.resetTime := r * 1000 |}).
  { subst rl'. rewrite (updateFromHeaders_entry headers key rl r Hr Hpos).
    destruct Hnan as [-> | ->]; [| reflexivity].
    by destruct (parseInt (RateLimiter.headerOr0 headers "x-ratelimit-limit"
                             "ratelimit-limit")). }
  split; [exact He |].
  assert (Hstep : forall t, t < r * 1000 -> RateLimiter.isAllowed t key rl' = (true, rl')).
  { intros t Ht. unfold RateLimiter.isAllowed. rewrite He. cbn [RateLimiter.resetTime].
    destruct (Z.leb_spec (r * 1000) t); [lia |]. cbn [RateLimiter.count geb incr].
    by rewrite (set_entry_same key _ rl' He). }
  induction times as [| t times IH]; intros Hall; [reflexivity |].
  apply Forall_cons in Hall as [Ht Hall].
  rewrite callsAt_cons, (Hstep t Ht). cbn [fst snd]. by rewrite (IH Hall).
Qed.

Lemma updateFromHeaders_unreadable_count_witness :
  let rl' := RateLimiter.updateFromHeaders brokenRemainingHeaders "default"
               Samples.limiter_2_1000 in
  RateLimiter.limits rl' !! "default"
  = Some {| RateLimiter.count := NaN; RateLimiter.resetTime := 2000000000 * 1000 |}
  /\ forall times,
       Forall (fun t => t < 2000000000 * 1000) times ->
       callsAt times "default" rl' = (map (fun _ => true) times, rl').
Proof.
  apply (updateFromHeaders_unreadable_count brokenRemainingHeaders "default"
           Samples.limiter_2_1000 2000000000).
  - reflexivity.
  - lia.
  - left. reflexivity.
Defined.

End RateLimiterHeadersFurther.

Section RateLimiterExecuteFurther.
Import JS Types Async Scenarios.

Lemma getInfo_denied_reset key now rl :
  (RateLimiter.isAllowed now key rl).1 = false ->
  exists e,
    RateLimiter.limits rl !! key = Some e
    /\ RateLimiter.getInfo now key rl
       = {| RateLimiter.remaining := Num 0;
            RateLimiter.reset := RateLimiter.resetTime e;
            RateLimiter.limit := RateLimiter.maxRequests rl |}.
Proof.
  intros H. destruct (isAllowed_false_inv _ _ _ H) as (_ & e & c & He & Hlt & Hc & Hmax).
  exists e. split; [exact He |]. unfold RateLimiter.getInfo. rewrite He.
  destruct (Z.leb_spec (RateLimiter.resetTime e) now); [lia |].
  rewrite Hc. simpl. do 2 f_equal. lia.
Qed.

(** X7. With [throwOnLimit] set, a denied call throws a [RateLimitError]
    that carries the reset time of the open window; the operation is not
    run and the world is left as it was. *)
Theorem execute_throws_when_limited :
  forall (T : Type) (env : Env) (fn : M T) (key : string) (w : World),
    (RateLimiter.isAllowed (now w) key (limiter w)).1 = false ->
    exists e,
      RateLimiter.limits (limiter w) !! key = Some e
      /\ RateLimiterOps.execute env fn key true w
         = (Throw (ThrownDockerHub
                     (RateLimitError
                        ("Rate limit exceeded. Try again at "
                         ++ toISOString env (RateLimiter.resetTime e))
                        (Num (RateLimiter.resetTime e)))), w).
Proof.
  intros T env fn key w Hdenied.
  destruct (getInfo_denied_reset key (now w) (limiter w) Hdenied) as (e & He & Hinfo).
  exists e. split; [exact He |].
  destruct (isAllowed_false_inv _ _ _ Hdenied) as (Hsame & _).
  unfold RateLimiterOps.execute, bind at 1, RateLimiterOps.isAllowed.
  destruct (RateLimiter.isAllowed (now w) key (limiter w)) as [allowed rl].
  simpl in Hdenied, Hsame. subst allowed rl. rewrite set_limiter_same.
  cbn [negb]. unfold bind at 1. unfold bind at 1, RateLimiterOps.getInfo.
  by rewrite Hinfo.
Qed.

Lemma execute_throws_when_limited_witness :
  let env := Samples.envOf Samples.anonymousConfig (Samples.always 200) in
  let w := Samples.worldWith 400 Samples.exhaustedLimiter in
  exists e,
    RateLimiter.limits (limiter w) !! "default" = Some e
    /\ RateLimiterOps.execute env clock "default" true w
       = (Throw (ThrownDockerHub
                   (RateLimitError
                      ("Rate limit exceeded. Try again at "
                       ++ toISOString env (RateLimiter.resetTime e))
                      (Num (RateLimiter.resetTime e)))), w).
Proof.
  intros env w. apply (execute_throws_when_limited Z env clock "default" w).
  reflexivity.
Defined.

(** When the call is allowed, [execute] runs the operation at once:
    its result is that of the operation started in the world where only the
    limiter has counted the call, with no waiting, whatever [throwOnLimit]
    is. *)
Lemma execute_runs_when_allowed :
  forall (T : Type) (env : Env) (fn : M T) (key : string) (throwOnLimit : bool)
         (w : World),
    (RateLimiter.isAllowed (now w) key (limiter w)).1 = true ->
    RateLimiterOps.execute env fn key throwOnLimit w
    = fn (set_limiter (RateLimiter.isAllowed (now w) key (limiter w)).2 w).
Proof.
  intros T env fn key throwOnLimit w Hallowed.
  unfold RateLimiterOps.execute, bind at 1, RateLimiterOps.isAllowed.
  destruct (RateLimiter.isAllowed (now w) key (limiter w)) as [allowed rl].
  simpl in Hallowed. subst allowed. reflexivity.
Qed.

Lemma execute_runs_when_allowed_witness :
  let env := Samples.envOf Samples.anonymousConfig (Samples.always 200) in
  let w := Samples.worldWith 400 halfUsedLimiter in
  RateLimiterOps.execute env clock "default" true w
  = clock (set_limiter (RateLimiter.isAllowed (now w) "default" (limiter w)).2 w).
Proof.
  intros env w. apply (execute_runs_when_allowed Z env clock "default" true w).
  reflexivity.
Defined.

(** X8. After [waitForReset(key)] the next [isAllowed(key)] is allowed,
    as long as the key's reset time is at most [TIMEOUT_MAX] ms ahead: the
    wait never throws, never touches the limiter, and ends at a time at
    which the key has a free request or a new window. For a key that is
    denied and whose reset time is further ahead, the wait ends after 1 ms
    and the key is still denied. *)
Theorem waitForReset_then_allowed :
  forall (key : string) (w : World),
    ((forall e, RateLimiter.limits (limiter w) !! key = Some e ->
                RateLimiter.resetTime e - now w <= TIMEOUT_MAX) ->
     exists w',
       RateLimiterOps.waitForReset key w = (Ok tt, w')
       /\ limiter w' = limiter w
       /\ now w <= now w'
       /\ (RateLimiter.isAllowed (now w') key (limiter w')).1 = true)
    /\ (forall e,
          RateLimiter.limits (limiter w) !! key = Some e ->
          (RateLimiter.isAllowed (now w) key (limiter w)).1 = false ->
          TIMEOUT_MAX < RateLimiter.resetTime e - now w ->
          exists w',
            RateLimiterOps.waitForReset key w = (Ok tt, w')
            /\ limiter w' = limiter w
            /\ now w' = now w + 1
            /\ (RateLimiter.isAllowed (now w') key (limiter w')).1 = false).
Proof.
  intros key w. split.
  - intros Hnear.
    unfold RateLimiterOps.waitForReset, bind at 1, RateLimiterOps.getInfo.
    unfold RateLimiter.getInfo, RateLimiter.isAllowed.
    destruct (RateLimiter.limits (limiter w) !! key) as [e |] eqn:He.
    + specialize (Hnear e eq_refl).
      destruct (Z.leb_spec (RateLimiter.resetTime e) (now w)) as [Hel | Hopen].
      * cbn [RateLimiter.remaining RateLimiter.reset].
        destruct (gtb (Num (RateLimiter.maxRequests (limiter w) - 1)) (Num 0)).
        -- exists w. rewrite He. repeat split; try lia.
           by destruct (Z.leb_spec (RateLimiter.resetTime e) (now w)); [| lia].
        -- unfold bind, clock.
           destruct (0 <? now w + RateLimiter.windowMs (limiter w) - now w) eqn:Hw.
           ++ eexists. split; [reflexivity |]. simpl. rewrite He.
              pose proof (timerDelay_ge_1 (now w + RateLimiter.windowMs (limiter w) - now w)).
              repeat split; try lia.
              by destruct (Z.leb_spec (RateLimiter.resetTime e)
                             (now w + timerDelay (now w + RateLimiter.windowMs (limiter w)
                                                  - now w)));
                [| lia].
           ++ exists w. rewrite He. repeat split; try lia.
              by destruct (Z.leb_spec (RateLimiter.resetTime e) (now w)); [| lia].
      * cbn [RateLimiter.remaining RateLimiter.reset].
        assert (Hd : timerDelay (RateLimiter.resetTime e - now w)
                     = RateLimiter.resetTime e - now w)
          by (apply timerDelay_in_range; lia).
        destruct (RateLimiter.count e) as [| c] eqn:Hc.
        -- cbn [sub max0 gtb]. unfold bind, clock.
           destruct (Z.ltb_spec 0 (RateLimiter.resetTime e - now w)); [| lia].
           eexists. split; [reflexivity |]. simpl. rewrite He, Hd.
           repeat split; try lia.
           by destruct (Z.leb_spec (RateLimiter.resetTime e)
                          (now w + (RateLimiter.resetTime e - now w))); [| lia].
        -- cbn [sub max0 gtb].
           destruct (Z.ltb_spec 0 (Z.max 0 (RateLimiter.maxRequests (limiter w) - c)))
             as [Hfree | Hfull].
           ++ exists w. rewrite He. repeat split; try lia.
              destruct (Z.leb_spec (RateLimiter.resetTime e) (now w)); [reflexivity |].
              rewrite Hc. cbn [geb].
              by destruct (Z.leb_spec (RateLimiter.maxRequests (limiter w)) c); [lia |].
           ++ unfold bind, clock.
              destruct (Z.ltb_spec 0 (RateLimiter.resetTime e - now w)); [| lia].
              eexists. split; [reflexivity |]. simpl. rewrite He, Hd.
              repeat split; try lia.
              by destruct (Z.leb_spec (RateLimiter.resetTime e)
                             (now w + (RateLimiter.resetTime e - now w))); [| lia].
    + cbn [RateLimiter.remaining RateLimiter.reset].
      destruct (gtb (Num (RateLimiter.maxRequests (limiter w) - 1)) (Num 0)).
      * exists w. rewrite He. repeat split; lia.
      * unfold bind, clock.
        destruct (0 <? now w + RateLimiter.windowMs (limiter w) - now w) eqn:Hw.
        -- eexists. split; [reflexivity |]. simpl. rewrite He.
           pose proof (timerDelay_ge_1 (now w + RateLimiter.windowMs (limiter w) - now w)).
           repeat split; lia.
        -- exists w. rewrite He. repeat split; lia.
  - intros e He Hdenied Hfar.
    destruct (isAllowed_false_inv _ _ _ Hdenied) as (_ & e' & c & He' & Hlt & Hc & Hmax).
    rewrite He in He'. injection He' as <-.
    rewrite (waitForReset_denied key w e c He Hlt Hc Hmax).
    eexists. split; [reflexivity |]. simpl.
    rewrite timerDelay_too_long by exact Hfar.
    repeat split. unfold RateLimiter.isAllowed. rewrite He.
    destruct (Z.leb_spec (RateLimiter.resetTime e) (now w + 1));
      [unfold TIMEOUT_MAX in Hfar; lia |].
    rewrite Hc. cbn [geb].
    by destruct (Z.leb_spec (RateLimiter.maxRequests (limiter w)) c); [| lia].
Qed.

Lemma waitForReset_then_allowed_witness :
  let w := Samples.worldWith 400 Samples.exhaustedLimiter in
  exists w',
    RateLimiterOps.waitForReset "default" w = (Ok tt, w')
    /\ limiter w' = limiter w
    /\ now w <= now w'
    /\ (RateLimiter.isAllowed (now w') "default" (limiter w')).1 = true.
Proof.
  intros w. apply (proj1 (waitForReset_then_allowed "default" w)).
  intros e He. vm_compute in He. injection He as <-. vm_compute. discriminate.
Defined.

End RateLimiterExecuteFurther.

(* ===================================================================== *)
(** ** Further properties: error normalisation and messages *)
(* ===================================================================== *)

Section ErrorHandlerFurther.
Import JS Types Async ErrorHandler Retry ErrorMessages Scenarios.

Ltac status_tests r :=
  repeat match goal with
         | |- context [?a =? ?b] =>
             lazymatch a with
             | status r => destruct (Z.eqb_spec a b)
             end
         end.

Ltac status_cases r :=
  unfold handleAxiosError; cbn [ax_response ax_request ax_message];
  status_tests r.

(** X9. Normalisation keeps the HTTP status: the error made from an Axios
    error carries the status of the response (401 for an
    [AuthenticationError], 429 for a [RateLimitError]) and no status when
    no response was received; errors that are not Axios errors get none. *)
Theorem handleError_keeps_status :
  forall (now : Z) (x : Thrown),
    statusCode (handleError now x)
    = match x with
      | ThrownDockerHub e => statusCode e
      | ThrownAxios a => status <$> ax_response a
      | ThrownError _ => None
      | ThrownOther => None
      end.
Proof.
  intros now [e | a | m |]; try reflexivity.
  destruct a as [[r |] req m]; simpl.
  - status_cases r; cbn [orb statusCode]; congruence.
  - unfold handleAxiosError. simpl. by destruct req.
Qed.

(** X10. Which transport failures are retried: an Axios error is retryable
    exactly when it has a response with status 429 or at least 500; a
    failure without response (network error, timeout) and a plain [Error]
    are never retryable. *)
Theorem isRetryable_of_thrown :
  forall (now : Z) (x : Thrown),
    isRetryable (handleError now x)
    = match x with
      | ThrownDockerHub e => isRetryable e
      | ThrownAxios a =>
          match ax_response a with
          | Some r => (status r =? 429) || (500 <=? status r)
          | None => false
          end
      | ThrownError _ => false
      | ThrownOther => false
      end.
Proof.
  intros now [e | a | m |]; try reflexivity.
  destruct a as [[r |] req m]; simpl.
  - status_cases r; cbn [orb];
      unfold isRetryable; cbn [isRateLimitError isAuthenticationError statusCode];
      try reflexivity.
    all: unfold status_truthy.
    all: destruct (Z.eqb_spec (status r) 0), (Z.leb_spec 500 (status r)),
           (Z.eqb_spec (status r) 429); try lia; reflexivity.
  - unfold handleAxiosError. simpl. by destruct req.
Qed.

(** X11. Bounds of the retry delay. For an error that is not a
    [RateLimitError] and an attempt number of at least 1 the delay lies
    between 1000 and 30000 ms, doubles from one attempt to the next up to
    attempt 5 and is 30000 ms from attempt 6 on. For a [RateLimitError]
    with a numeric reset time the delay is never negative and reaches the
    reset time. *)
Theorem getRetryDelay_bounds :
  forall (now : Z) (e : DockerHubError) (attempt : Z),
    1 <= attempt ->
    (isRateLimitError e = false ->
     exists d,
       getRetryDelay now e attempt = Num d
       /\ 1000 <= d <= 30000
       /\ (attempt <= 5 -> d = 1000 * 2 ^ (attempt - 1))
       /\ (6 <= attempt -> d = 30000))
    /\ (forall m r,
          e = RateLimitError m (Num r) ->
          exists d,
            getRetryDelay now e attempt = Num d /\ 0 <= d /\ r <= now + d
            /\ (r <= now -> d = 0)).
Proof.
  intros now e attempt Ha. split.
  - intros Hkind.
    exists (Z.min 30000 (1000 * 2 ^ (attempt - 1))). split.
    { destruct e; try reflexivity. discriminate Hkind. }
    pose proof (pow2_pos (attempt - 1) ltac:(lia)) as Hpos.
    split; [lia |]. split.
    + intros H5.
      assert (H : 2 ^ (attempt - 1) <= 2 ^ 4) by (apply Z.pow_le_mono_r; lia).
      change (2 ^ 4) with 16 in H. lia.
    + intros H6.
      assert (H : 2 ^ 5 <= 2 ^ (attempt - 1)) by (apply Z.pow_le_mono_r; lia).
      change (2 ^ 5) with 32 in H. lia.
  - intros m r ->. exists (Z.max 0 (r - now)). simpl. repeat split; lia.
Qed.

Lemma getRetryDelay_bounds_witness :
  (exists d,
      getRetryDelay 0 (BaseError "Docker Hub internal server error" (Some 500) None) 7
      = Num d
      /\ 1000 <= d <= 30000
      /\ (7 <= 5 -> d = 1000 * 2 ^ (7 - 1))
      /\ (6 <= 7 -> d = 30000))
  /\ (exists d,
        getRetryDelay 100 (RateLimitError "Rate limit exceeded" (Num 5100)) 1 = Num d
        /\ 0 <= d /\ 5100 <= 100 + d /\ (5100 <= 100 -> d = 0)).
Proof.
  split.
  - apply (proj1 (getRetryDelay_bounds 0
                    (BaseError "Docker Hub internal server error" (Some 500) None) 7
                    ltac:(lia))).
    reflexivity.
  - apply (proj2 (getRetryDelay_bounds 100
                    (RateLimitError "Rate limit exceeded" (Num 5100)) 1 ltac:(lia))
             "Rate limit exceeded" 5100).
    reflexivity.
Defined.

(** X12. The wrapper adds nothing to a successful call and does nothing
    with an empty budget: when the operation succeeds at the first call the
    result and the world are those of the operation (no log line, no wait),
    for every positive budget; with [maxRetries = 0] the operation is never
    run and the wrapper throws [undefined]. *)
Theorem withErrorHandling_edges :
  forall (T : Type) (env : Env) (fn : M T) (context : option string) (w : World),
    (forall budget v w',
        fn w = (Ok v, w') ->
        withErrorHandling env fn context (S budget) w = (Ok v, w'))
    /\ withErrorHandling env fn context 0 w = (Throw ThrownOther, w).
Proof.
  intros T env fn context w. split; [| reflexivity].
  intros budget v w' H. unfold withErrorHandling.
  rewrite attempts_step by lia. by rewrite H.
Qed.

Lemma withErrorHandling_edges_witness :
  let env := Samples.envOf Samples.anonymousConfig (Samples.always 200) in
  let w := Samples.worldWith 42 Samples.defaultLimiter in
  withErrorHandling env clock (Some "op") 3 w = (Ok 42, w)
  /\ withErrorHandling env Samples.failing503 (Some "op") 0 w = (Throw ThrownOther, w).
Proof.
  intros env w. split.
  - apply (proj1 (withErrorHandling_edges Z env clock (Some "op") w) 2%nat 42 w).
    reflexivity.
  - apply (proj2 (withErrorHandling_edges unit env Samples.failing503 (Some "op") w)).
Defined.

(** The message for an error of the base class with a status. *)
Lemma createUserFriendlyMessage_base tl m st resp :
  createUserFriendlyMessage tl (BaseError m (Some st) resp)
  = if st =? 404 then "The requested Docker image or repository was not found."
    else if st =? 403
    then "Access denied. You may not have permission to access this resource."
    else if 500 <=? st
    then "Docker Hub service is temporarily unavailable. Please try again later."
    else msg_or m "An unexpected error occurred.".
Proof.
  unfold createUserFriendlyMessage, statusIs, status_truthy. simpl.
  destruct (st =? 404), (st =? 403); try reflexivity.
  destruct (Z.eqb_spec st 0) as [-> | _]; reflexivity.
Qed.

(** X13. What the client is told about an upstream answer. For the
    statuses 401, 403, 404 and 500 or more the message is a fixed text that
    does not depend on the body, the headers or the Axios message of the
    response; for any other status except 429 the text named by the body's
    [message] field, when there is one, is passed on as it is. *)
Theorem createUserFriendlyMessage_of_response :
  forall (toLocaleTimeString : number -> string) (now : Z) (r1 r2 : Response)
         (m1 m2 : string),
    let shown r m :=
      createUserFriendlyMessage toLocaleTimeString
        (handleAxiosError now {| ax_response := Some r; ax_request := true;
                                 ax_message := m |}) in
    (status r1 = status r2 ->
     status r1 = 401 \/ status r1 = 403 \/ status r1 = 404 \/ 500 <= status r1 ->
     shown r1 m1 = shown r2 m2)
    /\ (forall b text,
          status r1 <> 401 -> status r1 <> 403 -> status r1 <> 404 ->
          status r1 <> 429 -> status r1 < 500 ->
          data r1 = PErrorBody b -> eb_message b = Some text -> truthy text = true ->
          shown r1 m1 = text).
Proof.
  intros tl now r1 r2 m1 m2 shown. split.
  - intros Heq Hfixed. unfold shown.
    assert (Hshape : forall r m,
               status r = 401 \/ status r = 403 \/ status r = 404 \/ 500 <= status r ->
               createUserFriendlyMessage tl
                 (handleAxiosError now {| ax_response := Some r; ax_request := true;
                                          ax_message := m |})
               = if status r =? 401
                 then "Authentication failed. Please check your Docker Hub credentials."
                 else if status r =? 404
                 then "The requested Docker image or repository was not found."
                 else if status r =? 403
                 then "Access denied. You may not have permission to access this resource."
                 else "Docker Hub service is temporarily unavailable. Please try again later.").
    { intros r m H. status_cases r; try lia; cbn [orb];
        rewrite ?createUserFriendlyMessage_base; try reflexivity.
      all: status_tests r; try lia; try reflexivity.
      all: destruct (Z.leb_spec 500 (status r)); try lia; reflexivity. }
    rewrite (Hshape r1 m1 Hfixed), (Hshape r2 m2 ltac:(rewrite <- Heq; exact Hfixed)).
    by rewrite Heq.
  - intros b text H401 H403 H404 H429 H500 Hd Hb Ht. unfold shown.
    assert (Hmsg : extractMessage m1 (data r1) = text).
    { rewrite Hd. unfold extractMessage. rewrite Hb. simpl. by rewrite Ht. }
    status_cases r1; try lia; cbn [orb].
    rewrite createUserFriendlyMessage_base, Hmsg.
    destruct (Z.eqb_spec (status r1) 404); [lia |].
    destruct (Z.eqb_spec (status r1) 403); [lia |].
    destruct (Z.leb_spec 500 (status r1)); [lia |].
    unfold msg_or. by rewrite Ht, Ht.
Qed.

Lemma createUserFriendlyMessage_of_response_witness :
  let shown r m :=
    createUserFriendlyMessage millis
      (handleAxiosError 0 {| ax_response := Some r; ax_request := true;
                             ax_message := m |}) in
  let body text := PErrorBody {| eb_message := Some text; eb_detail := None;
                                 eb_error := None; eb_errors := None |} in
  shown {| status := 404; headers := ∅; data := body "repository secret/x not found" |} "a"
  = shown {| status := 404; headers := ∅; data := PNothing |} "b"
  /\ shown {| status := 400; headers := ∅; data := body "page_size too large" |} "a"
     = "page_size too large".
Proof.
  intros shown body. split.
  - apply (proj1 (createUserFriendlyMessage_of_response millis 0
             {| status := 404; headers := ∅; data := body "repository secret/x not found" |}
             {| status := 404; headers := ∅; data := PNothing |} "a" "b")).
    + reflexivity.
    + right. right. left. reflexivity.
  - apply (proj2 (createUserFriendlyMessage_of_response millis 0
             {| status := 400; headers := ∅; data := body "page_size too large" |}
             {| status := 404; headers := ∅; data := PNothing |} "a" "b")
             {| eb_message := Some "page_size too large"; eb_detail := None;
                eb_error := None; eb_errors := None |} "page_size too large");
      simpl; try lia; reflexivity.
Defined.

(** X14. The client never gets an empty message: for every normalised
    error, whatever its class, status and message, the text is not the
    empty string. *)
Theorem createUserFriendlyMessage_not_empty :
  forall (toLocaleTimeString : number -> string) (e : DockerHubError),
    truthy (createUserFriendlyMessage toLocaleTimeString e) = true.
Proof.
  intros tl [m c resp | m r | m]; try reflexivity.
  assert (Hor : forall a, truthy (msg_or a "An unexpected error occurred.") = true).
  { intros a. unfold msg_or. by destruct (truthy a) eqn:E. }
  destruct c as [st |].
  - rewrite createUserFriendlyMessage_base.
    destruct (st =? 404), (st =? 403), (500 <=? st); try reflexivity; apply Hor.
  - unfold createUserFriendlyMessage, statusIs. simpl. apply Hor.
Qed.

End ErrorHandlerFurther.

(* ===================================================================== *)
(** ** Further properties: the auth manager *)
(* ===================================================================== *)

Section AuthManagerFurther.
Import JS Types Async ErrorHandler Retry AuthManager AuthManagerOps Notions Scenarios.

Lemma stripPrefix_app p s : stripPrefix p (p ++ s) = Some s.
Proof.
  induction p as [| a p IH]; [reflexivity |].
  rewrite app_cons. simpl. by rewrite Ascii.eqb_refl.
Qed.

Lemma startsWith_app p s : startsWith p (p ++ s) = true.
Proof. unfold startsWith. by rewrite stripPrefix_app. Qed.

Lemma lookup_clearRegistryTokens registryUrl w k :
  tokenCache (clearRegistryTokens registryUrl w).2 !! k
  = if startsWith (clearedPrefix registryUrl) k then None else tokenCache w !! k.
Proof.
  unfold clearRegistryTokens. cbn [snd set_tokenCache tokenCache].
  rewrite map_lookup_filter. destruct (tokenCache w !! k) as [c |]; simpl.
  - case_guard as Hkeep; simpl in Hkeep; rewrite ?Hkeep; [reflexivity |].
    by destruct (startsWith (clearedPrefix registryUrl) k).
  - by destruct (startsWith (clearedPrefix registryUrl) k).
Qed.

(** X15. Clearing the default registry's tokens ([clearRegistryTokens()]
    without argument, or with an empty URL) removes the cached token of
    every scope of the default registry and keeps every private-registry
    token; nothing else in the world changes. *)
Theorem clearRegistryTokens_default :
  forall (registryUrl : option string) (w : World),
    truthy_opt registryUrl = false ->
    let w' := (clearRegistryTokens registryUrl w).2 in
    (clearRegistryTokens registryUrl w).1 = Ok tt
    /\ (forall scope, tokenCache w' !! dockerHubCacheKey scope = None)
    /\ (forall url scope,
          tokenCache w' !! registryCacheKey url scope
          = tokenCache w !! registryCacheKey url scope)
    /\ now w' = now w /\ limiter w' = limiter w /\ events w' = events w.
Proof.
  intros registryUrl w Hurl w'. split; [reflexivity |]. split; [| split].
  - intros scope. subst w'. rewrite lookup_clearRegistryTokens.
    unfold clearedPrefix. rewrite Hurl. unfold dockerHubCacheKey.
    by rewrite startsWith_app.
  - intros url scope. subst w'. rewrite lookup_clearRegistryTokens.
    unfold clearedPrefix. rewrite Hurl. reflexivity.
  - by repeat split.
Qed.

Lemma clearRegistryTokens_default_witness :
  let w' := (clearRegistryTokens None (worldWithTokens mixedTokenCache)).2 in
  (clearRegistryTokens None (worldWithTokens mixedTokenCache)).1 = Ok tt
  /\ (forall scope, tokenCache w' !! dockerHubCacheKey scope = None)
  /\ (forall url scope,
        tokenCache w' !! registryCacheKey url scope
        = tokenCache (worldWithTokens mixedTokenCache) !! registryCacheKey url scope)
  /\ now w' = now (worldWithTokens mixedTokenCache)
  /\ limiter w' = limiter (worldWithTokens mixedTokenCache)
  /\ events w' = events (worldWithTokens mixedTokenCache).
Proof.
  apply (clearRegistryTokens_default None (worldWithTokens mixedTokenCache)).
  reflexivity.
Defined.

(** X16. Clearing one registry's tokens removes its cached token for
    every scope and keeps the default registry's tokens; because the keys
    are matched by the prefix [registry:<url>:], it also removes the tokens
    of every registry whose URL is [<url>] followed by a colon and more
    (the same host with a port). *)
Theorem clearRegistryTokens_named :
  forall (registryUrl : string) (w : World),
    truthy registryUrl = true ->
    let w' := (clearRegistryTokens (Some registryUrl) w).2 in
    (forall scope, tokenCache w' !! registryCacheKey registryUrl scope = None)
    /\ (forall scope,
          tokenCache w' !! dockerHubCacheKey scope
          = tokenCache w !! dockerHubCacheKey scope)
    /\ (forall rest scope,
          tokenCache w' !! registryCacheKey (registryUrl ++ ":" ++ rest) scope = None)
    /\ (forall k, tokenCache w' !! k = None \/ tokenCache w' !! k = tokenCache w !! k).
Proof.
  intros registryUrl w Hurl w'.
  assert (Hp : clearedPrefix (Some registryUrl) = "registry:" ++ registryUrl ++ ":").
  { unfold clearedPrefix, truthy_opt, or_default. by rewrite Hurl. }
  split; [| split; [| split]].
  - intros scope. subst w'. rewrite lookup_clearRegistryTokens, Hp.
    unfold registryCacheKey.
    replace ("registry:" ++ registryUrl ++ ":" ++ or_default scope "default")
      with (("registry:" ++ registryUrl ++ ":") ++ or_default scope "default")
      by (by rewrite !string_app_assoc).
    by rewrite startsWith_app.
  - intros scope. subst w'. rewrite lookup_clearRegistryTokens, Hp. reflexivity.
  - intros rest scope. subst w'. rewrite lookup_clearRegistryTokens, Hp.
    unfold registryCacheKey.
    replace ("registry:" ++ (registryUrl ++ ":" ++ rest) ++ ":" ++ or_default scope "default")
      with (("registry:" ++ registryUrl ++ ":")
              ++ rest ++ ":" ++ or_default scope "default")
      by (by rewrite !string_app_assoc).
    by rewrite startsWith_app.
  - intros k. subst w'. rewrite lookup_clearRegistryTokens.
    destruct (startsWith (clearedPrefix (Some registryUrl)) k); auto.
Qed.

Lemma clearRegistryTokens_named_witness :
  let w := worldWithTokens mixedTokenCache in
  let w' := (clearRegistryTokens (Some "https://reg.example.com") w).2 in
  tokenCache w' !! registryCacheKey "https://reg.example.com" None = None
  /\ tokenCache w' !! dockerHubCacheKey None = tokenCache w !! dockerHubCacheKey None
  /\ tokenCache w' !! registryCacheKey ("https://reg.example.com" ++ ":" ++ "5000") None
     = None.
Proof.
  intros w w'.
  destruct (clearRegistryTokens_named "https://reg.example.com" w eq_refl)
    as (Hown & Hhub & Hport & _).
  split; [apply Hown | split; [apply Hhub | apply Hport]].
Defined.

(** After a token request has been sent the list of requests has grown
    by exactly that request, whatever the answer. *)
Lemma getDockerHubToken_request_sent env scope w :
  passwordOnly (config env) -> noValidToken (dockerHubCacheKey scope) w ->
  exists res w',
    getDockerHubToken env scope w = (res, w')
    /\ requests w' = (requests w ++ [EvRequest (dockerHubTokenRequest env scope)])%list.
Proof.
  intros Hcfg Hnone. rewrite (getDockerHubToken_requests env scope w Hcfg Hnone).
  unfold try_catch, bind at 1, axios.
  set (reply := network env (length (requests w)) (dockerHubTokenRequest env scope)).
  set (sent := advance (Z.of_N (elapsed reply))
                       (emit (EvRequest (dockerHubTokenRequest env scope)) w)).
  assert (Hsent : requests sent
                  = (requests w ++ [EvRequest (dockerHubTokenRequest env scope)])%list).
  { unfold sent, requests. simpl. by rewrite List.filter_app. }
  assert (Hfail : forall x, exists res w',
             onDockerHubFailure env x sent = (res, w')
             /\ requests w'
                = (requests w ++ [EvRequest (dockerHubTokenRequest env scope)])%list).
  { intros x. unfold onDockerHubFailure, bind at 1, clock. unfold bind at 1.
    rewrite logError_ok.
    destruct (logError_frame env (handleError (now sent) x)
                (Some "DockerHub Authentication") sent) as (_ & _ & _ & Hreq).
    destruct (isAuthenticationError (handleError (now sent) x)).
    - do 2 eexists. split; [reflexivity |]. exact (eq_trans Hreq Hsent).
    - do 2 eexists. split; [reflexivity |].
      exact (eq_trans (requests_emit_console _ _ _ _) (eq_trans Hreq Hsent)). }
  destruct (outcome reply) as [reason | r]; [apply Hfail |].
  destruct (status2xx (status r)); [| apply Hfail].
  unfold storeToken. destruct (tokenFields (data r)) as [[tok exp] |].
  - do 2 eexists. split; [reflexivity |]. exact Hsent.
  - unfold throw. apply Hfail.
Qed.

(** X17. Invalidation forces a new request: after [clearTokenCache()], and
    for every scope, the next [getDockerHubToken] under password
    credentials sends one token request, even if a valid token was cached
    before. *)
Theorem clearTokenCache_forces_request :
  forall (env : Env) (scope : option string) (w : World),
    passwordOnly (config env) ->
    let cleared := (clearTokenCache w).2 in
    tokenCache cleared = ∅
    /\ exists res w',
         getDockerHubToken env scope cleared = (res, w')
         /\ requests w'
            = (requests w ++ [EvRequest (dockerHubTokenRequest env scope)])%list.
Proof.
  intros env scope w Hcfg cleared. split; [reflexivity |].
  destruct (getDockerHubToken_request_sent env scope cleared Hcfg) as (res & w' & H & Hreq).
  { unfold noValidToken, cleared. simpl. by rewrite lookup_empty. }
  by exists res, w'.
Qed.

Lemma clearTokenCache_forces_request_witness :
  let env := Samples.envOf Samples.passwordConfig (Samples.always 503) in
  let w := worldWithTokens mixedTokenCache in
  tokenCache (clearTokenCache w).2 = ∅
  /\ exists res w',
       getDockerHubToken env None (clearTokenCache w).2 = (res, w')
       /\ requests w' = (requests w ++ [EvRequest (dockerHubTokenRequest env None)])%list.
Proof.
  intros env w. apply (clearTokenCache_forces_request env None w). by repeat split.
Defined.

End AuthManagerFurther.

Section AuthManagerCredentials.
Import JS Types Async ErrorHandler Retry AuthManager AuthManagerOps Notions Scenarios.

Lemma createAuthHeaders_private env ra scope w :
  createAuthHeaders env (Some ra) scope w
  = match getPrivateRegistryToken env ra scope w with
    | (Ok token, w') =>
        (Ok (if truthy_opt token
             then {[ "Authorization" := "Bearer " ++ or_default token "" ]}
             else ∅), w')
    | (Throw x, w') => (Throw x, w')
    end.
Proof.
  unfold createAuthHeaders, bind.
  by destruct (getPrivateRegistryToken env ra scope w) as [[tok | x] w'].
Qed.

(** X18. Credentials that need no request. A configured access token is
    used as it is, before any cached token or password, and the headers
    carry it as a bearer token; without access token and without a complete
    username/password pair the call is anonymous; a private registry
    without a complete pair gets no token. In the three cases nothing is
    sent and the world is unchanged. *)
Theorem createAuthHeaders_without_request :
  forall (env : Env) (scope : option string) (w : World),
    (truthy_opt (accessToken (config env)) = true ->
     getDockerHubToken env scope w = (Ok (accessToken (config env)), w)
     /\ createAuthHeaders env None scope w
        = (Ok {[ "Authorization"
                 := "Bearer " ++ or_default (accessToken (config env)) "" ]}, w))
    /\ (truthy_opt (accessToken (config env)) = false ->
        truthy_opt (username (config env)) = false
        \/ truthy_opt (password (config env)) = false ->
        getDockerHubToken env scope w = (Ok None, w)
        /\ createAuthHeaders env None scope w = (Ok ∅, w))
    /\ (forall ra,
          truthy_opt (cred_username (ra_credentials ra)) = false
          \/ truthy_opt (cred_password (ra_credentials ra)) = false ->
          getPrivateRegistryToken env ra scope w = (Ok None, w)
          /\ createAuthHeaders env (Some ra) scope w = (Ok ∅, w)).
Proof.
  intros env scope w. split; [| split].
  - intros Hat.
    assert (H : getDockerHubToken env scope w = (Ok (accessToken (config env)), w))
      by (unfold getDockerHubToken; by rewrite Hat).
    split; [exact H |]. by rewrite createAuthHeaders_default, H, Hat.
  - intros Hat Hmiss.
    assert (H : getDockerHubToken env scope w = (Ok None, w)).
    { unfold getDockerHubToken. rewrite Hat.
      destruct Hmiss as [-> | ->]; [reflexivity |].
      by destruct (truthy_opt (username (config env))). }
    split; [exact H |]. by rewrite createAuthHeaders_default, H.
  - intros ra Hmiss.
    assert (H : getPrivateRegistryToken env ra scope w = (Ok None, w)).
    { unfold getPrivateRegistryToken.
      destruct Hmiss as [-> | ->]; [reflexivity |].
      by destruct (truthy_opt (cred_username (ra_credentials ra))). }
    split; [exact H |]. by rewrite createAuthHeaders_private, H.
Qed.

Lemma createAuthHeaders_without_request_witness :
  let w := worldWithTokens mixedTokenCache in
  createAuthHeaders (Samples.envOf tokenConfig (fun _ _ => Samples.unreachable)) None
    (Some "repository:library/alpine:pull") w
  = (Ok {[ "Authorization" := "Bearer dckr_pat_123" ]}, w)
  /\ createAuthHeaders (Samples.envOf Samples.anonymousConfig (fun _ _ => Samples.unreachable))
       None None w
     = (Ok ∅, w)
  /\ createAuthHeaders (Samples.envOf Samples.anonymousConfig (fun _ _ => Samples.unreachable))
       (Some {| ra_url := Samples.registryUrl;
                ra_credentials := {| cred_username := Some "alice"; cred_password := None;
                                     cred_accessToken := None |} |})
       None w
     = (Ok ∅, w).
Proof.
  intros w. split; [| split].
  - apply (proj1 (createAuthHeaders_without_request
                    (Samples.envOf tokenConfig (fun _ _ => Samples.unreachable))
                    (Some "repository:library/alpine:pull") w)).
    reflexivity.
  - apply (proj1 (proj2 (createAuthHeaders_without_request
                    (Samples.envOf Samples.anonymousConfig (fun _ _ => Samples.unreachable))
                    None w))); [reflexivity | left; reflexivity].
  - apply (proj2 (proj2 (createAuthHeaders_without_request
                    (Samples.envOf Samples.anonymousConfig (fun _ _ => Samples.unreachable))
                    None w))).
    right. reflexivity.
Defined.

(** X19. The header map made by [createAuthHeaders] is either empty or
    exactly one [Authorization] entry holding [Bearer] and a non-empty
    token, for the default registry and for a private one alike. *)
Theorem createAuthHeaders_shape :
  forall (env : Env) (registryAuth : option RegistryAuth) (scope : option string)
         (w w' : World) (hdrs : gmap string string),
    createAuthHeaders env registryAuth scope w = (Ok hdrs, w') ->
    hdrs = ∅
    \/ exists tok, truthy tok = true /\ hdrs = {[ "Authorization" := "Bearer " ++ tok ]}.
Proof.
  intros env registryAuth scope w w' hdrs H.
  assert (Hshape : forall token : option string,
             (if truthy_opt token
              then {[ "Authorization" := "Bearer " ++ or_default token "" ]}
              else ∅) = hdrs ->
             hdrs = ∅
             \/ exists tok, truthy tok = true
                            /\ hdrs = {[ "Authorization" := "Bearer " ++ tok ]}).
  { intros [tok |] <-; [| by left]. simpl.
    destruct (truthy tok) eqn:E; [| by left]. right. by exists tok. }
  destruct registryAuth as [ra |].
  - rewrite createAuthHeaders_private in H.
    destruct (getPrivateRegistryToken env ra scope w) as [[token | x] w1];
      [| discriminate H].
    injection H as H _. by apply (Hshape token).
  - rewrite createAuthHeaders_default in H.
    destruct (getDockerHubToken env scope w) as [[token | x] w1]; [| discriminate H].
    injection H as H _. by apply (Hshape token).
Qed.

Lemma createAuthHeaders_shape_witness :
  ({[ "Authorization" := "Bearer dckr_pat_123" ]} : gmap string string) = ∅
  \/ exists tok, truthy tok = true
                 /\ ({[ "Authorization" := "Bearer dckr_pat_123" ]} : gmap string string)
                    = {[ "Authorization" := "Bearer " ++ tok ]}.
Proof.
  apply (createAuthHeaders_shape
           (Samples.envOf tokenConfig (fun _ _ => Samples.unreachable)) None None
           (worldWithTokens ∅) (worldWithTokens ∅)).
  reflexivity.
Defined.

(** X20. [validateCredentials] never throws: for every credential object,
    configuration, remote behaviour and world it resolves to a boolean. *)
Theorem validateCredentials_never_throws :
  forall (env : Env) (credentials : AuthCredentials) (w : World),
    exists (valid : bool) (w' : World),
      validateCredentials env credentials w = (Ok valid, w').
Proof.
  intros env credentials w. unfold validateCredentials.
  destruct (truthy_opt (cred_accessToken credentials)).
  - unfold try_catch, bind.
    destruct (axios env status2xx _ w) as [[r | x] w']; by do 2 eexists.
  - destruct (truthy_opt (cred_username credentials)
              && truthy_opt (cred_password credentials)); [| by do 2 eexists].
    unfold try_catch, bind.
    destruct (getDockerHubToken env None w) as [[t | x] w']; by do 2 eexists.
Qed.

(** X21. The password check does not look at the password it is given.
    For two credential objects that both hold a username and a password
    and no access token the result is the same, since the token is
    requested with the configured credentials; in particular, under a
    configuration with an access token every such pair is reported valid
    without any request. *)
Theorem validateCredentials_ignores_password :
  forall (env : Env) (c1 c2 : AuthCredentials) (w : World),
    truthy_opt (cred_accessToken c1) = false ->
    truthy_opt (cred_username c1) = true -> truthy_opt (cred_password c1) = true ->
    truthy_opt (cred_accessToken c2) = false ->
    truthy_opt (cred_username c2) = true -> truthy_opt (cred_password c2) = true ->
    validateCredentials env c1 w = validateCredentials env c2 w
    /\ (truthy_opt (accessToken (config env)) = true ->
        validateCredentials env c1 w = (Ok true, w)).
Proof.
  intros env c1 c2 w Ha1 Hu1 Hp1 Ha2 Hu2 Hp2.
  unfold validateCredentials. rewrite Ha1, Hu1, Hp1, Ha2, Hu2, Hp2. cbn [andb].
  split; [reflexivity |].
  intros Hat. unfold try_catch, bind, getDockerHubToken. by rewrite Hat.
Qed.

Lemma validateCredentials_ignores_password_witness :
  let env := Samples.envOf tokenConfig (fun _ _ => Samples.unreachable) in
  let w := worldWithTokens ∅ in
  validateCredentials env (passwordCredentials "alice" "right") w
  = validateCredentials env (passwordCredentials "mallory" "guess") w
  /\ validateCredentials env (passwordCredentials "alice" "right") w = (Ok true, w).
Proof.
  intros env w.
  destruct (validateCredentials_ignores_password env
              (passwordCredentials "alice" "right")
              (passwordCredentials "mallory" "guess") w
              eq_refl eq_refl eq_refl eq_refl eq_refl eq_refl) as [Hsame Htrue].
  split; [exact Hsame | apply Htrue; reflexivity].
Defined.

(** X22. A private registry has no anonymous fallback. With a complete
    username/password pair: when discovery yields no endpoint the call
    throws an [AuthenticationError] naming the registry; when the endpoint
    is known, no valid token is cached and the token request fails, the
    call throws the normalised error of that failure, whatever its kind. *)
Theorem getPrivateRegistryToken_failures :
  forall (env : Env) (ra : RegistryAuth) (scope : option string) (w w1 : World),
    truthy_opt (cred_username (ra_credentials ra)) = true ->
    truthy_opt (cred_password (ra_credentials ra)) = true ->
    (discoverAuthEndpoint env (ra_url ra) w = (Ok None, w1) ->
     getPrivateRegistryToken env ra scope w
     = (Throw (ThrownDockerHub
                 (AuthenticationError
                    ("Could not discover authentication endpoint for " ++ ra_url ra))),
        w1))
    /\ (forall authUrl protocol hostname x w2,
          discoverAuthEndpoint env (ra_url ra) w = (Ok (Some authUrl), w1) ->
          truthy authUrl = true ->
          noValidToken (registryCacheKey (ra_url ra) scope) w1 ->
          parseURL env (ra_url ra) = Some (protocol, hostname) ->
          axios env status2xx
            (tokenRequest env authUrl hostname scope
               (or_default (cred_username (ra_credentials ra)) "")
               (or_default (cred_password (ra_credentials ra)) "")) w1
          = (Throw x, w2) ->
          getPrivateRegistryToken env ra scope w
          = (Throw (ThrownDockerHub (handleError (now w2) x)),
             (logError env (handleError (now w2) x)
                (Some "Private Registry Authentication") w2).2)).
Proof.
  intros env ra scope w w1 Hu Hp. split.
  - intros Hd. unfold getPrivateRegistryToken. rewrite Hu, Hp. cbn [negb orb].
    unfold bind at 1. by rewrite Hd.
  - intros authUrl protocol hostname x w2 Hd Ht Hnone Hurl Hax.
    unfold getPrivateRegistryToken. rewrite Hu, Hp. cbn [negb orb].
    unfold bind at 1. rewrite Hd. cbn [truthy_opt]. rewrite Ht. cbn [negb].
    unfold bind at 1. rewrite (validCached_none _ _ Hnone).
    unfold try_catch. rewrite Hurl. unfold bind at 1.
    cbn [or_default]. rewrite Ht, Hax.
    unfold bind at 1, clock. unfold bind at 1. by rewrite logError_ok.
Qed.

Lemma getPrivateRegistryToken_failures_witness :
  let w := Samples.worldWith 0 Samples.defaultLimiter in
  (exists w1,
      getPrivateRegistryToken
        (Samples.envOf Samples.anonymousConfig (fun _ _ => Samples.unreachable))
        Samples.registryAuth None w
      = (Throw (ThrownDockerHub
                  (AuthenticationError
                     ("Could not discover authentication endpoint for "
                      ++ ra_url Samples.registryAuth))), w1))
  /\ (exists e w3,
        getPrivateRegistryToken (Samples.envOf Samples.anonymousConfig (challengeThen 503))
          Samples.registryAuth None w
        = (Throw (ThrownDockerHub e), w3)
        /\ statusCode e = Some 503).
Proof.
  intros w. split.
  - eexists.
    refine (proj1 (getPrivateRegistryToken_failures
                     (Samples.envOf Samples.anonymousConfig (fun _ _ => Samples.unreachable))
                     Samples.registryAuth None w _ eq_refl eq_refl) _).
    vm_compute. reflexivity.
  - do 2 eexists. split.
    + refine (proj2 (getPrivateRegistryToken_failures
                       (Samples.envOf Samples.anonymousConfig (challengeThen 503))
                       Samples.registryAuth None w _ eq_refl eq_refl)
                "https://auth.example.com/token" "https:" "registry.example.com" _ _
                _ _ _ _ _).
      * vm_compute. reflexivity.
      * reflexivity.
      * exact I.
      * reflexivity.
      * vm_compute. reflexivity.
    + reflexivity.
Defined.

End AuthManagerCredentials.

(* ===================================================================== *)
(** ** Further properties: the registry client and the cache *)
(* ===================================================================== *)

Section RegistryClientFurther.
Import JS Types Async ErrorHandler Retry Notions DockerHubClient Scenarios.

(** X23. What [parseRepository] accepts, it splits without loss: both
    parts are free of slashes, and the reference is the name alone (with
    namespace [library]) or the namespace, a slash and the name. Hence an
    official image may be written with or without [library/]: both forms
    parse to the same pair. *)
Theorem parseRepository_canonical :
  forall (repository namespace name : string),
    parseRepository repository = Ok (namespace, name) ->
    slashes namespace = 0%nat /\ slashes name = 0%nat
    /\ ((namespace = "library" /\ repository = name)
        \/ repository = namespace ++ "/" ++ name)
    /\ parseRepository ("library/" ++ name) = Ok ("library", name)
    /\ parseRepository name = Ok ("library", name).
Proof.
  intros repository namespace name H.
  assert (Hparts : slashes namespace = 0%nat /\ slashes name = 0%nat
                   /\ ((namespace = "library" /\ repository = name)
                       \/ repository = namespace ++ "/" ++ name)).
  { destruct (slashes repository) as [| [| n]] eqn:Hs.
    - rewrite (parseRepository_official _ Hs) in H. injection H as <- <-.
      repeat split; [exact Hs | by left].
    - destruct (first_occurrence "/" repository) as (a & b & Heq & Ha & Hb).
      { unfold slashes in Hs. lia. }
      assert (Hb0 : slashes b = 0%nat) by (unfold slashes in *; lia).
      rewrite Heq in H. change (a ++ String "/" b) with (a ++ "/" ++ b) in H.
      rewrite (parseRepository_namespaced a b Ha Hb0) in H. injection H as <- <-.
      repeat split; [exact Ha | exact Hb0 | by right].
    - rewrite parseRepository_rejects in H by lia. discriminate H. }
  destruct Hparts as (Hns & Hname & Hform). repeat split; try assumption.
  - by apply (parseRepository_namespaced "library" name).
  - by apply parseRepository_official.
Qed.

Lemma parseRepository_canonical_witness :
  slashes "bitnami" = 0%nat /\ slashes "redis" = 0%nat
  /\ (("bitnami" = "library" /\ "bitnami/redis" = "redis")
      \/ "bitnami/redis" = "bitnami" ++ "/" ++ "redis")
  /\ parseRepository ("library/" ++ "redis") = Ok ("library", "redis")
  /\ parseRepository "redis" = Ok ("library", "redis").
Proof.
  apply (parseRepository_canonical "bitnami/redis" "bitnami" "redis"). reflexivity.
Defined.

Lemma requests_set_limiter rl w : requests (set_limiter rl w) = requests w.
Proof. reflexivity. Qed.

(** X24. The client learns the rate limit from every answer. After a GET,
    the limiter is the old one updated from the headers of the response,
    whether the response was accepted (2xx) or rejected as an error; when
    no response is received the limiter is unchanged. In every case the
    token cache is untouched and exactly one request has been recorded. *)
Theorem get_learns_from_responses :
  forall (env : Env) (target : string) (hdrs : gmap string string) (w : World),
    let req := {| method := GET; url := target;
                  req_headers := hdrs ∪ DockerHubClient.defaultHeaders env;
                  basic_auth := None; form := [] |} in
    let reply := network env (length (requests w)) req in
    let after := (get env target hdrs w).2 in
    (forall r,
        outcome reply = Received r ->
        limiter after
        = RateLimiter.updateFromHeaders (headers r) RateLimiter.defaultKey (limiter w))
    /\ (forall reason, outcome reply = NoResponse reason -> limiter after = limiter w)
    /\ tokenCache after = tokenCache w
    /\ now after = now w + Z.of_N (elapsed reply)
    /\ requests after = (requests w ++ [EvRequest req])%list.
Proof.
  intros env target hdrs w req reply after. subst after. unfold get, axios.
  fold req. fold reply.
  assert (Hsent : requests (advance (Z.of_N (elapsed reply)) (emit (EvRequest req) w))
                  = (requests w ++ [EvRequest req])%list).
  { unfold requests. simpl. by rewrite List.filter_app. }
  destruct (outcome reply) as [reason | r].
  - simpl. repeat split; try reflexivity; try exact Hsent. intros r Hr. discriminate Hr.
  - destruct (status2xx (status r)); simpl;
      (repeat split; try reflexivity; try exact Hsent;
       [intros r' Hr; by injection Hr as <- | intros reason Hr; discriminate Hr]).
Qed.

Lemma get_learns_from_responses_witness :
  let env := Samples.envOf Samples.anonymousConfig
               (fun _ _ => Samples.answer 429 Samples.syncHeaders PNothing) in
  let w := Samples.worldWith 0 Samples.defaultLimiter in
  limiter (get env "https://hub.docker.com/v2/search/repositories/" ∅ w).2
  = RateLimiter.updateFromHeaders Samples.syncHeaders RateLimiter.defaultKey (limiter w).
Proof.
  intros env w.
  apply (proj1 (get_learns_from_responses env
                  "https://hub.docker.com/v2/search/repositories/" ∅ w)
           {| status := 429; headers := Samples.syncHeaders; data := PNothing |}).
  reflexivity.
Defined.

(** X25. An anonymous scan request carries no credentials. Without access
    token and without a complete username/password pair, and when the
    limiter allows the call, [getVulnerabilities]'s request sends exactly
    one GET to the scan URL whose headers are the client's two default
    headers, without [Authorization]; no token request is made. *)
Theorem scanRequest_anonymous :
  forall (env : Env) (namespace name tag : string) (w : World),
    truthy_opt (accessToken (config env)) = false ->
    truthy_opt (username (config env)) = false
    \/ truthy_opt (password (config env)) = false ->
    (RateLimiter.isAllowed (now w) RateLimiter.defaultKey (limiter w)).1 = true ->
    let req := {| method := GET; url := scanURL namespace name tag;
                  req_headers := DockerHubClient.defaultHeaders env;
                  basic_auth := None; form := [] |} in
    requests (scanRequest env namespace name tag w).2
    = (requests w ++ [EvRequest req])%list
    /\ req_headers req !! "Authorization" = None.
Proof.
  intros env namespace name tag w Hat Hmiss Hallowed req. split.
  - unfold scanRequest, RateLimiterOps.execute, bind at 1, RateLimiterOps.isAllowed.
    destruct (RateLimiter.isAllowed (now w) RateLimiter.defaultKey (limiter w))
      as [allowed rl].
    simpl in Hallowed. subst allowed. cbn [negb]. unfold bind at 1, ret.
    unfold bind at 1.
    assert (Hanon : forall w0, AuthManager.createAuthHeaders env None None w0 = (Ok ∅, w0)).
    { intros w0. rewrite createAuthHeaders_default.
      assert (H : AuthManager.getDockerHubToken env None w0 = (Ok None, w0)).
      { unfold AuthManager.getDockerHubToken. rewrite Hat.
        destruct Hmiss as [-> | ->]; [reflexivity |].
        by destruct (truthy_opt (username (config env))). }
      by rewrite H. }
    rewrite Hanon.
    rewrite get_records_request, requests_set_limiter. unfold req.
    by rewrite (left_id_L ∅ (∪)).
  - unfold req, DockerHubClient.defaultHeaders. cbn [req_headers].
    rewrite lookup_insert_ne by discriminate.
    apply lookup_singleton_ne. discriminate.
Qed.

Lemma scanRequest_anonymous_witness :
  let env := Samples.envOf Samples.anonymousConfig (Samples.always 404) in
  let w := Samples.worldWith 0 Samples.defaultLimiter in
  requests (scanRequest env "library" "nginx" "latest" w).2
  = [EvRequest {| method := GET; url := scanURL "library" "nginx" "latest";
                  req_headers := DockerHubClient.defaultHeaders env;
                  basic_auth := None; form := [] |}].
Proof.
  intros env w.
  refine (proj1 (scanRequest_anonymous env "library" "nginx" "latest" w _ _ _)).
  - reflexivity.
  - left. reflexivity.
  - reflexivity.
Defined.

End RegistryClientFurther.

Section CacheManagerFurther.
Import JS CacheManager CacheOps Scenarios.

Lemma generateKey_same_pairs endpoint (A B : Params) :
  NoDup (map fst A) -> NoDup (map fst B) ->
  (forall kv, In kv A <-> In kv B) ->
  generateKey endpoint A = generateKey endpoint B.
Proof.
  intros HA HB Hsame. unfold generateKey.
  pose proof (same_pairs_same_keys A B HA HB Hsame) as Hkeys.
  rewrite <- (sortKeys_order_independent _ _ Hkeys).
  replace (map (renderParam B) (sortKeys (map fst A)))
    with (map (renderParam A) (sortKeys (map fst A))); [reflexivity |].
  apply map_ext_in. intros k Hk. unfold renderParam.
  rewrite (getParam_agree A B k HA HB Hsame); [reflexivity |].
  apply list_elem_of_In. rewrite <- (sortKeys_perm (map fst A)).
  by apply list_elem_of_In.
Qed.

Lemma sortKeys_sorted_id l : Sorted String.le l -> sortKeys l = l.
Proof.
  intros Hs. apply (Sorted_unique String.le); [apply sortKeys_sorted | exact Hs |].
  apply sortKeys_perm.
Qed.

(** X26. A cached response is found again under any enumeration order of
    its parameters. Over a store that keeps entries for their lifetime, a
    response stored by [cacheApiResponse] at time [t0] is returned by
    [getCachedApiResponse] at every time up to [t0] plus the lifetime, also
    when the parameter object lists the same pairs in another order; the
    lifetime is the [ttl] argument, or the default one when the argument is
    missing or [0]. *)
Theorem cached_response_round_trip :
  forall (T : Type) (nc : NodeCache T) (defaultTTL t0 t1 : Z) (endpoint : string)
         (A B : Params) (d : T) (ttl_arg : option Z) (s s1 : nc_state nc),
    keepsWhileLive nc ->
    NoDup (map fst A) -> NoDup (map fst B) ->
    (forall kv, In kv A <-> In kv B) ->
    cacheApiResponse nc defaultTTL t0 endpoint A d ttl_arg s = Some s1 ->
    t0 <= t1 <= t0 + num_or ttl_arg defaultTTL * 1000 ->
    (getCachedApiResponse nc t1 endpoint B s1).1 = Some d.
Proof.
  intros T nc defaultTTL t0 t1 endpoint A B d ttl_arg s s1 Hkeeps HA HB Hsame Hset Htime.
  unfold cacheApiResponse, set in Hset. unfold getCachedApiResponse, get.
  rewrite <- (generateKey_same_pairs endpoint A B HA HB Hsame).
  destruct (Hkeeps _ _ _ _ _ _ t1 Hset) as [s2 Hget]; [lia |].
  rewrite Hget. cbn [ttl timestamp data].
  destruct (Z.ltb_spec (num_or ttl_arg defaultTTL * 1000) (t1 - t0)) as [Hlt | _];
    [lia | reflexivity].
Qed.

Lemma cached_response_round_trip_witness :
  let A := [("q", VStr "nginx"); ("page", VNum 1)] in
  let B := [("page", VNum 1); ("q", VStr "nginx")] in
  let nc := keepingStore string in
  match cacheApiResponse nc 300 1000 "search" A "result" (Some 0) ∅ with
  | Some s1 => (getCachedApiResponse nc 301000 "search" B s1).1 = Some "result"
  | None => False
  end.
Proof.
  intros A B nc.
  destruct (cacheApiResponse nc 300 1000 "search" A "result" (Some 0) ∅) as [s1 |] eqn:Hset;
    [| discriminate Hset].
  assert (Hnames : forall (k1 k2 : string) v w, k1 <> k2 ->
                     NoDup (map fst [(k1, v : value); (k2, w : value)])).
  { intros k1 k2 v w Hne. apply NoDup_cons_2; [| apply NoDup_singleton].
    intros Hin. apply list_elem_of_singleton in Hin. by apply Hne. }
  apply (cached_response_round_trip string nc 300 1000 301000 "search" A B "result"
           (Some 0) ∅ s1).
  - intros key entry lifetime t0 s s' t1 Hs _. simpl in Hs. injection Hs as <-.
    exists (<[key := entry]> s). simpl. by rewrite lookup_insert_eq.
  - apply Hnames. discriminate.
  - apply Hnames. discriminate.
  - intros kv. simpl. tauto.
  - exact Hset.
  - simpl. lia.
Defined.

(** X27. The manager never serves an entry past its own lifetime, whatever
    the store does. If [get] returns data, the store held an entry with
    that data whose age is at most [ttl * 1000] milliseconds; and when the
    store still hands out an older entry, [get] answers [null] and deletes
    the key from the store. *)
Theorem get_never_stale :
  forall (T : Type) (nc : NodeCache T) (now : Z) (key : string) (s : nc_state nc),
    (forall d, (get nc now key s).1 = Some d ->
       exists entry, (nc_get nc key now s).1 = Some entry
                     /\ data entry = d
                     /\ now - timestamp entry <= ttl entry * 1000)
    /\ (forall entry, (nc_get nc key now s).1 = Some entry ->
          ttl entry * 1000 < now - timestamp entry ->
          get nc now key s = (None, nc_del nc key (nc_get nc key now s).2)).
Proof.
  intros T nc now key s. unfold get.
  destruct (nc_get nc key now s) as [[entry |] s1]; simpl.
  - destruct (Z.ltb_spec (ttl entry * 1000) (now - timestamp entry)) as [Hlt | Hge]; split.
    + intros d Hd. discriminate Hd.
    + intros e He _. reflexivity.
    + intros d Hd. injection Hd as <-. by exists entry.
    + intros e He Hold. injection He as <-. lia.
  - split; [intros d Hd | intros e He]; discriminate.
Qed.

Lemma get_never_stale_witness :
  let nc := keepingStore string in
  let s : nc_state nc :=
    {[ "search" := {| data := "result"; timestamp := 1000; ttl := 300 |} ]} in
  get nc 301001 "search" s = (None, ∅).
Proof.
  intros nc s.
  rewrite (proj2 (get_never_stale string nc 301001 "search" s)
             {| data := "result"; timestamp := 1000; ttl := 300 |}).
  - reflexivity.
  - reflexivity.
  - simpl. lia.
Defined.

(** X28. Parameter names enter the key as they are. Only the values are
    escaped, so a name that contains [=] and [&] can spell out a whole
    pair: for two distinct names in sorted order, the object with the two
    parameters and the object whose single name is the first pair, an
    ampersand and the second name get the same key. *)
Theorem generateKey_names_verbatim :
  forall (endpoint k1 k2 : string) (v1 v2 : value),
    String.le k1 k2 -> k1 <> k2 ->
    generateKey endpoint [(k1, v1); (k2, v2)]
    = generateKey endpoint
        [(k1 ++ "=" ++ encodeURIComponent (toStr v1) ++ "&" ++ k2, v2)].
Proof.
  intros endpoint k1 k2 v1 v2 Hle Hne.
  rewrite !generateKey_nonempty by discriminate. f_equal. f_equal.
  cbn [map fst].
  rewrite (sortKeys_sorted_id [k1; k2])
    by (repeat constructor; exact Hle).
  rewrite (sortKeys_sorted_id [_]) by repeat constructor.
  cbn [map]. unfold renderParam. cbn [getParam].
  rewrite !String.eqb_refl.
  destruct (String.eqb_spec k1 k2) as [Heq | _]; [contradiction |].
  cbn [join]. by rewrite !string_app_assoc.
Qed.

Lemma generateKey_names_verbatim_witness :
  generateKey "search" [("page", VNum 1); ("q", VStr "nginx")]
  = generateKey "search" [("page=1&q", VStr "nginx")].
Proof.
  apply (generateKey_names_verbatim "search" "page" "q" (VNum 1) (VStr "nginx")).
  - vm_compute. exact I.
  - discriminate.
Defined.

End CacheManagerFurther.
